(** * Relative Rotation Graph: Metrics Engine and Frame Builder

    A shallow embedding of [src/rrg.py]:

    - [calculate]    (the Metrics Engine, rrg.py lines 5-19),
    - [build_frames] (the Frame Builder, rrg.py lines 21-110), and
    - [plot]         (the figure dictionary, rrg.py lines 113-242).

    Python integers are [Z].  Python floats are modelled by [xreal]: the real
    numbers extended with the two infinities and a not-a-number value, with the
    IEEE-754 rules for those special values and exact arithmetic on the finite
    ones (rounding is not modelled).  What is proved over [xreal] is what does
    not depend on rounding: the shape of the formulas, the propagation of
    not-a-number and the rules of division by zero.  Where rounding changes
    the outcome, the lines concerned are evaluated in binary64 ([b64_]
    definitions, over the primitive floats).  Exceptions are modelled by
    [result]. *)

From Stdlib Require Import PrimFloat.
From Stdlib Require Import String Ascii ZArith List Sorted Bool Lia Reals Lra.
From Stdlib Require DecimalString Uint63.
Import ListNotations.
Local Open Scope string_scope.
Local Open Scope list_scope.
Local Open Scope Z_scope.

(* ===================================================================== *)
(** ** Exceptions *)
(* ===================================================================== *)

Inductive exn : Type := KeyError | IndexError | ValueError.

Inductive result (A : Type) : Type :=
| Ok (a : A)
| Raise (e : exn).
Arguments Ok {A} a.
Arguments Raise {A} e.

Definition bind {A B : Type} (m : result A) (k : A -> result B) : result B :=
  match m with
  | Ok a => k a
  | Raise e => Raise e
  end.

Notation "x <- m ;; k" := (bind m (fun x => k))
  (at level 61, m at next level, right associativity).

(** A Python [for] loop whose body updates the loop state and may raise. *)
Fixpoint for_each {A S : Type} (xs : list A) (s : S)
         (body : S -> A -> result S) : result S :=
  match xs with
  | [] => Ok s
  | a :: xs' => s' <- body s a ;; for_each xs' s' body
  end.

(* ===================================================================== *)
(** ** Floating-point values *)
(* ===================================================================== *)

Inductive xreal : Type :=
| Fin (r : R)
| PInf
| NInf
| NaN.

Definition is_nan (v : xreal) : bool :=
  match v with NaN => true | _ => false end.

Definition xneg (a : xreal) : xreal :=
  match a with
  | Fin r => Fin (- r)
  | PInf => NInf
  | NInf => PInf
  | NaN => NaN
  end.

Definition xadd (a b : xreal) : xreal :=
  match a, b with
  | NaN, _ | _, NaN => NaN
  | Fin p, Fin q => Fin (p + q)
  | PInf, NInf | NInf, PInf => NaN
  | PInf, _ | _, PInf => PInf
  | NInf, _ | _, NInf => NInf
  end.

Definition xsub (a b : xreal) : xreal := xadd a (xneg b).

(** Sign of a real: [Gt] positive, [Lt] negative, [Eq] zero. *)
Definition Rsign (r : R) : comparison :=
  if Rlt_dec 0 r then Gt else if Rlt_dec r 0 then Lt else Eq.

Definition signed_inf (c : comparison) : xreal :=
  match c with Gt => PInf | Lt => NInf | Eq => NaN end.

Definition mul_sign (c d : comparison) : comparison :=
  match c, d with
  | Eq, _ | _, Eq => Eq
  | Gt, Gt | Lt, Lt => Gt
  | _, _ => Lt
  end.

Definition xmul (a b : xreal) : xreal :=
  match a, b with
  | NaN, _ | _, NaN => NaN
  | Fin p, Fin q => Fin (p * q)
  | Fin p, PInf | PInf, Fin p => signed_inf (Rsign p)
  | Fin p, NInf | NInf, Fin p => signed_inf (mul_sign (Rsign p) Lt)
  | PInf, PInf | NInf, NInf => PInf
  | PInf, NInf | NInf, PInf => NInf
  end.

(** Division: [0/0] and [inf/inf] are not-a-number, a non-zero finite value
    over zero is an infinity (the sign of a zero is not modelled: zero counts
    as positive). *)
Definition xdiv (a b : xreal) : xreal :=
  match a, b with
  | NaN, _ | _, NaN => NaN
  | Fin p, Fin q =>
      if Req_EM_T q 0 then signed_inf (Rsign p) else Fin (p / q)
  | Fin _, PInf | Fin _, NInf => Fin 0
  | PInf, Fin q => if Rlt_dec q 0 then NInf else PInf
  | NInf, Fin q => if Rlt_dec q 0 then PInf else NInf
  | _, _ => NaN
  end.

Definition xsqrt (a : xreal) : xreal :=
  match a with
  | Fin r => if Rlt_dec r 0 then NaN else Fin (sqrt r)
  | PInf => PInf
  | NInf | NaN => NaN
  end.

Definition xabs (a : xreal) : xreal :=
  match a with
  | Fin r => Fin (Rabs r)
  | PInf | NInf => PInf
  | NaN => NaN
  end.

(** Python's [a > b] on floats: false as soon as one side is not-a-number. *)
Definition xgt (a b : xreal) : bool :=
  match a, b with
  | NaN, _ | _, NaN => false
  | Fin p, Fin q => if Rlt_dec q p then true else false
  | PInf, PInf | NInf, _ | _, PInf => false
  | PInf, _ | _, NInf => true
  end.

(** Python's [a <= b] on floats. *)
Definition xle (a b : xreal) : bool :=
  match a, b with
  | NaN, _ | _, NaN => false
  | Fin p, Fin q => if Rle_dec p q then true else false
  | NInf, _ | _, PInf => true
  | PInf, _ | _, NInf => false
  end.

Definition xof_Z (z : Z) : xreal := Fin (IZR z).

Definition xsum (l : list xreal) : xreal := fold_right xadd (Fin 0) l.

(* ===================================================================== *)
(** ** Time index *)
(* ===================================================================== *)

(** An entry of a [DatetimeIndex]: a calendar date and the time of day (in
    nanoseconds since midnight).  pandas bounds the year to 1677..2262. *)
Record Timestamp : Type := mkTimestamp {
  year : Z;
  month : Z;
  day : Z;
  time_ns : Z
}.

Definition digit (n : Z) : ascii := ascii_of_nat (48 + Z.to_nat (n mod 10)).

Definition zero_pad2 (n : Z) : string :=
  String (digit (n / 10)) (String (digit n) EmptyString).

Definition zero_pad4 (n : Z) : string :=
  String (digit (n / 1000)) (String (digit (n / 100)) (zero_pad2 n)).

(** [ts.strftime("%Y-%m-%d")] *)
Definition strftime_Ymd (ts : Timestamp) : string :=
  (zero_pad4 (year ts) ++ "-" ++ zero_pad2 (month ts) ++ "-" ++ zero_pad2 (day ts))%string.

(* ===================================================================== *)
(** ** Tables *)
(* ===================================================================== *)

(** A [pandas.Series] of floats over a time index. *)
Record Series : Type := mkSeries {
  s_index : list Timestamp;
  s_values : list xreal
}.

(** A [pandas.DataFrame] of floats: a time index and the columns in input
    order, each a label and its values. *)
Record DataFrame : Type := mkDataFrame {
  index : list Timestamp;
  columns : list (string * list xreal)
}.

(** [len(df)]: the number of rows. *)
Definition len (df : DataFrame) : Z := Z.of_nat (length (index df)).

(** [df.columns] *)
Definition column_labels (df : DataFrame) : list string := map fst (columns df).

(** [df[t]]: the column labelled [t]; [KeyError] when there is none. *)
Definition getitem (df : DataFrame) (t : string) : result (list xreal) :=
  match find (fun c => String.eqb (fst c) t) (columns df) with
  | Some c => Ok (snd c)
  | None => Raise KeyError
  end.

(** Python's normalisation of a slice bound against a sequence of length [n]. *)
Definition slice_bound (n k : Z) : Z :=
  if k <? 0 then Z.max 0 (n + k) else Z.min k n.

(** [l[start:end_]] *)
Definition slice {A : Type} (start end_ : Z) (l : list A) : list A :=
  let n := Z.of_nat (length l) in
  let lo := slice_bound n start in
  let hi := slice_bound n end_ in
  firstn (Z.to_nat (hi - lo)) (skipn (Z.to_nat lo) l).

(** [l[k]] for a list or an index, [l.iloc[k]] for a series: negative
    positions count from the end, out of range raises [IndexError]. *)
Definition iloc {A : Type} (l : list A) (k : Z) : result A :=
  let n := Z.of_nat (length l) in
  let p := if k <? 0 then n + k else k in
  if (p <? 0) || (n <=? p) then Raise IndexError
  else match nth_error l (Z.to_nat p) with
       | Some a => Ok a
       | None => Raise IndexError
       end.

(** [range(total_frames, -1, -1)]: [total_frames, ..., 1, 0]. *)
Definition range_down (total_frames : Z) : list Z :=
  map (fun k => total_frames - Z.of_nat k) (seq 0 (Z.to_nat (total_frames + 1))).

(* ===================================================================== *)
(** ** Frames and navigation steps *)
(* ===================================================================== *)

Record Marker : Type := mkMarker {
  symbol : list string;
  size : list Z;
  opacity : Z
}.

(** The arguments of one [go.Scatter] trace. *)
Record Scatter : Type := mkScatter {
  x : list xreal;
  y : list xreal;
  mode : string;
  name : string;
  text : list (option string);
  textposition : string;
  cliponaxis : bool;
  marker : Marker
}.

Record Frame : Type := mkFrame {
  data : list Scatter;
  frame_name : string
}.

(** The second element of a step's ["args"], when there is one. *)
Record AnimateOptions : Type := mkAnimateOptions {
  frame_duration : Z;
  frame_redraw : bool;
  animate_mode : string;
  transition_duration : Z
}.

(** A slider step: ["args"] is [[key]] or [[key], options]. *)
Record Step : Type := mkStep {
  args_frames : list string;
  args_options : option AnimateOptions;
  label : string;
  method : string
}.

Definition label_text (n : nat) (t : string) : list (option string) :=
  repeat None (n - 1) ++ [Some t].

(* ===================================================================== *)
(** ** The Frame Builder *)
(* ===================================================================== *)

(** rrg.py lines 54-59: the window of offset [i] over [L] rows with tail [n]. *)
Definition window_bounds (L n i : Z) : Z * Z :=
  let start := L - n - i in
  let end_ := start + n in
  let start := if start <? 0 then 0 else start in
  let end_ := if end_ >? L then L else end_ in
  (start, end_).

(** rrg.py lines 73-82: the marker of the last point of a window. *)
Definition arrow_symbol (x y : list xreal) : result string :=
  if (1 <? length x)%nat then
    x1 <- iloc x (-1) ;;
    x2 <- iloc x (-2) ;;
    let dx := xsub x1 x2 in
    y1 <- iloc y (-1) ;;
    y2 <- iloc y (-2) ;;
    let dy := xsub y1 y2 in
    if xgt (xabs dx) (xabs dy) then
      Ok (if xgt dx (Fin 0) then "triangle-right" else "triangle-left")
    else
      Ok (if xgt dy (Fin 0) then "triangle-up" else "triangle-down")
  else Ok "triangle-up".

(** rrg.py lines 34-47: one trace of the single frame. *)
Definition single_trace (rs_data rsm_data : DataFrame) (t : string)
  : result Scatter :=
  x <- getitem rs_data t ;;
  y <- getitem rsm_data t ;;
  let txt := label_text (length x) t in
  Ok (mkScatter x y "lines+markers+text" t txt "middle right" false
        (mkMarker ["triangle-up"] [14] 1)).

(** rrg.py lines 68-98: one trace of a window frame. *)
Definition window_trace (rs_data rsm_data : DataFrame) (start end_ : Z)
           (t : string) : result Scatter :=
  xs <- getitem rs_data t ;;
  let x := slice start end_ xs in
  ys <- getitem rsm_data t ;;
  let y := slice start end_ ys in
  let txt := label_text (length x) t in
  arrow <- arrow_symbol x y ;;
  Ok (mkScatter x y "lines+markers+text" t txt "middle right" false
        (mkMarker (repeat "circle" (length x - 1) ++ [arrow])
                  (repeat 8 (length x - 1) ++ [14])
                  1)).

(** The traces of one frame: the body appends one trace per ticker. *)
Definition traces (tickers_list : list string)
           (trace : string -> result Scatter) : result (list Scatter) :=
  for_each tickers_list [] (fun acc t => s <- trace t ;; Ok (acc ++ [s])).

Definition instant : AnimateOptions := mkAnimateOptions 0 true "immediate" 0.

(** rrg.py lines 63-108: the frame of the window [start, end_) and its
    slider step. *)
Definition window_frame (rs_data rsm_data : DataFrame) (start end_ : Z)
  : result (Frame * Step) :=
  d0 <- iloc (index rs_data) start ;;
  let start_date := strftime_Ymd d0 in
  d1 <- iloc (index rs_data) (end_ - 1) ;;
  let end_date := strftime_Ymd d1 in
  let key := (start_date ++ " - " ++ end_date)%string in
  frame_data <- traces (column_labels rs_data)
                       (window_trace rs_data rsm_data start end_) ;;
  Ok (mkFrame frame_data key, mkStep [key] (Some instant) key "animate").

(** rrg.py line 60: the test that skips an offset. *)
Definition skipped (L n i : Z) : bool :=
  let '(start, end_) := window_bounds L n i in end_ - start <? 1.

(** rrg.py lines 53-108: the body of the loop over the offsets; the state is
    the pair [(frames, slider_steps)]. *)
Definition frame_step (rs_data rsm_data : DataFrame) (n : Z)
           (acc : list Frame * list Step) (i : Z)
  : result (list Frame * list Step) :=
  let '(frames, slider_steps) := acc in
  if skipped (len rs_data) n i then Ok acc
  else
    let '(start, end_) := window_bounds (len rs_data) n i in
    fs <- window_frame rs_data rsm_data start end_ ;;
    Ok (frames ++ [fst fs], slider_steps ++ [snd fs]).

(** rrg.py lines 21-110. *)
Definition build_frames (rs_data rsm_data : DataFrame)
           (tail_points total_frames : Z)
  : result (list Frame * list Step) :=
  let tickers_list := column_labels rs_data in
  if len rs_data <? 2 then
    let key := "SingleFrame" in
    single_data <- traces tickers_list (single_trace rs_data rsm_data) ;;
    Ok ([mkFrame single_data key], [mkStep [key] None key "animate"])
  else
    let n := tail_points in
    for_each (range_down total_frames) ([], [])
             (frame_step rs_data rsm_data n).

(* ===================================================================== *)
(** ** Table operations of the numeric-table library *)
(* ===================================================================== *)

Definition ts_eqb (a b : Timestamp) : bool :=
  (year a =? year b) && (month a =? month b) && (day a =? day b)
  && (time_ns a =? time_ns b).

Definition ts_ltb (a b : Timestamp) : bool :=
  (year a <? year b)
  || ((year a =? year b)
      && ((month a <? month b)
          || ((month a =? month b)
              && ((day a <? day b)
                  || ((day a =? day b) && (time_ns a <? time_ns b)))))).

Fixpoint index_eqb (a b : list Timestamp) : bool :=
  match a, b with
  | [], [] => true
  | p :: a', q :: b' => ts_eqb p q && index_eqb a' b'
  | _, _ => false
  end.

Fixpoint insert_ts (t : Timestamp) (l : list Timestamp) : list Timestamp :=
  match l with
  | [] => [t]
  | h :: r =>
      if ts_ltb t h then t :: l
      else if ts_eqb t h then l
      else h :: insert_ts t r
  end.

(** [a.union(b)] of two indices without repeated entries: the sorted union. *)
Definition index_union (a b : list Timestamp) : list Timestamp :=
  fold_right insert_ts [] (a ++ b).

(** The value labelled [t], not-a-number when the label is missing. *)
Fixpoint lookup_ts (t : Timestamp) (idx : list Timestamp) (vals : list xreal)
  : xreal :=
  match idx, vals with
  | i :: idx', v :: vals' => if ts_eqb i t then v else lookup_ts t idx' vals'
  | _, _ => NaN
  end.

Definition reindex (new_index old_index : list Timestamp) (vals : list xreal)
  : list xreal :=
  map (fun t => lookup_ts t old_index vals) new_index.

(** Position-wise combination of two columns. *)
Definition map2 (f : xreal -> xreal -> xreal) (a b : list xreal) : list xreal :=
  map (fun p => f (fst p) (snd p)) (combine a b).

Definition map_columns (f : list xreal -> list xreal) (df : DataFrame)
  : DataFrame :=
  mkDataFrame (index df) (map (fun c => (fst c, f (snd c))) (columns df)).

(** A binary operator between two tables of one shape (the same index and the
    same column labels, as all the tables [calculate] combines are): columns
    are paired in order and combined position-wise. *)
Definition binop (f : xreal -> xreal -> xreal) (a b : DataFrame) : DataFrame :=
  mkDataFrame (index a)
    (map (fun p => (fst (fst p), map2 f (snd (fst p)) (snd (snd p))))
         (combine (columns a) (columns b))).

(** [df.div(s, axis=0)]: every column divided by the series, rows matched by
    index label.  Equal indices are matched by position; otherwise both sides
    are re-indexed on the union of the two indices (not-a-number where a label
    is missing on one side).  The union is modelled for indices without
    repeated entries. *)
Definition div (df : DataFrame) (s : Series) : DataFrame :=
  if index_eqb (index df) (s_index s) then
    map_columns (fun c => map2 xdiv c (s_values s)) df
  else
    let idx := index_union (index df) (s_index s) in
    let b := reindex idx (s_index s) (s_values s) in
    mkDataFrame idx
      (map (fun c => (fst c, map2 xdiv (reindex idx (index df) (snd c)) b))
           (columns df)).

(** [df.rolling(window)] with [min_periods] left to its default, [window]. *)
Record Rolling : Type := mkRolling {
  obj : DataFrame;
  window_size : Z
}.

(** The constructor validates the window: a negative one raises
    ["window must be an integer 0 or greater"]. *)
Definition rolling (df : DataFrame) (window : Z) : result Rolling :=
  if window <? 0 then Raise ValueError else Ok (mkRolling df window).

(** The observations of the trailing window that ends at row [t]. *)
Definition trailing (window : Z) (s : list xreal) (t : nat) : list xreal :=
  let lo := Z.to_nat (Z.max 0 (Z.of_nat t + 1 - window)) in
  firstn (S t - lo) (skipn lo s).

(** One rolling aggregate: not-a-number unless the window holds at least
    [min_periods = window] observations that are not not-a-number. *)
Definition rolling_apply (agg : list xreal -> xreal) (window : Z)
           (s : list xreal) : list xreal :=
  map (fun t =>
         let obs := filter (fun v => negb (is_nan v)) (trailing window s t) in
         if Z.of_nat (length obs) <? window then NaN else agg obs)
      (seq 0 (length s)).

Definition obs_mean (obs : list xreal) : xreal :=
  if (length obs =? 0)%nat then NaN
  else xdiv (xsum obs) (xof_Z (Z.of_nat (length obs))).

(** Variance with [ddof] delta degrees of freedom: the sum of the squared
    deviations from the mean over [nobs - ddof].  The sum is an exact real
    here: it neither underflows nor overflows as a sum of doubles does, so
    nothing is concluded from a standard deviation of 0 about the
    deviations themselves ([b64_obs_var] is the same quantity in
    binary64). *)
Definition obs_var (ddof : Z) (obs : list xreal) : xreal :=
  let nobs := Z.of_nat (length obs) in
  if nobs <=? ddof then NaN
  else
    let m := obs_mean obs in
    xdiv (xsum (map (fun v => xmul (xsub v m) (xsub v m)) obs))
         (xof_Z (nobs - ddof)).

(** [r.mean()] *)
Definition mean (r : Rolling) : DataFrame :=
  map_columns (rolling_apply obs_mean (window_size r)) (obj r).

(** [r.std(ddof=ddof)] *)
Definition std (r : Rolling) (ddof : Z) : DataFrame :=
  map_columns
    (rolling_apply (fun obs => xsqrt (obs_var ddof obs)) (window_size r))
    (obj r).

(** Forward fill: a not-a-number entry takes the last earlier value that is
    not one (leading ones stay). *)
Fixpoint ffill_from (last : xreal) (s : list xreal) : list xreal :=
  match s with
  | [] => []
  | v :: s' =>
      let v' := if is_nan v then last else v in
      v' :: ffill_from v' s'
  end.

Definition ffill (s : list xreal) : list xreal := ffill_from NaN s.

(** [s.shift(periods)] for [periods >= 0]. *)
Definition shift (periods : nat) (s : list xreal) : list xreal :=
  firstn (length s) (repeat NaN periods ++ s).

(** [df.pct_change(periods=periods)] with [fill_method] left to its default,
    ['pad'] (the default of pandas before 3.0): the table is forward-filled,
    then [data / data.shift(periods) - 1] is taken. *)
Definition pct_change (df : DataFrame) (periods : nat) : DataFrame :=
  map_columns
    (fun s =>
       let data := ffill s in
       map (fun v => xsub v (Fin 1)) (map2 xdiv data (shift periods data)))
    df.

(** [c + df] and [df * c] for a number [c]. *)
Definition radd (c : Z) (df : DataFrame) : DataFrame :=
  map_columns (map (fun v => xadd (xof_Z c) v)) df.

Definition mul_scalar (df : DataFrame) (c : Z) : DataFrame :=
  map_columns (map (fun v => xmul v (xof_Z c))) df.

(* ===================================================================== *)
(** ** The Metrics Engine *)
(* ===================================================================== *)

(** rrg.py lines 5-19. *)
Definition calculate (benchmark_series : Series) (tickers_df : DataFrame)
           (window : Z) : result (DataFrame * DataFrame) :=
  let rs := div tickers_df benchmark_series in
  r <- rolling rs window ;;
  let rs_mean := mean r in
  r <- rolling rs window ;;
  let rs_std := std r 0 in
  let rs_normalized := radd 100 (binop xdiv (binop xsub rs rs_mean) rs_std) in
  let roc := mul_scalar (pct_change rs_normalized 5) 100 in
  r <- rolling roc window ;;
  let roc_mean := mean r in
  r <- rolling roc window ;;
  let roc_std := std r 0 in
  let rs_momentum := radd 101 (binop xdiv (binop xsub roc roc_mean) roc_std) in
  Ok (rs_normalized, rs_momentum).

(* ===================================================================== *)
(** ** The figure *)
(* ===================================================================== *)

(** An argument of [plot]: a dictionary of tables by frequency label (keys in
    insertion order), or an object of another type. *)
Inductive pyobj : Type :=
| PyDict (d : list (string * DataFrame))
| PyOther.

(** [d[k]]: [KeyError] when the key is missing. *)
Fixpoint dict_get {V : Type} (d : list (string * V)) (k : string) : result V :=
  match d with
  | [] => Raise KeyError
  | (k', v) :: d' => if String.eqb k' k then Ok v else dict_get d' k
  end.

(** [d[k] = v]: an existing key keeps its place, a new one goes last. *)
Fixpoint dict_set {V : Type} (d : list (string * V)) (k : string) (v : V)
  : list (string * V) :=
  match d with
  | [] => [(k, v)]
  | (k', v') :: d' =>
      if String.eqb k' k then (k, v) :: d' else (k', v') :: dict_set d' k v
  end.

(** [[f(a) for a in xs]], where [f] may raise. *)
Definition comprehension {A B : Type} (xs : list A) (f : A -> result B)
  : result (list B) :=
  for_each xs [] (fun acc a => b <- f a ;; Ok (acc ++ [b])).

(** [str(z)] of an integer. *)
Definition str (z : Z) : string :=
  DecimalString.NilZero.string_of_int (Z.to_int z).

(** A step of a slider: a step of the time slider (built by [build_frames])
    or a step of the tail slider. *)
Inductive SliderStep : Type :=
| AnimateStep (s : Step)
| UpdateStep (step_label : string) (step_frames : list Frame)
             (step_data : list Scatter).

Record Slider : Type := mkSlider {
  active : Z;
  step_list : list SliderStep;
  currentvalue_prefix : string;
  slider_x : R;
  slider_y : R;
  slider_len : R;
  slider_xanchor : string;
  slider_yanchor : string
}.

(** A button of an update menu: a frequency button, or Play / Pause (whose
    first argument is [None] or [[None]]). *)
Inductive Button : Type :=
| UpdateButton (button_label : string) (button_frames : list Frame)
               (button_data : list Scatter) (button_sliders : list Slider)
| AnimateButton (button_label : string) (target_in_list : bool)
                (options : AnimateOptions) (fromcurrent : option bool).

Record Menu : Type := mkMenu {
  buttons : list Button;
  direction : string;
  showactive : bool;
  menu_x : R;
  menu_xanchor : string;
  menu_y : R;
  menu_yanchor : string
}.

Record Shape : Type := mkShape {
  shape_type : string;
  shape_x0 : Z;
  shape_y0 : Z;
  shape_x1 : Z;
  shape_y1 : Z;
  fillcolor : option string;
  line_color : option string;
  line_width : Z;
  line_dash : option string
}.

Record Annotation : Type := mkAnnotation {
  ann_x : Z;
  ann_y : Z;
  ann_text : string;
  showarrow : bool;
  arrowhead : Z;
  ann_ax : Z;
  ann_ay : Z;
  font_size : Z;
  font_color : string
}.

Record Layout : Type := mkLayout {
  title : string;
  autosize : bool;
  margin : Z * Z * Z * Z;
  xaxis_range : Z * Z;
  xaxis_title : string;
  yaxis_range : Z * Z;
  yaxis_title : string;
  shapes : list Shape;
  annotations : list Annotation;
  sliders : list Slider;
  updatemenus : list Menu
}.

(** The dictionary handed to [go.Figure]. *)
Record FigDict : Type := mkFigDict {
  fig_data : list Scatter;
  fig_layout : Layout;
  fig_frames : list Frame
}.

(** rrg.py lines 137-143: the time slider of one frequency. *)
Definition time_slider (fsteps : list Step) : Slider :=
  mkSlider (match fsteps with
            | [] => 0
            | _ :: _ => Z.of_nat (length fsteps) - 1
            end)
           (map AnimateStep fsteps) "Time: "
           (1 / 10) (12 / 10) (9 / 10) "left" "bottom".

(** rrg.py lines 130-143: the body of the loop over the frequencies; the
    state is the pair [(freq_frames, time_sliders)]. *)
Definition plot_step (freq_rs freq_rsm : list (string * DataFrame))
           (tail frame : Z)
           (acc : list (string * (list Frame * list Step))
                  * list (string * Slider))
           (freq_key : string)
  : result (list (string * (list Frame * list Step))
            * list (string * Slider)) :=
  let '(freq_frames, time_sliders) := acc in
  rs_data <- dict_get freq_rs freq_key ;;
  rsm_data <- dict_get freq_rsm freq_key ;;
  fs <- build_frames rs_data rsm_data tail frame ;;
  let '(fdata, fsteps) := fs in
  Ok (dict_set freq_frames freq_key (fdata, fsteps),
      dict_set time_sliders freq_key (time_slider fsteps)).

(** [frames[-1]["data"]] *)
Definition last_frame_data (frames : list Frame) : result (list Scatter) :=
  fr <- iloc frames (-1) ;; Ok (data fr).

(** rrg.py lines 163-170; [line_width] is the [line_width] of a rectangle
    and the width of the [line] of a line. *)
Definition quadrant_shapes : list Shape :=
  [mkShape "rect" 94 100 100 106 (Some "rgba(0,0,255,0.2)") None 0 None;
   mkShape "rect" 100 100 106 106 (Some "rgba(0,255,0,0.2)") None 0 None;
   mkShape "rect" 94 94 100 100 (Some "rgba(255,0,0,0.2)") None 0 None;
   mkShape "rect" 100 94 106 100 (Some "rgba(255,255,0,0.2)") None 0 None;
   mkShape "line" 100 94 100 106 None (Some "black") 1 (Some "dash");
   mkShape "line" 94 100 106 100 None (Some "black") 1 (Some "dash")].

(** rrg.py lines 173-178. *)
Definition quadrant_annotations : list Annotation :=
  [mkAnnotation 97 105 "Improving" true 2 0 (-10) 14 "blue";
   mkAnnotation 103 105 "Leading" true 2 0 (-10) 14 "green";
   mkAnnotation 97 95 "Lagging" true 2 0 10 14 "red";
   mkAnnotation 103 95 "Weakening" true 2 0 10 14 "orange"].

(** rrg.py lines 203-237. *)
Definition play_pause_menu : Menu :=
  mkMenu
    [AnimateButton "Play" false (mkAnimateOptions 500 true "next" 500)
                   (Some true);
     AnimateButton "Pause" true (mkAnimateOptions 0 false "immediate" 0) None]
    "left" true (1 / 10) "center" (16 / 10) "top".

(** rrg.py line 146. *)
Definition default_freq : string := "Daily".

(** rrg.py line 148. *)
Definition initial_data_of (default_frames : list Frame)
  : result (list Scatter) :=
  match default_frames with
  | [] => Ok []
  | _ :: _ => last_frame_data default_frames
  end.

(** rrg.py line 158: the step of the tail slider for the value [tval]. *)
Definition tail_step (freq_frames : list (string * (list Frame * list Step)))
           (tval : Z) : result SliderStep :=
  d <- dict_get freq_frames default_freq ;;
  d' <- dict_get freq_frames default_freq ;;
  dat <- last_frame_data (fst d') ;;
  Ok (UpdateStep (str tval) (fst d) dat).

(** rrg.py lines 152-160. *)
Definition tail_slider_of (tail : Z) (tail_steps : list SliderStep) : Slider :=
  mkSlider (if (1 <=? tail) && (tail <=? 10) then tail - 1 else 2)
           tail_steps "Tail: "
           (1 / 10) (1 / 100) (9 / 10) "left" "top".

(** rrg.py lines 194-197: the button of the frequency menu for one key. *)
Definition freq_button (freq_frames : list (string * (list Frame * list Step)))
           (time_sliders : list (string * Slider)) (tail_slider : Slider)
           (freq_key : string) : result Button :=
  d <- dict_get freq_frames freq_key ;;
  d' <- dict_get freq_frames freq_key ;;
  dat <- last_frame_data (fst d') ;;
  ts <- dict_get time_sliders freq_key ;;
  Ok (UpdateButton freq_key (fst d) dat [tail_slider; ts]).

(** rrg.py lines 183-240. *)
Definition layout_of (tail_slider default_slider : Slider)
           (freq_buttons : list Button) : Layout :=
  mkLayout "RRG" true (40, 40, 100, 150)
           (94, 106) "JdK RS Ratio" (94, 106) "JdK RS Momentum"
           quadrant_shapes quadrant_annotations
           [tail_slider; default_slider]
           [mkMenu freq_buttons "down" true (8 / 10) "right" (16 / 10) "top";
            play_pause_menu].

(** rrg.py lines 113-242: the figure dictionary [plot] builds, for
    dictionaries whose keys are strings and whose values are tables.  Lines
    245-246 hand it to the graphics library, which is outside this model. *)
Definition plot (rs_input rsm_input : pyobj) (tail frame : Z)
  : result FigDict :=
  match rs_input, rsm_input with
  | PyDict freq_rs, PyDict freq_rsm =>
      built <- for_each (map fst freq_rs) ([], [])
                        (plot_step freq_rs freq_rsm tail frame) ;;
      let '(freq_frames, time_sliders) := built in
      default <- dict_get freq_frames default_freq ;;
      let '(default_frames, default_steps) := default in
      initial_data <- initial_data_of default_frames ;;
      let initial_frames := default_frames in
      tail_steps <- comprehension (map Z.of_nat (seq 1 10))
                                  (tail_step freq_frames) ;;
      let tail_slider := tail_slider_of tail tail_steps in
      default_slider <- dict_get time_sliders default_freq ;;
      freq_buttons <- comprehension (map fst freq_rs)
                        (freq_button freq_frames time_sliders tail_slider) ;;
      Ok (mkFigDict initial_data
                    (layout_of tail_slider default_slider freq_buttons)
                    initial_frames)
  | _, _ => Raise ValueError
  end.

(* ===================================================================== *)
(** ** Well-formed inputs and the wording of the specification *)
(* ===================================================================== *)

(** Every column of a table has one value per row. *)
Definition rectangular (df : DataFrame) : Prop :=
  Forall (fun c => length (snd c) = length (index df)) (columns df).

(** The ratio and momentum tables handed to the Frame Builder have one shape:
    as many rows, and every ratio column has a momentum column. *)
Definition same_shape (rs_data rsm_data : DataFrame) : Prop :=
  rectangular rs_data /\ rectangular rsm_data
  /\ length (index rsm_data) = length (index rs_data)
  /\ incl (column_labels rs_data) (column_labels rsm_data).

(** The direction rule in the words of the specification. *)
Definition spec_direction (dx dy : xreal) : string :=
  if xgt (xabs dx) (xabs dy) && xgt dx (Fin 0) then "triangle-right"
  else if xgt (xabs dx) (xabs dy) && xle dx (Fin 0) then "triangle-left"
  else if xgt dy (Fin 0) then "triangle-up"
  else "triangle-down".

(** The marker of the last point of a trace follows the direction rule. *)
Definition direction_marked (sc : Scatter) : Prop :=
  ((2 <= length (x sc))%nat ->
   exists x1 x2 y1 y2,
     iloc (x sc) (-1) = Ok x1 /\ iloc (x sc) (-2) = Ok x2 /\
     iloc (y sc) (-1) = Ok y1 /\ iloc (y sc) (-2) = Ok y2 /\
     let dx := xsub x1 x2 in
     let dy := xsub y1 y2 in
     last (symbol (marker sc)) "" = spec_direction dx dy /\
     (xabs dx = xabs dy ->
      last (symbol (marker sc)) "" =
        if xgt dy (Fin 0) then "triangle-up" else "triangle-down"))
  /\ ((length (x sc) < 2)%nat -> last (symbol (marker sc)) "" = "triangle-up").

(** The frame and step the loop body emits for an offset [i] that is not
    skipped, and the offsets of a list that are not skipped. *)
Definition emitted (rs_data rsm_data : DataFrame) (n i : Z)
           (fs : Frame * Step) : Prop :=
  window_frame rs_data rsm_data
    (fst (window_bounds (len rs_data) n i))
    (snd (window_bounds (len rs_data) n i)) = Ok fs.

Definition kept (rs_data : DataFrame) (n : Z) (offsets : list Z) : list Z :=
  filter (fun i => negb (skipped (len rs_data) n i)) offsets.

(** The length of the window of offset [i]: [end - start] of rrg.py line
    60. *)
Definition window_length (L n i : Z) : Z :=
  snd (window_bounds L n i) - fst (window_bounds L n i).

(** Every trace of a frame has [w] points, [w] labels and [w] markers. *)
Definition frame_sized (w : Z) (fr : Frame) : Prop :=
  Forall (fun sc =>
            Z.of_nat (length (x sc)) = w /\ Z.of_nat (length (y sc)) = w
            /\ Z.of_nat (length (text sc)) = w
            /\ Z.of_nat (length (symbol (marker sc))) = w
            /\ Z.of_nat (length (size (marker sc))) = w)
         (data fr).

(** The key of a frame is made of the dates of the first and of the last row
    of the window [start, end_). *)
Definition keyed_by_window (rs_data : DataFrame) (start end_ : Z) (fr : Frame)
  : Prop :=
  exists d0 d1,
    iloc (index rs_data) start = Ok d0
    /\ iloc (index rs_data) (end_ - 1) = Ok d1
    /\ frame_name fr = (strftime_Ymd d0 ++ " - " ++ strftime_Ymd d1)%string.

(** The calendar date of a timestamp, and the range of a [Timestamp]. *)
Definition calendar_date (ts : Timestamp) : Z * Z * Z :=
  (year ts, month ts, day ts).

Definition valid_timestamp (ts : Timestamp) : Prop :=
  1677 <= year ts <= 2262 /\ 1 <= month ts <= 12 /\ 1 <= day ts <= 31.

(** Window [a] lies earlier than window [b]. *)
Definition older (a b : Z * Z) : Prop := fst a <= fst b /\ snd a < snd b.

(** The formulas of the Metrics Engine in the words of the specification,
    over a series given as a function of the row number. *)


(** The trailing [window] observations that end at row [t], this row
    included. *)
Definition spec_window (window : Z) (f : nat -> xreal) (t : nat)
  : list xreal :=
  map f (seq (S t - Z.to_nat window) (Z.to_nat window)).

(** Rolling mean: absent on the first [window - 1] rows. *)
Definition spec_rolling_mean (window : Z) (f : nat -> xreal) (t : nat)
  : xreal :=
  if Z.of_nat t <? window - 1 then NaN
  else xdiv (xsum (spec_window window f t)) (xof_Z window).

(** Rolling population standard deviation: the denominator is the window
    size. *)
Definition spec_rolling_std (window : Z) (f : nat -> xreal) (t : nat)
  : xreal :=
  if Z.of_nat t <? window - 1 then NaN
  else
    let m := spec_rolling_mean window f t in
    xsqrt (xdiv (xsum (map (fun v => xmul (xsub v m) (xsub v m))
                           (spec_window window f t)))
                (xof_Z window)).

(** [base + (f[t] - rollingMean[t]) / rollingStd[t]] *)
Definition spec_normalized (base window : Z) (f : nat -> xreal) (t : nat)
  : xreal :=
  xadd (xof_Z base)
       (xdiv (xsub (f t) (spec_rolling_mean window f t))
             (spec_rolling_std window f t)).

(** [roc[t] = (ratio[t] / ratio[t-5] - 1) * 100], absent on the first five
    rows. *)
Definition spec_roc (ratio : nat -> xreal) (t : nat) : xreal :=
  if (t <? 5)%nat then NaN
  else xmul (xsub (xdiv (ratio t) (ratio (t - 5)%nat)) (Fin 1)) (xof_Z 100).

(** The last value at or before row [t] that is not not-a-number. *)
Fixpoint padded (f : nat -> xreal) (t : nat) : xreal :=
  match t with
  | O => f O
  | S t' => if is_nan (f t) then padded f t' else f t
  end.

(** The value of row [t] of a column. *)
Definition at_row (s : list xreal) (t : nat) : xreal := nth t s NaN.

(** [calculate] read column by column: what lines 13-15 (and 18) do to one
    column, and what line 17 does to one column. *)
Definition normalize_column (base window : Z) (s : list xreal) : list xreal :=
  map (fun v => xadd (xof_Z base) v)
      (map2 xdiv (map2 xsub s (rolling_apply obs_mean window s))
                 (rolling_apply (fun obs => xsqrt (obs_var 0 obs)) window s)).

Definition roc_column (s : list xreal) : list xreal :=
  map (fun v => xmul v (xof_Z 100))
      (map (fun v => xsub v (Fin 1))
           (map2 xdiv (ffill s) (shift 5 (ffill s)))).











(** The first [k] rows of a table and of a series ([df.iloc[:k]]): what was
    known at row [k - 1]. *)
Definition first_rows (k : nat) (df : DataFrame) : DataFrame :=
  mkDataFrame (firstn k (index df))
              (map (fun c => (fst c, firstn k (snd c))) (columns df)).

Definition first_values (k : nat) (s : Series) : Series :=
  mkSeries (firstn k (s_index s)) (firstn k (s_values s)).

(** Every entry of every column is not-a-number. *)
Definition all_nan (df : DataFrame) : Prop :=
  Forall (fun c => forall t, at_row (snd c) t = NaN) (columns df).

(** rrg.py lines 131-133: the frames and steps the loop of [plot] builds for
    one frequency. *)
Definition frames_for (freq_rs freq_rsm : list (string * DataFrame))
           (tail frame : Z) (freq_key : string)
  : result (list Frame * list Step) :=
  rs_data <- dict_get freq_rs freq_key ;;
  rsm_data <- dict_get freq_rsm freq_key ;;
  build_frames rs_data rsm_data tail frame.

(** What [freq_frames] and [time_sliders] hold while [plot] runs: under a
    key, the frames and steps built for that key and the time slider made of
    those steps. *)
Definition stored (freq_rs freq_rsm : list (string * DataFrame))
           (tail frame : Z)
           (freq_frames : list (string * (list Frame * list Step)))
           (time_sliders : list (string * Slider)) : Prop :=
  forall k d,
    dict_get freq_frames k = Ok d ->
    frames_for freq_rs freq_rsm tail frame k = Ok d
    /\ dict_get time_sliders k = Ok (time_slider (snd d)).

(** Every frequency of the ratio dictionary has a momentum table of the same
    shape. *)
Definition frequencies_ready (freq_rs freq_rsm : list (string * DataFrame))
  : Prop :=
  forall k rs_data,
    dict_get freq_rs k = Ok rs_data ->
    exists rsm_data,
      dict_get freq_rsm k = Ok rsm_data /\ same_shape rs_data rsm_data.

(** Small tables used as concrete inputs. *)
Definition jan (d : Z) : Timestamp := mkTimestamp 2024 1 d 0.

Definition empty_table : DataFrame := mkDataFrame [] [("A", [])].

Definition five_rows : DataFrame :=
  mkDataFrame [jan 1; jan 2; jan 3; jan 4; jan 5]
              [("A", [Fin 1; Fin 2; Fin 3; Fin 4; Fin 5])].

Definition two_rows : DataFrame :=
  mkDataFrame [jan 1; jan 2] [("A", [Fin 0; Fin 2])].

Definition two_rows_momentum : DataFrame :=
  mkDataFrame [jan 1; jan 2] [("A", [Fin 0; Fin 1])].

Definition one_row : DataFrame :=
  mkDataFrame [jan 1] [("A", [Fin 1]); ("B", [Fin 2])].

(** Eight days of prices; the benchmark has no quote on the third day. *)
Definition eight_days : list Timestamp :=
  [jan 1; jan 2; jan 3; jan 4; jan 5; jan 6; jan 7; jan 8].

Definition benchmark_gap : Series :=
  mkSeries eight_days
           [Fin 1; Fin 1; NaN; Fin 1; Fin 1; Fin 1; Fin 1; Fin 1].

Definition eight_prices : DataFrame :=
  mkDataFrame eight_days
              [("A", [Fin 1; Fin 3; Fin 3; Fin 1; Fin 3; Fin 1; Fin 3; Fin 1])].


Definition benchmark_late : Series := mkSeries [jan 2; jan 3] [Fin 1; Fin 1].

(** An instrument that is the benchmark itself. *)
Definition benchmark_three : Series :=
  mkSeries [jan 1; jan 2; jan 3] [Fin 2; Fin 4; Fin 5].

Definition copy_of_benchmark : DataFrame :=
  mkDataFrame [jan 1; jan 2; jan 3] [("A", [Fin 2; Fin 4; Fin 5])].

(** An instrument that is the benchmark itself, with a missing quote and a
    zero quote. *)
Definition benchmark_holes : Series :=
  mkSeries [jan 1; jan 2; jan 3] [Fin 2; NaN; Fin 0].

Definition same_as_benchmark : DataFrame :=
  mkDataFrame [jan 1; jan 2; jan 3] [("A", [Fin 2; NaN; Fin 0])].

(** Two observations of the same day, an hour apart. *)
Definition intraday : DataFrame :=
  mkDataFrame [mkTimestamp 2024 1 1 0; mkTimestamp 2024 1 1 3600000000000]
              [("A", [Fin 1; Fin 2])].

(** Dictionaries of tables by frequency. *)
Definition three_frequencies : list (string * DataFrame) :=
  [("Daily", five_rows); ("Weekly", two_rows); ("Monthly", one_row)].

Definition three_momentum : list (string * DataFrame) :=
  [("Monthly", one_row); ("Weekly", two_rows_momentum); ("Daily", five_rows)].

Definition weekly_only : list (string * DataFrame) := [("Weekly", two_rows)].

Definition short_frequencies : list (string * DataFrame) :=
  [("Daily", one_row); ("Weekly", empty_table)].

(* ===================================================================== *)
(** ** Loops, slices and positions *)
(* ===================================================================== *)

Lemma for_each_append_inv (A B : Type) (trace : A -> result B) :
  forall xs acc r,
    for_each xs acc (fun acc t => s <- trace t ;; Ok (acc ++ [s])) = Ok r ->
    exists l, r = acc ++ l /\ Forall2 (fun t s => trace t = Ok s) xs l.
Proof.
  induction xs as [|a xs IH]; intros acc r H; simpl in H.
  - inversion H; subst. exists []. rewrite app_nil_r. split; constructor.
  - destruct (trace a) as [s|e] eqn:Ha; simpl in H; [|discriminate].
    apply IH in H. destruct H as (l & -> & Hl).
    exists (s :: l). rewrite <- app_assoc. split; [reflexivity|].
    constructor; assumption.
Qed.

Lemma for_each_append_total (A B : Type) (trace : A -> result B) :
  forall xs acc l,
    Forall2 (fun t s => trace t = Ok s) xs l ->
    for_each xs acc (fun acc t => s <- trace t ;; Ok (acc ++ [s]))
    = Ok (acc ++ l).
Proof.
  induction xs as [|a xs IH]; intros acc l H; inversion H; subst; simpl.
  - now rewrite app_nil_r.
  - rewrite H2. simpl. rewrite (IH _ _ H4), <- app_assoc. reflexivity.
Qed.

Lemma traces_inv (ts : list string) (trace : string -> result Scatter) l :
  traces ts trace = Ok l -> Forall2 (fun t s => trace t = Ok s) ts l.
Proof.
  intros H. apply for_each_append_inv in H. now destruct H as (l' & -> & Hl).
Qed.

Lemma traces_total (ts : list string) (trace : string -> result Scatter) l :
  Forall2 (fun t s => trace t = Ok s) ts l -> traces ts trace = Ok l.
Proof.
  intros H. unfold traces. now rewrite (for_each_append_total _ _ _ _ [] _ H).
Qed.

Lemma slice_inside (A : Type) (l : list A) (s e : Z) :
  0 <= s <= e -> e <= Z.of_nat (length l) ->
  slice s e l = firstn (Z.to_nat (e - s)) (skipn (Z.to_nat s) l).
Proof.
  intros Hs He. unfold slice, slice_bound.
  destruct (Z.ltb_spec s 0); [lia|]. destruct (Z.ltb_spec e 0); [lia|].
  rewrite !Z.min_l by lia. reflexivity.
Qed.

Lemma slice_length (A : Type) (l : list A) (s e : Z) :
  0 <= s <= e -> e <= Z.of_nat (length l) ->
  length (slice s e l) = Z.to_nat (e - s).
Proof.
  intros Hs He. rewrite slice_inside by assumption.
  rewrite length_firstn, length_skipn. lia.
Qed.

Lemma iloc_inside (A : Type) (l : list A) (k : Z) :
  0 <= k < Z.of_nat (length l) ->
  exists a, iloc l k = Ok a /\ nth_error l (Z.to_nat k) = Some a.
Proof.
  intros Hk. unfold iloc.
  destruct (Z.ltb_spec k 0); [lia|].
  destruct (Z.ltb_spec k 0); [lia|].
  destruct (Z.leb_spec (Z.of_nat (length l)) k); [lia|]. simpl.
  destruct (nth_error l (Z.to_nat k)) as [a|] eqn:E.
  - now exists a.
  - apply nth_error_None in E. lia.
Qed.

Lemma iloc_from_end (A : Type) (l : list A) (k : Z) :
  0 < k <= Z.of_nat (length l) ->
  exists a, iloc l (- k) = Ok a
            /\ nth_error l (length l - Z.to_nat k) = Some a.
Proof.
  intros Hk. unfold iloc.
  destruct (Z.ltb_spec (- k) 0); [|lia].
  destruct (Z.ltb_spec (Z.of_nat (length l) + - k) 0); [lia|].
  destruct (Z.leb_spec (Z.of_nat (length l)) (Z.of_nat (length l) + - k)); [lia|].
  simpl.
  replace (Z.to_nat (Z.of_nat (length l) + - k))
    with (length l - Z.to_nat k)%nat by lia.
  destruct (nth_error l (length l - Z.to_nat k)) as [a|] eqn:E.
  - now exists a.
  - apply nth_error_None in E. lia.
Qed.

Lemma window_bounds_closed (L n i : Z) :
  window_bounds L n i = (Z.max 0 (L - n - i), Z.min L (L - n - i + n)).
Proof.
  unfold window_bounds.
  destruct (Z.ltb_spec (L - n - i) 0);
    destruct (Z.gtb_spec (L - n - i + n) L); f_equal; lia.
Qed.

Lemma skipped_spec (L n i : Z) :
  skipped L n i = true <->
  Z.min L (L - n - i + n) - Z.max 0 (L - n - i) < 1.
Proof.
  unfold skipped. rewrite window_bounds_closed. apply Z.ltb_lt.
Qed.

Lemma length_range_down (tf : Z) :
  length (range_down tf) = Z.to_nat (tf + 1).
Proof. unfold range_down. now rewrite length_map, length_seq. Qed.

Lemma in_range_down (tf i : Z) : In i (range_down tf) <-> 0 <= i <= tf.
Proof.
  unfold range_down. rewrite in_map_iff. split.
  - intros (k & <- & Hk). apply in_seq in Hk. lia.
  - intros Hi. exists (Z.to_nat (tf - i)). split; [lia|]. apply in_seq. lia.
Qed.

(* ===================================================================== *)
(** ** The loop over the window offsets *)
(* ===================================================================== *)

Section FrameLoop.

Variables rs_data rsm_data : DataFrame.
Variable n : Z.

Lemma for_each_cons (A S : Type) (a : A) xs (s : S) body :
  for_each (a :: xs) s body = s' <- body s a ;; for_each xs s' body.
Proof. reflexivity. Qed.

Lemma frame_step_eq (F : list Frame) (S : list Step) (i : Z) :
  frame_step rs_data rsm_data n (F, S) i =
  if skipped (len rs_data) n i then Ok (F, S)
  else
    fs <- window_frame rs_data rsm_data
            (fst (window_bounds (len rs_data) n i))
            (snd (window_bounds (len rs_data) n i)) ;;
    Ok (F ++ [fst fs], S ++ [snd fs]).
Proof.
  unfold frame_step. now destruct (window_bounds (len rs_data) n i).
Qed.

Lemma frame_loop_inv :
  forall offsets F S F' S',
    for_each offsets (F, S) (frame_step rs_data rsm_data n) = Ok (F', S') ->
    exists new,
      F' = F ++ map fst new /\ S' = S ++ map snd new
      /\ Forall2 (emitted rs_data rsm_data n) (kept rs_data n offsets) new.
Proof.
  induction offsets as [|i offsets IH]; intros F S F' S' H.
  - inversion H; subst. exists []. simpl. rewrite !app_nil_r.
    repeat split. constructor.
  - rewrite for_each_cons, frame_step_eq in H. unfold kept. simpl filter.
    destruct (skipped (len rs_data) n i) eqn:Hs; simpl negb; cbv iota.
    + apply IH in H. exact H.
    + destruct (window_frame rs_data rsm_data _ _) as [fs|err] eqn:Hf;
        [|discriminate H].
      apply IH in H. destruct H as (new & -> & -> & Hnew).
      exists (fs :: new). simpl map. rewrite <- !app_assoc.
      repeat split. constructor; assumption.
Qed.

Lemma frame_loop_total :
  forall offsets new F S,
    Forall2 (emitted rs_data rsm_data n) (kept rs_data n offsets) new ->
    for_each offsets (F, S) (frame_step rs_data rsm_data n)
    = Ok (F ++ map fst new, S ++ map snd new).
Proof.
  induction offsets as [|i offsets IH]; intros new F S H.
  - inversion H; subst. simpl. now rewrite !app_nil_r.
  - rewrite for_each_cons, frame_step_eq.
    unfold kept in H. simpl filter in H.
    destruct (skipped (len rs_data) n i) eqn:Hs; simpl negb in H;
      cbv iota in H.
    + now apply IH.
    + inversion H as [|i' fs k' new' Hfs Hrest]; subst.
      unfold emitted in Hfs. rewrite Hfs. simpl bind.
      rewrite (IH _ _ _ Hrest). simpl map. rewrite <- !app_assoc.
      reflexivity.
Qed.

End FrameLoop.

(* ===================================================================== *)
(** ** Comparisons of floating-point values *)
(* ===================================================================== *)

Lemma xgt_irrefl (a : xreal) : xgt a a = false.
Proof.
  destruct a; simpl; try reflexivity.
  destruct (Rlt_dec r r) as [H|H]; [exfalso; lra | reflexivity].
Qed.

(** When [|dx| > |dy|] holds, [dx] is a number: it is positive or [<= 0]. *)
Lemma xgt_abs_le_zero (dx dy : xreal) :
  xgt (xabs dx) (xabs dy) = true -> xgt dx (Fin 0) = false ->
  xle dx (Fin 0) = true.
Proof.
  destruct dx as [r| | |]; simpl; intros Habs Hgt.
  - destruct (Rlt_dec 0 r) as [H|H]; [discriminate|].
    destruct (Rle_dec r 0) as [H'|H']; [reflexivity | exfalso; lra].
  - discriminate.
  - reflexivity.
  - discriminate.
Qed.

(** The branches of rrg.py lines 77-80 are the direction rule. *)
Lemma branches_are_direction (dx dy : xreal) :
  (if xgt (xabs dx) (xabs dy)
   then (if xgt dx (Fin 0) then "triangle-right" else "triangle-left")
   else (if xgt dy (Fin 0) then "triangle-up" else "triangle-down"))
  = spec_direction dx dy.
Proof.
  unfold spec_direction.
  destruct (xgt (xabs dx) (xabs dy)) eqn:Habs; simpl; [|reflexivity].
  destruct (xgt dx (Fin 0)) eqn:Hgt; [reflexivity|].
  now rewrite (xgt_abs_le_zero _ _ Habs Hgt).
Qed.

Lemma tie_is_vertical (dx dy : xreal) :
  xabs dx = xabs dy ->
  spec_direction dx dy =
    if xgt dy (Fin 0) then "triangle-up" else "triangle-down".
Proof.
  intros H. unfold spec_direction. rewrite H, xgt_irrefl. reflexivity.
Qed.

(* ===================================================================== *)
(** ** Traces *)
(* ===================================================================== *)

Lemma getitem_in (df : DataFrame) (t : string) (xs : list xreal) :
  getitem df t = Ok xs -> In (t, xs) (columns df).
Proof.
  unfold getitem. destruct (find _ (columns df)) as [c|] eqn:E; [|discriminate].
  intros H; inversion H; subst. apply find_some in E. destruct E as [Hin He].
  apply String.eqb_eq in He. subst. now destruct c.
Qed.

Lemma getitem_length (df : DataFrame) (t : string) (xs : list xreal) :
  rectangular df -> getitem df t = Ok xs -> length xs = length (index df).
Proof.
  intros Hr H. apply getitem_in in H. unfold rectangular in Hr.
  rewrite Forall_forall in Hr. exact (Hr _ H).
Qed.

Lemma getitem_label (df : DataFrame) (t : string) :
  In t (column_labels df) -> exists xs, getitem df t = Ok xs.
Proof.
  unfold column_labels, getitem. intros H. apply in_map_iff in H.
  destruct H as (c & <- & Hc).
  destruct (find (fun c0 => (fst c0 =? fst c)%string) (columns df)) as [c'|] eqn:E.
  - now exists (snd c').
  - exfalso. apply (find_none _ _ E) in Hc. simpl in Hc.
    now rewrite String.eqb_refl in Hc.
Qed.

Lemma arrow_symbol_spec (xs ys : list xreal) (a : string) :
  arrow_symbol xs ys = Ok a ->
  ((2 <= length xs)%nat ->
   exists x1 x2 y1 y2,
     iloc xs (-1) = Ok x1 /\ iloc xs (-2) = Ok x2 /\
     iloc ys (-1) = Ok y1 /\ iloc ys (-2) = Ok y2 /\
     a = spec_direction (xsub x1 x2) (xsub y1 y2))
  /\ ((length xs < 2)%nat -> a = "triangle-up").
Proof.
  unfold arrow_symbol. intros H.
  destruct (Nat.ltb_spec 1 (length xs)) as [Hlen|Hlen].
  - split; [intros _ | lia].
    destruct (iloc xs (-1)) as [x1|] eqn:E1; [|discriminate].
    destruct (iloc xs (-2)) as [x2|] eqn:E2; [|discriminate].
    destruct (iloc ys (-1)) as [y1|] eqn:E3; [|discriminate].
    destruct (iloc ys (-2)) as [y2|] eqn:E4; [|discriminate].
    cbn [bind] in H. exists x1, x2, y1, y2. repeat split.
    rewrite <- branches_are_direction.
    destruct (xgt (xabs (xsub x1 x2)) (xabs (xsub y1 y2)));
      now inversion H.
  - split; [lia | intros _]. now inversion H.
Qed.

Lemma arrow_symbol_total (xs ys : list xreal) :
  length ys = length xs -> exists a, arrow_symbol xs ys = Ok a.
Proof.
  intros Hy. unfold arrow_symbol.
  destruct (Nat.ltb_spec 1 (length xs)) as [Hlen|Hlen]; [|eauto].
  destruct (iloc_from_end _ xs 1) as (x1 & E1 & _); [lia|].
  destruct (iloc_from_end _ xs 2) as (x2 & E2 & _); [lia|].
  destruct (iloc_from_end _ ys 1) as (y1 & E3 & _); [lia|].
  destruct (iloc_from_end _ ys 2) as (y2 & E4 & _); [lia|].
  simpl Z.opp in *. rewrite E1, E2, E3, E4. cbn [bind].
  destruct (xgt (xabs (xsub x1 x2)) (xabs (xsub y1 y2))); eauto.
Qed.

Lemma window_trace_inv rs_data rsm_data (s e : Z) (t : string) (sc : Scatter) :
  window_trace rs_data rsm_data s e t = Ok sc ->
  exists xs ys arrow,
    getitem rs_data t = Ok xs /\ getitem rsm_data t = Ok ys
    /\ arrow_symbol (slice s e xs) (slice s e ys) = Ok arrow
    /\ sc = mkScatter (slice s e xs) (slice s e ys) "lines+markers+text" t
              (label_text (length (slice s e xs)) t) "middle right" false
              (mkMarker
                 (repeat "circle" (length (slice s e xs) - 1) ++ [arrow])
                 (repeat 8 (length (slice s e xs) - 1) ++ [14]) 1).
Proof.
  unfold window_trace. intros H.
  destruct (getitem rs_data t) as [xs|] eqn:Ex; [|discriminate].
  destruct (getitem rsm_data t) as [ys|] eqn:Ey; [|discriminate].
  cbn [bind] in H.
  destruct (arrow_symbol (slice s e xs) (slice s e ys)) as [a|] eqn:Ea;
    [|discriminate].
  cbn [bind] in H. inversion H; subst. exists xs, ys, a. repeat split; auto.
Qed.

Lemma single_trace_inv rs_data rsm_data (t : string) (sc : Scatter) :
  single_trace rs_data rsm_data t = Ok sc ->
  exists xs ys,
    getitem rs_data t = Ok xs /\ getitem rsm_data t = Ok ys
    /\ sc = mkScatter xs ys "lines+markers+text" t
              (label_text (length xs) t) "middle right" false
              (mkMarker ["triangle-up"] [14] 1).
Proof.
  unfold single_trace. intros H.
  destruct (getitem rs_data t) as [xs|] eqn:Ex; [|discriminate].
  destruct (getitem rsm_data t) as [ys|] eqn:Ey; [|discriminate].
  cbn [bind] in H. inversion H; subst. exists xs, ys. repeat split; auto.
Qed.

Lemma window_frame_inv rs_data rsm_data (s e : Z) (fs : Frame * Step) :
  window_frame rs_data rsm_data s e = Ok fs ->
  exists d0 d1 frame_data,
    iloc (index rs_data) s = Ok d0 /\ iloc (index rs_data) (e - 1) = Ok d1
    /\ Forall2 (fun t sc => window_trace rs_data rsm_data s e t = Ok sc)
               (column_labels rs_data) frame_data
    /\ let key := (strftime_Ymd d0 ++ " - " ++ strftime_Ymd d1)%string in
       fs = (mkFrame frame_data key,
             mkStep [key] (Some instant) key "animate").
Proof.
  unfold window_frame. intros H.
  destruct (iloc (index rs_data) s) as [d0|] eqn:E0; [|discriminate].
  destruct (iloc (index rs_data) (e - 1)) as [d1|] eqn:E1; [|discriminate].
  cbn [bind] in H.
  destruct (traces _ _) as [fd|] eqn:Et; [|discriminate].
  cbn [bind] in H. inversion H; subst. apply traces_inv in Et.
  exists d0, d1, fd. repeat split; assumption.
Qed.

Lemma Forall2_total (A B : Type) (P : A -> B -> Prop) (xs : list A) :
  (forall a, In a xs -> exists b, P a b) -> exists l, Forall2 P xs l.
Proof.
  induction xs as [|a xs IH]; intros H.
  - exists []. constructor.
  - destruct (H a (or_introl eq_refl)) as [b Hb].
    destruct IH as [l Hl]; [intros; apply H; now right|].
    exists (b :: l). now constructor.
Qed.

Lemma window_trace_total rs_data rsm_data (s e : Z) (t : string) :
  same_shape rs_data rsm_data ->
  0 <= s <= e -> e <= len rs_data -> In t (column_labels rs_data) ->
  exists sc, window_trace rs_data rsm_data s e t = Ok sc.
Proof.
  intros (Hr & Hrm & Hlen & Hincl) Hs He Ht. unfold window_trace, len in *.
  destruct (getitem_label _ _ Ht) as [xs Hx].
  destruct (getitem_label _ _ (Hincl _ Ht)) as [ys Hy].
  rewrite Hx, Hy. cbn [bind].
  pose proof (getitem_length _ _ _ Hr Hx) as Lx.
  pose proof (getitem_length _ _ _ Hrm Hy) as Ly.
  destruct (arrow_symbol_total (slice s e xs) (slice s e ys)) as [a Ha].
  { rewrite !slice_length; lia. }
  rewrite Ha. cbn [bind]. eauto.
Qed.

Lemma window_frame_total rs_data rsm_data (s e : Z) :
  same_shape rs_data rsm_data -> 0 <= s < e -> e <= len rs_data ->
  exists fs, window_frame rs_data rsm_data s e = Ok fs.
Proof.
  intros Hshape Hs He. unfold window_frame.
  destruct (iloc_inside _ (index rs_data) s) as (d0 & -> & _);
    [unfold len in He; lia|].
  destruct (iloc_inside _ (index rs_data) (e - 1)) as (d1 & -> & _);
    [unfold len in He; lia|].
  cbn [bind].
  destruct (Forall2_total _ _
              (fun t sc => window_trace rs_data rsm_data s e t = Ok sc)
              (column_labels rs_data)) as [fd Hfd].
  { intros t Ht. apply window_trace_total; auto; lia. }
  rewrite (traces_total _ _ _ Hfd). cbn [bind]. eauto.
Qed.

Lemma kept_window (L n i : Z) :
  skipped L n i = false ->
  0 <= fst (window_bounds L n i) < snd (window_bounds L n i)
  /\ snd (window_bounds L n i) <= L.
Proof.
  unfold skipped. rewrite window_bounds_closed. cbn [fst snd].
  intros H. apply Z.ltb_ge in H. lia.
Qed.

Lemma in_kept rs_data (n : Z) (offsets : list Z) (i : Z) :
  In i (kept rs_data n offsets) <->
  In i offsets /\ skipped (len rs_data) n i = false.
Proof.
  unfold kept. rewrite filter_In, negb_true_iff. reflexivity.
Qed.

(** The general case emits, in the order of the loop, the frame and the step
    of every offset that is not skipped. *)
Lemma build_frames_general_inv rs_data rsm_data n total_frames frames steps :
  2 <= len rs_data ->
  build_frames rs_data rsm_data n total_frames = Ok (frames, steps) ->
  exists new,
    frames = map fst new /\ steps = map snd new
    /\ Forall2 (emitted rs_data rsm_data n)
               (kept rs_data n (range_down total_frames)) new.
Proof.
  intros HL H. unfold build_frames in H.
  destruct (Z.ltb_spec (len rs_data) 2); [lia|].
  apply frame_loop_inv in H. exact H.
Qed.

Lemma build_frames_general rs_data rsm_data n total_frames :
  2 <= len rs_data -> same_shape rs_data rsm_data ->
  exists new,
    build_frames rs_data rsm_data n total_frames
    = Ok (map fst new, map snd new)
    /\ Forall2 (emitted rs_data rsm_data n)
               (kept rs_data n (range_down total_frames)) new.
Proof.
  intros HL Hshape. unfold build_frames.
  destruct (Z.ltb_spec (len rs_data) 2); [lia|].
  destruct (Forall2_total _ _ (emitted rs_data rsm_data n)
              (kept rs_data n (range_down total_frames))) as [new Hnew].
  { intros i Hi. apply in_kept in Hi. destruct Hi as [_ Hk].
    apply kept_window in Hk. apply window_frame_total; tauto. }
  exists new. split; [|assumption].
  now rewrite (frame_loop_total _ _ _ _ _ [] [] Hnew).
Qed.

(** The degenerate case emits the single frame and its step. *)
Lemma build_frames_single_inv rs_data rsm_data n total_frames frames steps :
  len rs_data < 2 ->
  build_frames rs_data rsm_data n total_frames = Ok (frames, steps) ->
  exists single_data,
    Forall2 (fun t sc => single_trace rs_data rsm_data t = Ok sc)
            (column_labels rs_data) single_data
    /\ frames = [mkFrame single_data "SingleFrame"]
    /\ steps = [mkStep ["SingleFrame"] None "SingleFrame" "animate"].
Proof.
  intros HL H. unfold build_frames in H.
  destruct (Z.ltb_spec (len rs_data) 2); [|lia].
  destruct (traces _ _) as [sd|] eqn:Et; [|discriminate].
  cbn [bind] in H. inversion H; subst. apply traces_inv in Et. eauto.
Qed.

Lemma build_frames_single rs_data rsm_data n total_frames :
  len rs_data < 2 ->
  incl (column_labels rs_data) (column_labels rsm_data) ->
  exists single_data,
    Forall2 (fun t sc => single_trace rs_data rsm_data t = Ok sc)
            (column_labels rs_data) single_data
    /\ build_frames rs_data rsm_data n total_frames
       = Ok ([mkFrame single_data "SingleFrame"],
             [mkStep ["SingleFrame"] None "SingleFrame" "animate"]).
Proof.
  intros HL Hincl. unfold build_frames.
  destruct (Z.ltb_spec (len rs_data) 2); [|lia].
  destruct (Forall2_total _ _
              (fun t sc => single_trace rs_data rsm_data t = Ok sc)
              (column_labels rs_data)) as [sd Hsd].
  { intros t Ht. unfold single_trace.
    destruct (getitem_label _ _ Ht) as [xs ->].
    destruct (getitem_label _ _ (Hincl _ Ht)) as [ys ->].
    cbn [bind]. eauto. }
  exists sd. split; [assumption|].
  now rewrite (traces_total _ _ _ Hsd).
Qed.

Lemma combine_fst_snd (A B : Type) (l : list (A * B)) :
  combine (map fst l) (map snd l) = l.
Proof.
  induction l as [|[a b] l IH]; simpl; [reflexivity | now rewrite IH].
Qed.

Lemma same_shape_two_rows : same_shape two_rows two_rows_momentum.
Proof.
  unfold same_shape, rectangular.
  repeat apply conj; try apply incl_refl; repeat constructor.
Qed.

Lemma same_shape_five_rows : same_shape five_rows five_rows.
Proof.
  unfold same_shape, rectangular.
  repeat apply conj; try apply incl_refl; repeat constructor.
Qed.

Lemma same_shape_one_row : same_shape one_row one_row.
Proof.
  unfold same_shape, rectangular.
  repeat apply conj; try apply incl_refl; repeat constructor.
Qed.

Lemma same_shape_intraday : same_shape intraday intraday.
Proof.
  unfold same_shape, rectangular.
  repeat apply conj; try apply incl_refl; repeat constructor.
Qed.

Lemma same_shape_empty : same_shape empty_table empty_table.
Proof.
  unfold same_shape, rectangular.
  repeat apply conj; try apply incl_refl; repeat constructor.
Qed.

(* ===================================================================== *)
(** ** Window bounds (claim C1) *)
(* ===================================================================== *)

(** C1, as stated, fails: the end of the window is taken from the start
    before it is clamped.  Five rows, tail 3, offset 4: the builder's window
    is [0, 1) and the first frame holds one point, where
    [min(len, start + tail)] on the clamped start is 3. *)
Lemma window_end_not_from_clamped_start :
  window_bounds 5 3 4 = (0, 1)
  /\ Z.max 0 (5 - 3 - 4) = 0 /\ Z.min 5 (0 + 3) = 3
  /\ exists fr frames steps,
       build_frames five_rows five_rows 3 4 = Ok (fr :: frames, steps)
       /\ frame_name fr = "2024-01-01 - 2024-01-01"
       /\ map (fun sc => x sc) (data fr) = [[Fin 1]].
Proof.
  split; [reflexivity|]. split; [reflexivity|]. split; [reflexivity|].
  destruct (build_frames_general five_rows five_rows 3 4)
    as (new & Hrun & Hnew).
  { vm_compute. discriminate. }
  { exact same_shape_five_rows. }
  change (kept five_rows 3 (range_down 4)) with [4; 3; 2; 1; 0] in Hnew.
  inversion Hnew as [|i fs offs new' Hfs Hrest]; subst.
  unfold emitted in Hfs.
  change (window_frame five_rows five_rows 0 1 = Ok fs) in Hfs.
  vm_compute in Hfs. inversion Hfs; subst. clear Hfs.
  eexists _, _, _. split; [exact Hrun|]. split; reflexivity.
Qed.

(** C1 (amended): in the general case the window of offset [i] is
    [start = max(0, len - tail - i)] and
    [end = min(len, (len - tail - i) + tail)], the end being taken from the
    start before clamping; an offset is skipped exactly when
    [end - start < 1]; and the builder emits, in the order
    [frameCount, ..., 0], one frame and one step for the window of every
    offset that is not skipped. *)
Theorem window_bounds_and_skip
        (rs_data rsm_data : DataFrame) (tail_points total_frames : Z) :
  2 <= len rs_data -> same_shape rs_data rsm_data ->
  let L := len rs_data in
  let start i := Z.max 0 (L - tail_points - i) in
  let end_ i := Z.min L (L - tail_points - i + tail_points) in
  (forall i, window_bounds L tail_points i = (start i, end_ i))
  /\ (forall i, skipped L tail_points i = true <-> end_ i - start i < 1)
  /\ exists frames steps,
       build_frames rs_data rsm_data tail_points total_frames
       = Ok (frames, steps)
       /\ length steps = length frames
       /\ Forall2
            (fun i fs =>
               window_frame rs_data rsm_data (start i) (end_ i) = Ok fs)
            (filter (fun i => negb (end_ i - start i <? 1))
                    (range_down total_frames))
            (combine frames steps).
Proof.
  intros HL Hshape L start end_.
  split; [intros i; apply window_bounds_closed|].
  split; [intros i; apply skipped_spec|].
  destruct (build_frames_general rs_data rsm_data tail_points total_frames
              HL Hshape) as (new & Hrun & Hnew).
  exists (map fst new), (map snd new).
  split; [exact Hrun|]. split; [now rewrite !length_map|].
  rewrite combine_fst_snd.
  unfold kept, emitted, skipped in Hnew.
  erewrite filter_ext in Hnew.
  2:{ intros i. rewrite window_bounds_closed. reflexivity. }
  eapply Forall2_impl; [|exact Hnew].
  intros i fs Hfs. cbv beta in Hfs.
  now rewrite window_bounds_closed in Hfs.
Qed.

Lemma window_bounds_and_skip_witness :
  exists frames steps,
    build_frames two_rows two_rows_momentum 1 3 = Ok (frames, steps)
    /\ length steps = length frames.
Proof.
  destruct (window_bounds_and_skip two_rows two_rows_momentum 1 3)
    as (_ & _ & frames & steps & Hrun & Hlen & _).
  - vm_compute. discriminate.
  - exact same_shape_two_rows.
  - exists frames, steps. split; assumption.
Defined.

(* ===================================================================== *)
(** ** Direction of the final marker (claim C4) *)
(* ===================================================================== *)

Lemma xgt_Fin (a b : R) : xgt (Fin a) (Fin b) = true <-> (b < a)%R.
Proof.
  simpl. destruct (Rlt_dec b a); split; intros H;
    try assumption; try reflexivity; try discriminate. contradiction.
Qed.

Lemma xgt_Fin_false (a b : R) : xgt (Fin a) (Fin b) = false <-> (a <= b)%R.
Proof.
  simpl. destruct (Rlt_dec b a); split; intros H;
    try reflexivity; try discriminate; lra.
Qed.

Lemma direction_right (dx dy : R) :
  (Rabs dy < Rabs dx)%R -> (0 < dx)%R ->
  spec_direction (Fin dx) (Fin dy) = "triangle-right".
Proof.
  intros Ha Hx. unfold spec_direction. cbn [xabs].
  now rewrite (proj2 (xgt_Fin _ _) Ha), (proj2 (xgt_Fin _ _) Hx).
Qed.

Lemma direction_left (dx dy : R) :
  (Rabs dy < Rabs dx)%R -> (dx <= 0)%R ->
  spec_direction (Fin dx) (Fin dy) = "triangle-left".
Proof.
  intros Ha Hx. unfold spec_direction. cbn [xabs].
  rewrite (proj2 (xgt_Fin _ _) Ha), (proj2 (xgt_Fin_false _ _) Hx).
  simpl. destruct (Rle_dec dx 0); [reflexivity | contradiction].
Qed.

Lemma direction_up (dx dy : R) :
  (Rabs dx <= Rabs dy)%R -> (0 < dy)%R ->
  spec_direction (Fin dx) (Fin dy) = "triangle-up".
Proof.
  intros Ha Hy. unfold spec_direction. cbn [xabs].
  now rewrite (proj2 (xgt_Fin_false _ _) Ha), (proj2 (xgt_Fin _ _) Hy).
Qed.

Lemma direction_down (dx dy : R) :
  (Rabs dx <= Rabs dy)%R -> (dy <= 0)%R ->
  spec_direction (Fin dx) (Fin dy) = "triangle-down".
Proof.
  intros Ha Hy. unfold spec_direction. cbn [xabs].
  now rewrite (proj2 (xgt_Fin_false _ _) Ha), (proj2 (xgt_Fin_false _ _) Hy).
Qed.

Lemma arrow_symbol_fin (a b c d : R) :
  arrow_symbol [Fin a; Fin b] [Fin c; Fin d]
  = Ok (spec_direction (Fin (b - a)) (Fin (d - c))).
Proof.
  unfold arrow_symbol. cbn [length Nat.ltb Nat.leb].
  change (iloc [Fin a; Fin b] (-1)) with (Ok (Fin b)).
  change (iloc [Fin a; Fin b] (-2)) with (Ok (Fin a)).
  change (iloc [Fin c; Fin d] (-1)) with (Ok (Fin d)).
  change (iloc [Fin c; Fin d] (-2)) with (Ok (Fin c)).
  cbn [bind]. rewrite <- branches_are_direction.
  change (xsub (Fin b) (Fin a)) with (Fin (b - a)).
  change (xsub (Fin d) (Fin c)) with (Fin (d - c)).
  now destruct (xgt (xabs (Fin (b - a))) (xabs (Fin (d - c)))).
Qed.

(** The three cases the specification lists for the direction rule:
    (0,0)->(2,1) points right, (0,0)->(-1,5) up, and the tie (0,0)->(2,2)
    up. *)
Lemma direction_examples :
  arrow_symbol [Fin 0; Fin 2] [Fin 0; Fin 1] = Ok "triangle-right"
  /\ arrow_symbol [Fin 0; Fin (-1)] [Fin 0; Fin 5] = Ok "triangle-up"
  /\ arrow_symbol [Fin 0; Fin 2] [Fin 0; Fin 2] = Ok "triangle-up".
Proof.
  rewrite !arrow_symbol_fin. repeat split; f_equal.
  - apply direction_right; [|lra].
    rewrite !Rabs_pos_eq; lra.
  - apply direction_up; [|lra].
    rewrite Rabs_left, Rabs_pos_eq; lra.
  - apply direction_up; lra.
Qed.

Lemma two_rows_run :
  build_frames two_rows two_rows_momentum 2 0
  = Ok ([mkFrame
           [mkScatter [Fin 0; Fin 2] [Fin 0; Fin 1] "lines+markers+text" "A"
              [None; Some "A"] "middle right" false
              (mkMarker ["circle"; "triangle-right"] [8; 14] 1)]
           "2024-01-01 - 2024-01-02"],
        [mkStep ["2024-01-01 - 2024-01-02"] (Some instant)
           "2024-01-01 - 2024-01-02" "animate"]).
Proof.
  unfold build_frames. change (len two_rows <? 2) with false. cbv iota.
  change (range_down 0) with [0]. rewrite for_each_cons, frame_step_eq.
  change (skipped (len two_rows) 2 0) with false. cbv iota.
  change (window_bounds (len two_rows) 2 0) with (0, 2). cbn [fst snd].
  unfold window_frame.
  change (iloc (index two_rows) 0) with (Ok (jan 1)).
  change (iloc (index two_rows) (2 - 1)) with (Ok (jan 2)).
  cbn [bind]. unfold traces.
  change (column_labels two_rows) with ["A"].
  rewrite for_each_cons. unfold window_trace.
  change (getitem two_rows "A") with (Ok [Fin 0; Fin 2]).
  change (getitem two_rows_momentum "A") with (Ok [Fin 0; Fin 1]).
  cbn [bind].
  change (slice 0 2 [Fin 0; Fin 2]) with [Fin 0; Fin 2].
  change (slice 0 2 [Fin 0; Fin 1]) with [Fin 0; Fin 1].
  destruct direction_examples as (-> & _). reflexivity.
Qed.

Lemma Forall2_Forall_r (A B : Type) (P : A -> B -> Prop) (Q : B -> Prop)
      (xs : list A) (ys : list B) :
  Forall2 P xs ys -> (forall a b, P a b -> Q b) -> Forall Q ys.
Proof.
  intros H HPQ. induction H; constructor; eauto.
Qed.

Lemma Forall2_Forall_in (A B : Type) (P : A -> B -> Prop) (Q : B -> Prop)
      (xs : list A) (ys : list B) :
  Forall2 P xs ys -> (forall a b, In a xs -> P a b -> Q b) -> Forall Q ys.
Proof.
  intros H HPQ. induction H; constructor.
  - apply (HPQ x0 y0); [now left | assumption].
  - apply IHForall2. intros a b Ha. apply HPQ. now right.
Qed.

Lemma window_trace_marked rs_data rsm_data (s e : Z) (t : string) sc :
  window_trace rs_data rsm_data s e t = Ok sc -> direction_marked sc.
Proof.
  intros H. apply window_trace_inv in H.
  destruct H as (xs & ys & a & _ & _ & Ha & ->).
  apply arrow_symbol_spec in Ha. destruct Ha as [Hlong Hshort].
  unfold direction_marked. cbn [x y marker symbol]. rewrite last_last.
  split; [|exact Hshort].
  intros Hlen. destruct (Hlong Hlen) as (x1 & x2 & y1 & y2 & ? & ? & ? & ? & ->).
  exists x1, x2, y1, y2. repeat (split; [assumption|]).
  split; [reflexivity | apply tie_is_vertical].
Qed.

(** C4: in every emitted frame, the marker of the last point of a window of
    two or more points is "right" when [|dx| > |dy|] and [dx > 0], "left"
    when [|dx| > |dy|] and [dx <= 0], and otherwise "up" when [dy > 0] and
    "down" if not, [dx] and [dy] being the differences of the last two
    points; a tie [|dx| = |dy|] takes the vertical branch; a window of fewer
    than two points gets "up". *)
Theorem final_marker_direction
        (rs_data rsm_data : DataFrame) (tail_points total_frames : Z)
        (frames : list Frame) (steps : list Step) :
  rectangular rs_data ->
  build_frames rs_data rsm_data tail_points total_frames = Ok (frames, steps) ->
  Forall (fun fr => Forall direction_marked (data fr)) frames.
Proof.
  intros Hrect Hrun.
  destruct (Z.lt_ge_cases (len rs_data) 2) as [HL|HL].
  - apply build_frames_single_inv in Hrun; [|assumption].
    destruct Hrun as (sd & Hsd & -> & _).
    constructor; [|constructor]. cbn [data].
    eapply Forall2_Forall_r; [exact Hsd|].
    intros t sc Hsc. apply single_trace_inv in Hsc.
    destruct Hsc as (xs & ys & Hx & _ & ->).
    apply (getitem_length _ _ _ Hrect) in Hx.
    unfold direction_marked. cbn [x y marker symbol]. unfold len in HL.
    split; [intros; lia | reflexivity].
  - apply build_frames_general_inv in Hrun; [|assumption].
    destruct Hrun as (new & -> & _ & Hnew).
    apply Forall_map.
    eapply Forall2_Forall_r; [exact Hnew|].
    intros i fs Hfs. apply window_frame_inv in Hfs.
    destruct Hfs as (d0 & d1 & fd & _ & _ & Hfd & ->). cbn [fst data].
    eapply Forall2_Forall_r; [exact Hfd|].
    intros t sc. apply window_trace_marked.
Qed.

Lemma final_marker_direction_witness :
  Forall (fun fr => Forall direction_marked (data fr))
    [mkFrame
       [mkScatter [Fin 0; Fin 2] [Fin 0; Fin 1] "lines+markers+text" "A"
          [None; Some "A"] "middle right" false
          (mkMarker ["circle"; "triangle-right"] [8; 14] 1)]
       "2024-01-01 - 2024-01-02"].
Proof.
  eapply (final_marker_direction two_rows two_rows_momentum 2 0).
  - repeat constructor.
  - exact two_rows_run.
Defined.

(* ===================================================================== *)
(** ** The degenerate case (claim C5) *)
(* ===================================================================== *)

Lemma label_text_short (k : nat) (t : string) :
  (k <= 1)%nat -> label_text k t = [Some t].
Proof.
  intros Hk. unfold label_text.
  replace (k - 1)%nat with 0%nat by lia. reflexivity.
Qed.

Lemma length_label_text (k : nat) (t : string) :
  (1 <= k)%nat -> length (label_text k t) = k.
Proof.
  intros Hk. unfold label_text. rewrite length_app, repeat_length.
  simpl. lia.
Qed.

Lemma Forall2_map_left_in (A B C : Type) (f : A -> B) (P : B -> C -> Prop)
      (Q : A -> C -> Prop) xs ys :
  Forall2 P (map f xs) ys ->
  (forall a c, In a xs -> P (f a) c -> Q a c) ->
  Forall2 Q xs ys.
Proof.
  revert ys. induction xs as [|a xs IH]; intros ys H HPQ; cbn [map] in H;
    inversion H; subst; constructor.
  - apply HPQ; [now left | assumption].
  - apply IH; [assumption|]. intros a' c Ha'. apply HPQ. now right.
Qed.

Lemma Forall2_map_right_in (A B C : Type) (f : B -> C) (P : A -> B -> Prop)
      (Q : A -> C -> Prop) xs ys :
  Forall2 P xs ys ->
  (forall a b, In a xs -> P a b -> Q a (f b)) ->
  Forall2 Q xs (map f ys).
Proof.
  induction 1 as [|a b xs ys Hab Hrest IH]; intros HPQ; cbn [map];
    constructor.
  - apply HPQ; [now left | assumption].
  - apply IH. intros a' b' Ha'. apply HPQ. now right.
Qed.

(** With pairwise different labels, a label names one column. *)
Lemma NoDup_labels_column (cols : list (string * list xreal)) t xs ys :
  NoDup (map fst cols) -> In (t, xs) cols -> In (t, ys) cols -> xs = ys.
Proof.
  induction cols as [|[t0 v0] cols IH]; intros Hnd Hx Hy; [destruct Hx|].
  cbn [map fst] in Hnd. inversion Hnd as [|? ? Hnot Hnd']; subst.
  destruct Hx as [Hx|Hx], Hy as [Hy|Hy].
  - congruence.
  - inversion Hx; subst. exfalso. apply Hnot.
    apply in_map_iff. now exists (t, ys).
  - inversion Hy; subst. exfalso. apply Hnot.
    apply in_map_iff. now exists (t, xs).
  - now apply IH.
Qed.

(** C5: a ratio table of fewer than two rows yields exactly one frame, keyed
    by the sentinel "SingleFrame", and exactly one step, which refers to that
    frame.  The frame has one trace per column of the ratio table, in the
    order of the columns; the trace of a column holds every row of the table
    (none or one point): its points are a ratio column and a momentum column
    of that label (the column itself when the labels are pairwise
    different), with the "up" marker and the instrument's label. *)
Theorem single_frame_for_short_table
        (rs_data rsm_data : DataFrame) (tail_points total_frames : Z) :
  len rs_data < 2 -> same_shape rs_data rsm_data ->
  exists single_data,
    build_frames rs_data rsm_data tail_points total_frames
    = Ok ([mkFrame single_data "SingleFrame"],
          [mkStep ["SingleFrame"] None "SingleFrame" "animate"])
    /\ Forall2
         (fun c sc =>
            name sc = fst c
            /\ In (fst c, x sc) (columns rs_data)
            /\ In (fst c, y sc) (columns rsm_data)
            /\ (NoDup (column_labels rs_data) -> x sc = snd c)
            /\ length (x sc) = length (index rs_data)
            /\ length (y sc) = length (index rs_data)
            /\ (length (x sc) <= 1)%nat
            /\ symbol (marker sc) = ["triangle-up"]
            /\ text sc = [Some (fst c)])
         (columns rs_data) single_data.
Proof.
  intros HL (Hrect & Hrectm & Hrows & Hincl).
  destruct (build_frames_single rs_data rsm_data tail_points total_frames
              HL Hincl) as (sd & Hsd & Hrun).
  exists sd. split; [exact Hrun|].
  apply (Forall2_map_left_in _ _ _ _ _ _ _ _ Hsd).
  intros [t v] sc Hc Hsc. cbn [fst snd] in *. apply single_trace_inv in Hsc.
  destruct Hsc as (xs & ys & Hx & Hy & ->).
  pose proof (getitem_length _ _ _ Hrect Hx) as Hlx.
  pose proof (getitem_length _ _ _ Hrectm Hy) as Hly.
  apply getitem_in in Hx, Hy. unfold len in HL.
  cbn [x y name marker symbol text].
  split; [reflexivity|]. split; [assumption|]. split; [assumption|].
  split.
  { intros Hnd. exact (NoDup_labels_column _ _ _ _ Hnd Hx Hc). }
  split; [assumption|]. split; [congruence|]. split; [lia|].
  split; [reflexivity|]. apply label_text_short. lia.
Qed.

Lemma single_frame_for_short_table_witness :
  exists single_data,
    build_frames one_row one_row 3 10
    = Ok ([mkFrame single_data "SingleFrame"],
          [mkStep ["SingleFrame"] None "SingleFrame" "animate"])
    /\ map name single_data = ["A"; "B"]
    /\ map x single_data = [[Fin 1]; [Fin 2]]
    /\ map text single_data = [[Some "A"]; [Some "B"]].
Proof.
  destruct (single_frame_for_short_table one_row one_row 3 10)
    as (sd & Hrun & Hsd).
  - vm_compute. reflexivity.
  - exact same_shape_one_row.
  - exists sd. split; [exact Hrun|].
    assert (NoDup (column_labels one_row)) as Hnd.
    { repeat constructor; simpl; intuition discriminate. }
    unfold one_row in Hsd. cbn [columns] in Hsd.
    inversion Hsd as [|c1 s1 l1 l1' H1 Hrest1]; subst.
    inversion Hrest1 as [|c2 s2 l2 l2' H2 Hrest2]; subst.
    inversion Hrest2; subst.
    destruct H1 as (Hn1 & _ & _ & Hx1 & _ & _ & _ & _ & Ht1).
    destruct H2 as (Hn2 & _ & _ & Hx2 & _ & _ & _ & _ & Ht2).
    cbn [map]. rewrite Hn1, Hn2, (Hx1 Hnd), (Hx2 Hnd), Ht1, Ht2.
    repeat split; reflexivity.
Defined.

(* ===================================================================== *)
(** ** Sizes of the emitted traces (claim C7) *)
(* ===================================================================== *)

(** C7, as stated, fails on a table without rows: the single frame is
    emitted although its window is empty, and each trace then has no point
    but one label and one marker. *)
Lemma empty_table_frame_is_emitted :
  exists fr steps,
    build_frames empty_table empty_table 3 10 = Ok ([fr], steps)
    /\ map (fun sc => (length (x sc), length (text sc),
                       length (symbol (marker sc)))) (data fr)
       = [(0, 1, 1)]%nat.
Proof.
  eexists _, _. split; vm_compute; reflexivity.
Qed.

Lemma window_trace_sized rs_data rsm_data (s e : Z) (t : string) sc :
  same_shape rs_data rsm_data -> 0 <= s < e -> e <= len rs_data ->
  window_trace rs_data rsm_data s e t = Ok sc ->
  let w := e - s in
  Z.of_nat (length (x sc)) = w /\ Z.of_nat (length (y sc)) = w
  /\ Z.of_nat (length (text sc)) = w
  /\ Z.of_nat (length (symbol (marker sc))) = w
  /\ Z.of_nat (length (size (marker sc))) = w.
Proof.
  intros (Hr & Hrm & Hlen & _) Hs He H w. unfold len in He.
  apply window_trace_inv in H.
  destruct H as (xs & ys & a & Hx & Hy & _ & ->).
  apply (getitem_length _ _ _ Hr) in Hx.
  apply (getitem_length _ _ _ Hrm) in Hy.
  cbn [x y text marker symbol size].
  rewrite !length_app, !repeat_length, length_label_text;
    rewrite !slice_length; simpl length; subst w; lia.
Qed.

(** The offsets the loop keeps are those whose window has a length of at
    least 1. *)
Lemma kept_by_length rs_data (n : Z) (offsets : list Z) :
  kept rs_data n offsets
  = filter (fun i => 1 <=? window_length (len rs_data) n i) offsets.
Proof.
  unfold kept. apply filter_ext. intros i. unfold skipped, window_length.
  destruct (window_bounds (len rs_data) n i) as [s e]. cbn [fst snd].
  destruct (Z.ltb_spec (e - s) 1), (Z.leb_spec 1 (e - s));
    cbn [negb]; try reflexivity; lia.
Qed.

(** C7 (amended): when the ratio table has at least one row, every trace of
    every emitted frame has as many points, labels and markers as the window
    of the frame has rows.  From a table of one row the single frame has the
    length of the table, 1 (at most the tail length when that is at least
    1).  From a table of two or more rows there is one frame per offset whose
    window [start, end) has a length [end - start] of at least 1, in the
    order of the loop, and no frame for any other offset; the frame of such
    an offset is keyed by the dates of rows [start] and [end - 1], and its
    traces have [end - start] points, labels and markers, a number between 1
    and the tail length. *)
Theorem frames_are_window_sized
        (rs_data rsm_data : DataFrame) (tail_points total_frames : Z) :
  1 <= len rs_data -> (len rs_data = 1 -> 1 <= tail_points) ->
  same_shape rs_data rsm_data ->
  exists frames steps,
    build_frames rs_data rsm_data tail_points total_frames
    = Ok (frames, steps)
    /\ (len rs_data < 2 ->
        exists fr,
          frames = [fr] /\ frame_sized (len rs_data) fr
          /\ 1 <= len rs_data <= tail_points)
    /\ (2 <= len rs_data ->
        Forall2
          (fun i fr =>
             let L := len rs_data in
             let w := window_length L tail_points i in
             1 <= w <= tail_points
             /\ frame_sized w fr
             /\ keyed_by_window rs_data
                   (fst (window_bounds L tail_points i))
                   (snd (window_bounds L tail_points i)) fr)
          (filter (fun i => 1 <=? window_length (len rs_data) tail_points i)
                  (range_down total_frames))
          frames).
Proof.
  intros HL1 Hn Hshape.
  destruct (Z.lt_ge_cases (len rs_data) 2) as [HL|HL].
  - destruct Hshape as (Hr & Hrm & Hlen & Hincl).
    destruct (build_frames_single rs_data rsm_data tail_points total_frames
                HL Hincl) as (sd & Hsd & Hrun).
    eexists _, _. split; [exact Hrun|]. split; [|lia].
    intros _. eexists. split; [reflexivity|]. split; [|lia].
    unfold frame_sized. cbn [data].
    eapply Forall2_Forall_r; [exact Hsd|].
    intros t sc Hsc. apply single_trace_inv in Hsc.
    destruct Hsc as (xs & ys & Hx & Hy & ->).
    apply (getitem_length _ _ _ Hr) in Hx.
    apply (getitem_length _ _ _ Hrm) in Hy.
    unfold len in *. cbn [x y text marker symbol size].
    rewrite length_label_text by lia. simpl length. lia.
  - destruct (build_frames_general rs_data rsm_data tail_points total_frames
                HL Hshape) as (new & Hrun & Hnew).
    eexists _, _. split; [exact Hrun|]. split; [lia|]. intros _.
    rewrite <- kept_by_length.
    apply (Forall2_map_right_in _ _ _ _ _ _ _ _ Hnew).
    intros i fs Hi Hfs. apply in_kept in Hi. destruct Hi as [_ Hk].
    pose proof (kept_window _ _ _ Hk) as Hw.
    unfold emitted in Hfs. unfold window_length.
    pose proof (window_bounds_closed (len rs_data) tail_points i) as Hc.
    destruct (window_bounds (len rs_data) tail_points i) as [s e].
    cbn [fst snd] in *. inversion Hc as [[Hs He]].
    apply window_frame_inv in Hfs.
    destruct Hfs as (d0 & d1 & fd & Hd0 & Hd1 & Hfd & ->). cbn [fst].
    rewrite <- Hs, <- He.
    split; [lia|]. split.
    + unfold frame_sized. cbn [data].
      eapply Forall2_Forall_r; [exact Hfd|].
      intros t sc Hsc.
      apply (window_trace_sized _ _ _ _ _ _ Hshape) in Hsc;
        [exact Hsc|lia|lia].
    + exists d0, d1. cbn [frame_name]. tauto.
Qed.

Lemma frames_are_window_sized_witness :
  exists frames steps,
    build_frames five_rows five_rows 3 4 = Ok (frames, steps)
    /\ Forall2
         (fun i fr =>
            let w := window_length 5 3 i in
            1 <= w <= 3 /\ frame_sized w fr
            /\ keyed_by_window five_rows (fst (window_bounds 5 3 i))
                                (snd (window_bounds 5 3 i)) fr)
         [4; 3; 2; 1; 0] frames.
Proof.
  destruct (frames_are_window_sized five_rows five_rows 3 4)
    as (frames & steps & Hrun & _ & Hgen).
  - vm_compute. discriminate.
  - intros H. vm_compute in H. discriminate H.
  - exact same_shape_five_rows.
  - exists frames, steps. split; [exact Hrun|].
    apply Hgen. vm_compute. discriminate.
Defined.

(* ===================================================================== *)
(** ** Navigation steps (claim C9) *)
(* ===================================================================== *)

(** C9, as stated, fails in the degenerate case: the step of the single
    frame carries the frame's key and no transition parameters. *)
Lemma single_step_has_no_transition :
  exists fr st,
    build_frames one_row one_row 3 10 = Ok ([fr], [st])
    /\ args_frames st = [frame_name fr]
    /\ args_options st = None.
Proof.
  eexists _, _. split; [vm_compute; reflexivity|]. split; reflexivity.
Qed.

Lemma Forall2_fst_snd (A B : Type) (R : A -> B -> Prop) (l : list (A * B)) :
  Forall (fun p => R (fst p) (snd p)) l -> Forall2 R (map fst l) (map snd l).
Proof.
  induction 1; simpl; constructor; assumption.
Qed.

Lemma emitted_step rs_data rsm_data n i fs :
  emitted rs_data rsm_data n i fs ->
  snd fs = mkStep [frame_name (fst fs)]
             (Some (mkAnimateOptions 0 true "immediate" 0))
             (frame_name (fst fs)) "animate".
Proof.
  intros H. apply window_frame_inv in H.
  now destruct H as (d0 & d1 & fd & _ & _ & _ & ->).
Qed.

(** C9 (amended): there is one step per frame, in the order of the frames,
    and each step is addressed by its frame's key; in the general case
    (two or more rows) every step carries the instant transition parameters
    (frame duration 0, transition duration 0, mode "immediate"). *)
Theorem steps_pair_frames
        (rs_data rsm_data : DataFrame) (tail_points total_frames : Z) :
  same_shape rs_data rsm_data ->
  exists frames steps,
    build_frames rs_data rsm_data tail_points total_frames
    = Ok (frames, steps)
    /\ Forall2
         (fun fr st =>
            args_frames st = [frame_name fr]
            /\ label st = frame_name fr
            /\ method st = "animate"
            /\ (2 <= len rs_data ->
                args_options st
                = Some (mkAnimateOptions 0 true "immediate" 0)))
         frames steps.
Proof.
  intros Hshape.
  destruct (Z.lt_ge_cases (len rs_data) 2) as [HL|HL].
  - destruct Hshape as (_ & _ & _ & Hincl).
    destruct (build_frames_single rs_data rsm_data tail_points total_frames
                HL Hincl) as (sd & _ & Hrun).
    eexists _, _. split; [exact Hrun|].
    constructor; [|constructor]. cbn.
    repeat (split; [reflexivity|]). intros; lia.
  - destruct (build_frames_general rs_data rsm_data tail_points total_frames
                HL Hshape) as (new & Hrun & Hnew).
    eexists _, _. split; [exact Hrun|].
    apply Forall2_fst_snd.
    eapply Forall2_Forall_r; [exact Hnew|].
    intros i fs Hfs. rewrite (emitted_step _ _ _ _ _ Hfs). cbn.
    repeat (split; [reflexivity|]). reflexivity.
Qed.

Lemma steps_pair_frames_witness :
  exists frames steps,
    build_frames five_rows five_rows 3 4 = Ok (frames, steps)
    /\ Forall2
         (fun fr st =>
            args_frames st = [frame_name fr]
            /\ label st = frame_name fr
            /\ method st = "animate"
            /\ (2 <= len five_rows ->
                args_options st
                = Some (mkAnimateOptions 0 true "immediate" 0)))
         frames steps.
Proof.
  apply (steps_pair_frames five_rows five_rows 3 4).
  exact same_shape_five_rows.
Defined.

(* ===================================================================== *)
(** ** Count, order and keys of the frames (claim C6) *)
(* ===================================================================== *)

Lemma digit_inj (a b : Z) : digit a = digit b -> a mod 10 = b mod 10.
Proof.
  unfold digit. intros H. apply (f_equal nat_of_ascii) in H.
  pose proof (Z.mod_pos_bound a 10 ltac:(lia)).
  pose proof (Z.mod_pos_bound b 10 ltac:(lia)).
  rewrite !nat_ascii_embedding in H by lia. lia.
Qed.

Lemma zero_pad2_inj (a b : Z) :
  0 <= a < 100 -> 0 <= b < 100 -> zero_pad2 a = zero_pad2 b -> a = b.
Proof.
  unfold zero_pad2. intros Ha Hb H. inversion H as [[H1 H2]].
  apply digit_inj in H1, H2. Z.div_mod_to_equations; lia.
Qed.

Lemma zero_pad4_inj (a b : Z) :
  0 <= a < 10000 -> 0 <= b < 10000 -> zero_pad4 a = zero_pad4 b -> a = b.
Proof.
  unfold zero_pad4, zero_pad2. intros Ha Hb H.
  inversion H as [[H1 H2 H3 H4]].
  apply digit_inj in H1, H2, H3, H4. Z.div_mod_to_equations; lia.
Qed.

(** The formatted date determines the calendar date. *)
Lemma strftime_Ymd_inj (a b : Timestamp) :
  valid_timestamp a -> valid_timestamp b ->
  strftime_Ymd a = strftime_Ymd b -> calendar_date a = calendar_date b.
Proof.
  intros (Hy & Hm & Hd) (Hy' & Hm' & Hd') H.
  unfold strftime_Ymd in H.
  assert (zero_pad4 (year a) = zero_pad4 (year b)
          /\ zero_pad2 (month a) = zero_pad2 (month b)
          /\ zero_pad2 (day a) = zero_pad2 (day b)) as (E1 & E2 & E3).
  { unfold zero_pad4, zero_pad2 in *. cbn [append] in H.
    inversion H. repeat split; congruence. }
  apply zero_pad4_inj in E1; [|lia|lia].
  apply zero_pad2_inj in E2; [|lia|lia].
  apply zero_pad2_inj in E3; [|lia|lia].
  unfold calendar_date. congruence.
Qed.

(** A key determines the two formatted dates it is made of. *)
Lemma key_inj (a b a' b' : Timestamp) :
  (strftime_Ymd a ++ " - " ++ strftime_Ymd b
   = strftime_Ymd a' ++ " - " ++ strftime_Ymd b')%string ->
  strftime_Ymd a = strftime_Ymd a' /\ strftime_Ymd b = strftime_Ymd b'.
Proof.
  unfold strftime_Ymd, zero_pad4, zero_pad2. cbn [append].
  intros H. inversion H. split; congruence.
Qed.

Lemma iloc_nth (A : Type) (l : list A) (k : Z) (a : A) :
  0 <= k -> iloc l k = Ok a -> nth_error l (Z.to_nat k) = Some a.
Proof.
  intros Hk. unfold iloc. destruct (Z.ltb_spec k 0); [lia|].
  destruct (_ || _); [discriminate|].
  destruct (nth_error l (Z.to_nat k)); [|discriminate]. congruence.
Qed.

Lemma filter_partition_length (A : Type) (f : A -> bool) (l : list A) :
  (length (filter f l) + length (filter (fun a => negb (f a)) l)
   = length l)%nat.
Proof.
  induction l as [|a l IH]; simpl; [reflexivity|].
  destruct (f a); simpl; lia.
Qed.

Lemma StronglySorted_filter (A : Type) (R : A -> A -> Prop) (f : A -> bool)
      (l : list A) :
  StronglySorted R l -> StronglySorted R (filter f l).
Proof.
  induction 1 as [|a l Hs IH Ha]; simpl; [constructor|].
  destruct (f a); [|assumption].
  constructor; [assumption|].
  apply Forall_forall. intros b Hb. apply filter_In in Hb.
  rewrite Forall_forall in Ha. apply Ha. tauto.
Qed.

Lemma StronglySorted_map_seq (R : Z -> Z -> Prop) (g : nat -> Z) :
  (forall p q, (p < q)%nat -> R (g p) (g q)) ->
  forall k start, StronglySorted R (map g (seq start k)).
Proof.
  intros Hg. induction k as [|k IH]; intros start; simpl; constructor.
  - apply IH.
  - apply Forall_forall. intros b Hb. apply in_map_iff in Hb.
    destruct Hb as (q & <- & Hq). apply in_seq in Hq. apply Hg. lia.
Qed.

(** Along the loop the offsets decrease. *)
Lemma range_down_sorted (tf : Z) : StronglySorted Z.gt (range_down tf).
Proof.
  unfold range_down. apply StronglySorted_map_seq. intros; lia.
Qed.

Lemma StronglySorted_NoDup (l : list Z) : StronglySorted Z.gt l -> NoDup l.
Proof.
  induction 1 as [|a l Hs IH Ha]; constructor; [|assumption].
  intros Hin. rewrite Forall_forall in Ha. specialize (Ha _ Hin). lia.
Qed.

Lemma StronglySorted_weaken (A : Type) (R R' : A -> A -> Prop) (l : list A) :
  (forall a b, In a l -> In b l -> R a b -> R' a b) ->
  StronglySorted R l -> StronglySorted R' l.
Proof.
  intros HR H. induction H as [|a l Hs IH Ha]; constructor.
  - apply IH. intros a' b' Ha' Hb'. apply HR; now right.
  - rewrite Forall_forall in *. intros b Hb.
    apply HR; [now left | now right | now apply Ha].
Qed.

(** A later step of the loop (a smaller offset) has a later window. *)
Lemma smaller_offset_is_later (L n i j : Z) :
  0 <= j < i -> older (window_bounds L n i) (window_bounds L n j).
Proof.
  intros H. rewrite !window_bounds_closed. unfold older. cbn [fst snd]. lia.
Qed.

Lemma Forall2_in_r (A B : Type) (P : A -> B -> Prop) xs ys (b : B) :
  Forall2 P xs ys -> In b ys -> exists a, In a xs /\ P a b.
Proof.
  induction 1 as [|a0 b0 xs ys Hab Hrest IH]; intros Hin; [contradiction|].
  destruct Hin as [<- | Hin].
  - exists a0. split; [now left | assumption].
  - destruct (IH Hin) as (a & Ha & Hp). exists a. split; [now right|assumption].
Qed.

Lemma NoDup_Forall2_map (A B C : Type) (P : A -> B -> Prop) (g : B -> C)
      (xs : list A) (ys : list B) :
  NoDup xs -> Forall2 P xs ys ->
  (forall a a' b b',
      In a xs -> In a' xs -> P a b -> P a' b' -> g b = g b' -> a = a') ->
  NoDup (map g ys).
Proof.
  intros Hnd H. revert Hnd.
  induction H as [|a b xs ys Hab Hrest IH]; intros Hnd Hinj; simpl.
  - constructor.
  - inversion Hnd as [|? ? Hnotin Hnd']; subst. constructor.
    + intros Hin. apply in_map_iff in Hin. destruct Hin as (b' & Hg & Hb').
      destruct (Forall2_in_r _ _ _ _ _ _ Hrest Hb') as (a' & Ha' & Hab').
      apply Hnotin.
      rewrite (Hinj a a' b b'); auto; [now left | now right].
    + apply IH; [assumption|].
      intros a1 a2 b1 b2 H1 H2. apply Hinj; now right.
Qed.

(** C6, as stated, fails on the uniqueness of the keys: a key is made of
    calendar dates, so two windows that end on different timestamps of the
    same day get the same key. *)
Lemma intraday_keys_collide :
  ts_ltb (mkTimestamp 2024 1 1 0) (mkTimestamp 2024 1 1 3600000000000) = true
  /\ exists f1 f2 steps,
       build_frames intraday intraday 1 1 = Ok ([f1; f2], steps)
       /\ frame_name f1 = frame_name f2.
Proof.
  split; [reflexivity|].
  eexists _, _, _. split; [vm_compute; reflexivity | reflexivity].
Qed.

Lemma emitted_labels rs_data rsm_data n offsets new :
  Forall2 (emitted rs_data rsm_data n) offsets new ->
  map label (map snd new) = map frame_name (map fst new)
  /\ map args_frames (map snd new)
     = map (fun fr => [frame_name fr]) (map fst new).
Proof.
  induction 1 as [|i fs offsets new Hfs Hrest [IH1 IH2]]; simpl.
  - split; reflexivity.
  - rewrite (emitted_step _ _ _ _ _ Hfs), IH1, IH2. split; reflexivity.
Qed.

Lemma emitted_key_inj rs_data rsm_data n total_frames i j fs fs' :
  Forall valid_timestamp (index rs_data) ->
  NoDup (map calendar_date (index rs_data)) ->
  In i (kept rs_data n (range_down total_frames)) ->
  In j (kept rs_data n (range_down total_frames)) ->
  emitted rs_data rsm_data n i fs -> emitted rs_data rsm_data n j fs' ->
  frame_name (fst fs) = frame_name (fst fs') -> i = j.
Proof.
  intros Hvalid Hnd Hi Hj Hfs Hfs' Hkey.
  apply in_kept in Hi, Hj. destruct Hi as [Hi Hki], Hj as [Hj Hkj].
  apply in_range_down in Hi, Hj.
  pose proof (kept_window _ _ _ Hki) as Hwi.
  pose proof (kept_window _ _ _ Hkj) as Hwj.
  unfold emitted in Hfs, Hfs'.
  pose proof (window_bounds_closed (len rs_data) n i) as Hci.
  pose proof (window_bounds_closed (len rs_data) n j) as Hcj.
  destruct (window_bounds (len rs_data) n i) as [s e].
  destruct (window_bounds (len rs_data) n j) as [s' e'].
  cbn [fst snd] in *. inversion Hci as [[Hs He]]. inversion Hcj as [[Hs' He']].
  apply window_frame_inv in Hfs, Hfs'.
  destruct Hfs as (d0 & d1 & fd & _ & H1 & _ & ->).
  destruct Hfs' as (d0' & d1' & fd' & _ & H1' & _ & ->).
  cbn [fst frame_name] in Hkey. apply key_inj in Hkey.
  destruct Hkey as [_ Hkey].
  apply iloc_nth in H1, H1'; [|lia|lia].
  rewrite Forall_forall in Hvalid.
  apply strftime_Ymd_inj in Hkey;
    [| apply Hvalid; eapply nth_error_In; eassumption
     | apply Hvalid; eapply nth_error_In; eassumption].
  assert (Z.to_nat (e - 1) = Z.to_nat (e' - 1)) as Hpos.
  { rewrite NoDup_nth_error in Hnd. apply Hnd.
    - rewrite length_map. apply nth_error_Some. congruence.
    - rewrite !nth_error_map, H1, H1'. simpl. congruence. }
  lia.
Qed.

(** C6 (amended): for a table of two or more rows and a frame count of at
    least 0, the builder emits [frameCount + 1] frames less the skipped
    offsets; there are as many steps as frames, the k-th step is addressed
    by the key of the k-th frame, and the frames come oldest window first,
    whatever the index is; the keys are moreover pairwise different when the
    timestamps of the index fall on pairwise different calendar days. *)
Theorem frame_count_order_keys
        (rs_data rsm_data : DataFrame) (tail_points total_frames : Z) :
  2 <= len rs_data -> 0 <= total_frames -> same_shape rs_data rsm_data ->
  exists frames steps,
    build_frames rs_data rsm_data tail_points total_frames
    = Ok (frames, steps)
    /\ Z.of_nat (length frames)
       = total_frames + 1
         - Z.of_nat (length (filter (skipped (len rs_data) tail_points)
                                    (range_down total_frames)))
    /\ length steps = length frames
    /\ map label steps = map frame_name frames
    /\ map args_frames steps = map (fun fr => [frame_name fr]) frames
    /\ (exists offsets,
          Forall2 (emitted rs_data rsm_data tail_points) offsets
                  (combine frames steps)
          /\ StronglySorted
               (fun i j => older (window_bounds (len rs_data) tail_points i)
                                 (window_bounds (len rs_data) tail_points j))
               offsets)
    /\ (Forall valid_timestamp (index rs_data) ->
        NoDup (map calendar_date (index rs_data)) ->
        NoDup (map frame_name frames)).
Proof.
  intros HL Htf Hshape.
  destruct (build_frames_general rs_data rsm_data tail_points total_frames
              HL Hshape) as (new & Hrun & Hnew).
  exists (map fst new), (map snd new). split; [exact Hrun|].
  destruct (emitted_labels _ _ _ _ _ Hnew) as [Hlab Hargs].
  split; [|split; [|split; [|split; [|split]]]]; try assumption.
  - rewrite length_map, <- (Forall2_length Hnew).
    pose proof (filter_partition_length _
                  (skipped (len rs_data) tail_points)
                  (range_down total_frames)) as Hp.
    rewrite length_range_down in Hp. unfold kept. lia.
  - now rewrite !length_map.
  - exists (kept rs_data tail_points (range_down total_frames)).
    rewrite combine_fst_snd. split; [exact Hnew|].
    apply StronglySorted_filter.
    eapply StronglySorted_weaken; [|apply range_down_sorted].
    intros i j Hi Hj Hij. apply in_range_down in Hi, Hj.
    apply smaller_offset_is_later. lia.
  - intros Hvalid Hnd. rewrite map_map.
    eapply NoDup_Forall2_map; [|exact Hnew|].
    + apply NoDup_filter, StronglySorted_NoDup, range_down_sorted.
    + intros i j fs fs' Hi Hj Hfs Hfs' Hkey.
      eapply emitted_key_inj; eassumption.
Qed.

Lemma frame_count_order_keys_witness :
  exists frames steps,
    build_frames five_rows five_rows 3 10 = Ok (frames, steps)
    /\ Z.of_nat (length frames) = 10 + 1 - 6
    /\ NoDup (map frame_name frames).
Proof.
  destruct (frame_count_order_keys five_rows five_rows 3 10)
    as (frames & steps & Hrun & Hcount & _ & _ & _ & _ & Hkeys).
  - vm_compute. discriminate.
  - lia.
  - exact same_shape_five_rows.
  - exists frames, steps. split; [assumption|]. split; [assumption|].
    apply Hkeys.
    + repeat constructor; vm_compute; discriminate.
    + repeat constructor; simpl; intuition discriminate.
Defined.

(* ===================================================================== *)
(** ** Arithmetic of floating-point values *)
(* ===================================================================== *)

Lemma xadd_nan_r (a : xreal) : xadd a NaN = NaN.
Proof. now destruct a. Qed.

Lemma xsub_nan_r (a : xreal) : xsub a NaN = NaN.
Proof. now destruct a. Qed.

Lemma xdiv_nan_r (a : xreal) : xdiv a NaN = NaN.
Proof. now destruct a. Qed.

Lemma xdiv_zero_zero : xdiv (Fin 0) (Fin 0) = NaN.
Proof.
  simpl. destruct (Req_EM_T 0 0) as [_|H]; [|exfalso; now apply H].
  unfold Rsign. destruct (Rlt_dec 0 0) as [H|_]; [exfalso; lra|]. reflexivity.
Qed.

Lemma xdiv_Fin (p q : R) : q <> 0%R -> xdiv (Fin p) (Fin q) = Fin (p / q).
Proof.
  intros Hq. simpl. destruct (Req_EM_T q 0); [contradiction | reflexivity].
Qed.

Lemma xsqrt_Fin (r : R) : (0 <= r)%R -> xsqrt (Fin r) = Fin (sqrt r).
Proof.
  intros Hr. simpl. destruct (Rlt_dec r 0); [exfalso; lra | reflexivity].
Qed.

Lemma xsum_cons (v : xreal) (l : list xreal) : xsum (v :: l) = xadd v (xsum l).
Proof. reflexivity. Qed.

Lemma xsum_nan (l : list xreal) : In NaN l -> xsum l = NaN.
Proof.
  induction l as [|v l IH]; intros H; [contradiction|].
  rewrite xsum_cons. destruct H as [-> | H]; [reflexivity|].
  now rewrite (IH H), xadd_nan_r.
Qed.

Lemma filter_not_nan_id (l : list xreal) :
  ~ In NaN l -> filter (fun v => negb (is_nan v)) l = l.
Proof.
  induction l as [|v l IH]; intros H; [reflexivity|]. simpl.
  destruct v; simpl; try (rewrite IH; [reflexivity | intros Hin; apply H; now right]).
  exfalso. apply H. now left.
Qed.

Lemma filter_nan_shorter (l : list xreal) :
  In NaN l -> (length (filter (fun v => negb (is_nan v)) l) < length l)%nat.
Proof.
  induction l as [|v l IH]; intros H; [contradiction|]. simpl.
  pose proof (filter_length_le (fun v => negb (is_nan v)) l) as Hle.
  destruct H as [-> | H]; simpl; [lia|].
  specialize (IH H). destruct (negb (is_nan v)); simpl; lia.
Qed.

Lemma in_nan_dec (l : list xreal) : {In NaN l} + {~ In NaN l}.
Proof.
  induction l as [|v l [IH|IH]].
  - right. intros [].
  - left. now right.
  - destruct v; try (right; intros [H|H]; [discriminate | contradiction]).
    left. now left.
Qed.

(* ===================================================================== *)
(** ** Rows of the derived columns *)
(* ===================================================================== *)

Lemma at_row_map_seq (f : nat -> xreal) (k t : nat) :
  (t < k)%nat -> at_row (map f (seq 0 k)) t = f t.
Proof.
  intros Ht. unfold at_row. apply nth_error_nth.
  rewrite nth_error_map, nth_error_seq.
  destruct (Nat.ltb_spec t k); [reflexivity | lia].
Qed.

Lemma at_row_map (f : xreal -> xreal) (s : list xreal) (t : nat) :
  (t < length s)%nat -> at_row (map f s) t = f (at_row s t).
Proof.
  intros Ht. unfold at_row. rewrite (nth_indep _ NaN (f NaN)).
  - apply map_nth.
  - now rewrite length_map.
Qed.

Lemma length_map2 (f : xreal -> xreal -> xreal) (a b : list xreal) :
  length (map2 f a b) = Nat.min (length a) (length b).
Proof. unfold map2. now rewrite length_map, length_combine. Qed.

Lemma at_row_map2 (f : xreal -> xreal -> xreal) (a b : list xreal) (t : nat) :
  (t < length a)%nat -> (t < length b)%nat ->
  at_row (map2 f a b) t = f (at_row a t) (at_row b t).
Proof.
  unfold at_row, map2. revert b t.
  induction a as [|p a IH]; intros [|q b] t Ha Hb; simpl in *; try lia.
  destruct t as [|t]; [reflexivity|]. apply IH; lia.
Qed.

Lemma length_rolling_apply agg (w : Z) (s : list xreal) :
  length (rolling_apply agg w s) = length s.
Proof. unfold rolling_apply. now rewrite length_map, length_seq. Qed.

Lemma at_row_rolling_apply agg (w : Z) (s : list xreal) (t : nat) :
  (t < length s)%nat ->
  at_row (rolling_apply agg w s) t =
    let obs := filter (fun v => negb (is_nan v)) (trailing w s t) in
    if Z.of_nat (length obs) <? w then NaN else agg obs.
Proof.
  intros Ht. unfold rolling_apply.
  now rewrite (at_row_map_seq _ (length s) t Ht).
Qed.

Lemma skipn_at_row (s : list xreal) (a : nat) :
  (a < length s)%nat -> skipn a s = at_row s a :: skipn (S a) s.
Proof.
  revert a. induction s as [|v s IH]; intros a H; simpl in H; [lia|].
  destruct a as [|a]; [reflexivity|].
  change (skipn (S a) (v :: s)) with (skipn a s).
  change (skipn (S (S a)) (v :: s)) with (skipn (S a) s).
  change (at_row (v :: s) (S a)) with (at_row s a).
  apply IH. lia.
Qed.

Lemma firstn_skipn_seq (s : list xreal) (k a : nat) :
  (a + k <= length s)%nat ->
  firstn k (skipn a s) = map (at_row s) (seq a k).
Proof.
  revert a. induction k as [|k IH]; intros a H; [reflexivity|].
  rewrite skipn_at_row by lia.
  change (seq a (S k)) with (a :: seq (S a) k).
  change (map (at_row s) (a :: seq (S a) k))
    with (at_row s a :: map (at_row s) (seq (S a) k)).
  rewrite <- IH by lia. reflexivity.
Qed.

(** Once the window is filled, the trailing observations of the table
    library are the trailing observations of the specification. *)
Lemma trailing_full (w : Z) (s : list xreal) (t : nat) :
  1 <= w -> w - 1 <= Z.of_nat t -> (t < length s)%nat ->
  trailing w s t = spec_window w (at_row s) t.
Proof.
  intros Hw Ht Hlen. unfold trailing, spec_window.
  replace (Z.to_nat (Z.max 0 (Z.of_nat t + 1 - w)))
    with (S t - Z.to_nat w)%nat by lia.
  replace (S t - (S t - Z.to_nat w))%nat with (Z.to_nat w) by lia.
  apply firstn_skipn_seq. lia.
Qed.

Lemma trailing_short (w : Z) (s : list xreal) (t : nat) :
  Z.of_nat t < w - 1 -> Z.of_nat (length (trailing w s t)) < w.
Proof.
  intros Ht. unfold trailing. rewrite length_firstn. lia.
Qed.

Lemma length_spec_window (w : Z) (f : nat -> xreal) (t : nat) :
  length (spec_window w f t) = Z.to_nat w.
Proof. unfold spec_window. now rewrite length_map, length_seq. Qed.

Lemma rolling_mean_spec (w : Z) (s : list xreal) (t : nat) :
  1 <= w -> (t < length s)%nat ->
  at_row (rolling_apply obs_mean w s) t = spec_rolling_mean w (at_row s) t.
Proof.
  intros Hw Ht. rewrite at_row_rolling_apply by assumption. cbv zeta.
  unfold spec_rolling_mean.
  pose proof (filter_length_le (fun v => negb (is_nan v)) (trailing w s t))
    as Hle.
  destruct (Z.ltb_spec (Z.of_nat t) (w - 1)) as [Hs|Hs].
  - pose proof (trailing_short w s t Hs).
    destruct (Z.ltb_spec (Z.of_nat (length (filter (fun v => negb (is_nan v))
                                               (trailing w s t)))) w);
      [reflexivity | lia].
  - rewrite trailing_full in * by assumption.
    pose proof (length_spec_window w (at_row s) t) as Hlen.
    destruct (in_nan_dec (spec_window w (at_row s) t)) as [Hin|Hin].
    + pose proof (filter_nan_shorter _ Hin).
      rewrite (xsum_nan _ Hin). simpl xdiv.
      destruct (Z.ltb_spec (Z.of_nat (length (filter (fun v => negb (is_nan v))
                                 (spec_window w (at_row s) t)))) w);
        [reflexivity | lia].
    + rewrite (filter_not_nan_id _ Hin), Hlen.
      destruct (Z.ltb_spec (Z.of_nat (Z.to_nat w)) w); [lia|].
      unfold obs_mean. rewrite Hlen.
      destruct (Nat.eqb_spec (Z.to_nat w) 0); [lia|].
      now rewrite Z2Nat.id by lia.
Qed.

Lemma rolling_std_spec (w : Z) (s : list xreal) (t : nat) :
  1 <= w -> (t < length s)%nat ->
  at_row (rolling_apply (fun obs => xsqrt (obs_var 0 obs)) w s) t
  = spec_rolling_std w (at_row s) t.
Proof.
  intros Hw Ht. rewrite at_row_rolling_apply by assumption. cbv zeta.
  unfold spec_rolling_std, spec_rolling_mean.
  pose proof (filter_length_le (fun v => negb (is_nan v)) (trailing w s t))
    as Hle.
  destruct (Z.ltb_spec (Z.of_nat t) (w - 1)) as [Hs|Hs].
  - pose proof (trailing_short w s t Hs).
    destruct (Z.ltb_spec (Z.of_nat (length (filter (fun v => negb (is_nan v))
                                               (trailing w s t)))) w);
      [reflexivity | lia].
  - rewrite trailing_full in * by assumption.
    pose proof (length_spec_window w (at_row s) t) as Hlen.
    destruct (in_nan_dec (spec_window w (at_row s) t)) as [Hin|Hin].
    + pose proof (filter_nan_shorter _ Hin).
      destruct (Z.ltb_spec (Z.of_nat (length (filter (fun v => negb (is_nan v))
                                 (spec_window w (at_row s) t)))) w); [|lia].
      rewrite xsum_nan; [reflexivity|].
      apply in_map_iff. exists NaN. split; [reflexivity | assumption].
    + rewrite (filter_not_nan_id _ Hin), Hlen.
      destruct (Z.ltb_spec (Z.of_nat (Z.to_nat w)) w); [lia|].
      unfold obs_var, obs_mean. rewrite Hlen.
      destruct (Z.leb_spec (Z.of_nat (Z.to_nat w)) 0); [lia|].
      destruct (Nat.eqb_spec (Z.to_nat w) 0); [lia|].
      rewrite Z.sub_0_r. now rewrite Z2Nat.id by lia.
Qed.

Lemma spec_window_ext (w : Z) (f g : nat -> xreal) (t : nat) :
  w - 1 <= Z.of_nat t -> (forall k, (k <= t)%nat -> f k = g k) ->
  spec_window w f t = spec_window w g t.
Proof.
  intros Ht H. unfold spec_window. apply map_ext_in.
  intros k Hk. apply in_seq in Hk. apply H. lia.
Qed.

Lemma spec_rolling_mean_ext (w : Z) (f g : nat -> xreal) (t : nat) :
  (forall k, (k <= t)%nat -> f k = g k) ->
  spec_rolling_mean w f t = spec_rolling_mean w g t.
Proof.
  intros H. unfold spec_rolling_mean.
  destruct (Z.ltb_spec (Z.of_nat t) (w - 1)); [reflexivity|].
  now rewrite (spec_window_ext w f g t).
Qed.

Lemma spec_rolling_std_ext (w : Z) (f g : nat -> xreal) (t : nat) :
  (forall k, (k <= t)%nat -> f k = g k) ->
  spec_rolling_std w f t = spec_rolling_std w g t.
Proof.
  intros H. unfold spec_rolling_std.
  destruct (Z.ltb_spec (Z.of_nat t) (w - 1)); [reflexivity|].
  now rewrite (spec_window_ext w f g t), (spec_rolling_mean_ext w f g t).
Qed.

Lemma spec_normalized_ext (base w : Z) (f g : nat -> xreal) (t : nat) :
  (forall k, (k <= t)%nat -> f k = g k) ->
  spec_normalized base w f t = spec_normalized base w g t.
Proof.
  intros H. unfold spec_normalized.
  rewrite (spec_rolling_mean_ext w f g t H), (spec_rolling_std_ext w f g t H).
  now rewrite (H t (le_n t)).
Qed.

Lemma length_normalize_column (base w : Z) (s : list xreal) :
  length (normalize_column base w s) = length s.
Proof.
  unfold normalize_column.
  rewrite length_map, !length_map2, !length_rolling_apply. lia.
Qed.

(** Lines 13-15 on one column are the normalisation of the specification. *)
Lemma at_row_normalize_column (base w : Z) (s : list xreal) (t : nat) :
  1 <= w -> (t < length s)%nat ->
  at_row (normalize_column base w s) t = spec_normalized base w (at_row s) t.
Proof.
  intros Hw Ht. unfold normalize_column, spec_normalized.
  rewrite at_row_map
    by (rewrite !length_map2, !length_rolling_apply; lia).
  rewrite at_row_map2
    by (rewrite ?length_map2, !length_rolling_apply; lia).
  rewrite at_row_map2 by (rewrite ?length_rolling_apply; lia).
  now rewrite rolling_mean_spec, rolling_std_spec.
Qed.

(** The first [window - 1] rows of a normalised column are not-a-number. *)
Lemma spec_normalized_prefix (base w : Z) (f : nat -> xreal) (t : nat) :
  Z.of_nat t < w - 1 -> spec_normalized base w f t = NaN.
Proof.
  intros Ht. unfold spec_normalized, spec_rolling_mean.
  destruct (Z.ltb_spec (Z.of_nat t) (w - 1)); [|lia].
  now rewrite xsub_nan_r.
Qed.

(** Division by a standard deviation of 0 raises nothing: the quotient is
    not-a-number or an infinity, and it is [0/0], not-a-number, when the
    dividend is the difference of a value and itself. *)
Lemma xdiv_by_zero (a : xreal) :
  xdiv a (Fin 0) = NaN \/ xdiv a (Fin 0) = PInf \/ xdiv a (Fin 0) = NInf.
Proof.
  destruct a as [p| | |]; cbn [xdiv].
  - destruct (Req_EM_T 0 0) as [_|H]; [|exfalso; now apply H].
    destruct (Rsign p); cbn [signed_inf]; tauto.
  - destruct (Rlt_dec 0 0); tauto.
  - destruct (Rlt_dec 0 0); tauto.
  - tauto.
Qed.

Lemma xdiv_self_difference (a : xreal) : xdiv (xsub a a) (Fin 0) = NaN.
Proof.
  destruct a as [p| | |]; try reflexivity.
  cbn [xsub xneg xadd]. replace (p + - p)%R with 0%R by ring.
  apply xdiv_zero_zero.
Qed.

Lemma xadd_not_finite (c : R) (v : xreal) :
  v = NaN \/ v = PInf \/ v = NInf -> xadd (Fin c) v = v.
Proof. intros [->|[->| ->]]; reflexivity. Qed.

(** Where the rolling standard deviation is 0, the normalised value is
    not-a-number or an infinity, and it is not-a-number when the row equals
    the rolling mean. *)
Lemma spec_normalized_by_zero (base w : Z) (f : nat -> xreal) (t : nat) :
  spec_rolling_std w f t = Fin 0 ->
  (spec_normalized base w f t = NaN \/ spec_normalized base w f t = PInf
   \/ spec_normalized base w f t = NInf)
  /\ (f t = spec_rolling_mean w f t -> spec_normalized base w f t = NaN).
Proof.
  intros Hstd. unfold spec_normalized. rewrite Hstd. unfold xof_Z. split.
  - pose proof (xdiv_by_zero (xsub (f t) (spec_rolling_mean w f t))) as H.
    rewrite (xadd_not_finite _ _ H). exact H.
  - intros <-. now rewrite xdiv_self_difference.
Qed.

(* ===================================================================== *)
(** ** The Metrics Engine, column by column *)
(* ===================================================================== *)

Lemma map_columns_compose (g h : list xreal -> list xreal) (df : DataFrame) :
  map_columns g (map_columns h df) = map_columns (fun c => g (h c)) df.
Proof.
  unfold map_columns. cbn [index columns]. now rewrite map_map.
Qed.

Lemma combine_map_same (A B C : Type) (g : A -> B) (h : A -> C) (l : list A) :
  combine (map g l) (map h l) = map (fun a => (g a, h a)) l.
Proof.
  induction l as [|a l IH]; simpl; [reflexivity | now rewrite IH].
Qed.

Lemma binop_map_columns f (g h : list xreal -> list xreal) (df : DataFrame) :
  binop f (map_columns g df) (map_columns h df)
  = map_columns (fun c => map2 f (g c) (h c)) df.
Proof.
  unfold binop, map_columns. cbn [index columns].
  now rewrite combine_map_same, map_map.
Qed.

Lemma map_columns_id (df : DataFrame) : map_columns (fun c => c) df = df.
Proof.
  destruct df as [idx cols]. unfold map_columns. cbn [index columns].
  f_equal. rewrite <- (map_id cols) at 2. apply map_ext. now intros [t c].
Qed.

Lemma binop_self f (h : list xreal -> list xreal) (df : DataFrame) :
  binop f df (map_columns h df) = map_columns (fun c => map2 f c (h c)) df.
Proof.
  rewrite <- (map_columns_id df) at 1. apply binop_map_columns.
Qed.

(** [calculate] returns, for every column of the aligned raw ratios, its
    normalisation around 100 and the normalisation around 101 of its rate of
    change. *)
Lemma calculate_columns (benchmark_series : Series) (tickers_df : DataFrame)
      (window : Z) :
  0 <= window ->
  calculate benchmark_series tickers_df window
  = Ok (map_columns (normalize_column 100 window)
                    (div tickers_df benchmark_series),
        map_columns (fun s => normalize_column 101 window
                                (roc_column (normalize_column 100 window s)))
                    (div tickers_df benchmark_series)).
Proof.
  intros Hw. unfold calculate, rolling.
  destruct (Z.ltb_spec window 0); [lia|]. cbn [bind].
  unfold mean, std, radd, mul_scalar, pct_change. cbn [obj window_size].
  set (D := div tickers_df benchmark_series).
  rewrite (binop_self xsub), binop_map_columns.
  rewrite !map_columns_compose.
  rewrite !binop_map_columns.
  rewrite !map_columns_compose. reflexivity.
Qed.

Lemma ts_eqb_refl (a : Timestamp) : ts_eqb a a = true.
Proof. unfold ts_eqb. now rewrite !Z.eqb_refl. Qed.

Lemma index_eqb_refl (idx : list Timestamp) : index_eqb idx idx = true.
Proof.
  induction idx as [|a idx IH]; simpl; [reflexivity|].
  now rewrite ts_eqb_refl, IH.
Qed.

Lemma div_aligned (tickers_df : DataFrame) (benchmark_series : Series) :
  index tickers_df = s_index benchmark_series ->
  div tickers_df benchmark_series
  = map_columns (fun c => map2 xdiv c (s_values benchmark_series)) tickers_df.
Proof.
  intros H. unfold div. now rewrite H, index_eqb_refl.
Qed.

Lemma Forall2_map_right (A B : Type) (P : A -> B -> Prop) (g : A -> B)
      (l : list A) :
  (forall a, In a l -> P a (g a)) -> Forall2 P l (map g l).
Proof.
  induction l as [|a l IH]; intros H; simpl; constructor.
  - apply H. now left.
  - apply IH. intros b Hb. apply H. now right.
Qed.


(* ===================================================================== *)
(** ** The normalised ratio (claim C2) *)
(* ===================================================================== *)




(* ===================================================================== *)
(** ** Forward fill, shift and rate of change *)
(* ===================================================================== *)

Lemma length_ffill_from (last : xreal) (s : list xreal) :
  length (ffill_from last s) = length s.
Proof.
  revert last. induction s as [|v s IH]; intros last; simpl;
    [reflexivity | now rewrite IH].
Qed.

Lemma at_row_ffill_from (s : list xreal) :
  forall last t, (t < length s)%nat ->
    at_row (ffill_from last s) t = padded (at_row (last :: s)) (S t).
Proof.
  induction s as [|v s IH]; intros last t Ht; simpl in Ht; [lia|].
  destruct t as [|t].
  - reflexivity.
  - change (at_row (ffill_from last (v :: s)) (S t))
      with (at_row (ffill_from (if is_nan v then last else v) s) t).
    rewrite IH by lia. clear IH Ht.
    induction t as [|t IHt].
    + reflexivity.
    + change (padded (at_row ((if is_nan v then last else v) :: s)) (S (S t)))
        with (if is_nan (at_row s (S t))
              then padded (at_row ((if is_nan v then last else v) :: s)) (S t)
              else at_row s (S t)).
      change (padded (at_row (last :: v :: s)) (S (S (S t))))
        with (if is_nan (at_row s (S t))
              then padded (at_row (last :: v :: s)) (S (S t))
              else at_row s (S t)).
      now rewrite IHt.
Qed.

Lemma padded_nan_head (s : list xreal) (t : nat) :
  padded (at_row (NaN :: s)) (S t) = padded (at_row s) t.
Proof.
  induction t as [|t IH].
  - destruct s as [|[r| | |] s']; reflexivity.
  - change (padded (at_row (NaN :: s)) (S (S t)))
      with (if is_nan (at_row s (S t))
            then padded (at_row (NaN :: s)) (S t) else at_row s (S t)).
    rewrite IH. reflexivity.
Qed.

(** Forward fill gives every row the last value at or before it that is not
    not-a-number. *)
Lemma at_row_ffill (s : list xreal) (t : nat) :
  (t < length s)%nat -> at_row (ffill s) t = padded (at_row s) t.
Proof.
  intros Ht. unfold ffill. now rewrite at_row_ffill_from, padded_nan_head.
Qed.

Lemma length_shift (k : nat) (s : list xreal) : length (shift k s) = length s.
Proof.
  unfold shift. rewrite length_firstn, length_app, repeat_length. lia.
Qed.

Lemma at_row_shift (k : nat) (s : list xreal) (t : nat) :
  (t < length s)%nat ->
  at_row (shift k s) t = if (t <? k)%nat then NaN else at_row s (t - k).
Proof.
  intros Ht. unfold shift, at_row. rewrite nth_firstn.
  destruct (Nat.ltb_spec t (length s)); [|lia].
  destruct (Nat.ltb_spec t k).
  - rewrite app_nth1 by (rewrite repeat_length; lia). apply nth_repeat.
  - rewrite app_nth2; rewrite repeat_length; [reflexivity | lia].
Qed.

Lemma length_roc_column (s : list xreal) : length (roc_column s) = length s.
Proof.
  unfold roc_column. unfold ffill.
  rewrite !length_map, length_map2, length_shift, length_ffill_from. lia.
Qed.

(** Line 17 on one column: the rate of change of the forward-filled
    column. *)
Lemma at_row_roc_column (s : list xreal) (t : nat) :
  (t < length s)%nat ->
  at_row (roc_column s) t = spec_roc (padded (at_row s)) t.
Proof.
  intros Ht. unfold roc_column, spec_roc.
  assert (length (ffill s) = length s) as Hf
      by (unfold ffill; apply length_ffill_from).
  rewrite !at_row_map
    by (rewrite ?length_map, length_map2, length_shift, Hf; lia).
  rewrite at_row_map2 by (rewrite ?length_shift, Hf; lia).
  rewrite at_row_shift by lia.
  destruct (Nat.ltb_spec t 5).
  - now rewrite xdiv_nan_r.
  - rewrite !at_row_ffill by lia. reflexivity.
Qed.


Lemma is_nan_eq (v : xreal) : is_nan v = true <-> v = NaN.
Proof. destruct v; simpl; split; intros H; congruence. Qed.

(** When the absent entries of a column form a prefix, forward filling
    changes nothing, and the rate of change is the one of the column
    itself. *)
Lemma padded_without_gaps (f : nat -> xreal) (t : nat) :
  (forall k, (k < t)%nat -> f (S k) = NaN -> f k = NaN) ->
  padded f t = f t.
Proof.
  induction t as [|t IH]; intros H; [reflexivity|].
  change (padded f (S t))
    with (if is_nan (f (S t)) then padded f t else f (S t)).
  destruct (is_nan (f (S t))) eqn:E; [|reflexivity].
  apply is_nan_eq in E. rewrite IH.
  - rewrite E. apply H; [lia | exact E].
  - intros k Hk. apply H. lia.
Qed.

Lemma spec_roc_without_gaps (f : nat -> xreal) (t : nat) :
  (forall k, (k < t)%nat -> f (S k) = NaN -> f k = NaN) ->
  spec_roc (padded f) t = spec_roc f t.
Proof.
  intros H. unfold spec_roc. destruct (Nat.ltb_spec t 5); [reflexivity|].
  rewrite !padded_without_gaps; [reflexivity | |assumption].
  intros k Hk. apply H. lia.
Qed.

(* ===================================================================== *)
(** ** Rate of change and momentum (claim C3) *)
(* ===================================================================== *)


Lemma spec_normalized_nan_row (base w : Z) (f : nat -> xreal) (t : nat) :
  f t = NaN -> spec_normalized base w f t = NaN.
Proof.
  intros H. unfold spec_normalized. rewrite H. cbn [xsub xadd xdiv].
  reflexivity.
Qed.







(* ===================================================================== *)
(** ** An instrument identical to the benchmark (claim C10) *)
(* ===================================================================== *)


Lemma xsum_repeat_Fin (c : R) (k : nat) :
  xsum (repeat (Fin c) k) = Fin (INR k * c).
Proof.
  induction k as [|k IH].
  - simpl. f_equal. lra.
  - change (repeat (Fin c) (S k)) with (Fin c :: repeat (Fin c) k).
    rewrite xsum_cons, IH. cbn [xadd]. f_equal. rewrite S_INR. lra.
Qed.

Lemma map_constant (A B : Type) (g : A -> B) (b : B) (l : list A) :
  (forall a, In a l -> g a = b) -> map g l = repeat b (length l).
Proof.
  induction l as [|a l IH]; intros H; simpl; [reflexivity|].
  rewrite (H a (or_introl eq_refl)), IH; [reflexivity|].
  intros a' Ha'. apply H. now right.
Qed.

(** Over a window of equal finite values the rolling mean is that value and
    the rolling standard deviation is 0. *)
Lemma constant_window (w : Z) (f : nat -> xreal) (t : nat) (c : R) :
  1 <= w -> w - 1 <= Z.of_nat t ->
  (forall k, (S t - Z.to_nat w <= k <= t)%nat -> f k = Fin c) ->
  spec_rolling_mean w f t = Fin c /\ spec_rolling_std w f t = Fin 0.
Proof.
  intros Hw Ht Hf.
  assert (spec_window w f t = repeat (Fin c) (Z.to_nat w)) as Hwin.
  { unfold spec_window. rewrite (map_constant _ _ f (Fin c)).
    - now rewrite length_seq.
    - intros k Hk. apply in_seq in Hk. apply Hf. lia. }
  assert (IZR w = INR (Z.to_nat w)) as Hn.
  { rewrite INR_IZR_INZ. f_equal. lia. }
  assert (IZR w <> 0%R) as Hw0 by (apply not_0_IZR; lia).
  assert (spec_rolling_mean w f t = Fin c) as Hmean.
  { unfold spec_rolling_mean.
    destruct (Z.ltb_spec (Z.of_nat t) (w - 1)); [lia|].
    rewrite Hwin, xsum_repeat_Fin. unfold xof_Z.
    rewrite xdiv_Fin by assumption. f_equal. rewrite <- Hn. now field. }
  split; [exact Hmean|].
  unfold spec_rolling_std.
  destruct (Z.ltb_spec (Z.of_nat t) (w - 1)); [lia|].
  cbv zeta. rewrite Hmean, Hwin.
  rewrite (map_constant _ _ _ (Fin 0)).
  - rewrite repeat_length, xsum_repeat_Fin. unfold xof_Z.
    rewrite xdiv_Fin by assumption.
    replace (INR (Z.to_nat w) * 0 / IZR w)%R with 0%R by now field.
    rewrite xsqrt_Fin by lra. now rewrite sqrt_0.
  - intros v Hv. apply repeat_spec in Hv. subst v.
    cbn [xsub xneg xadd xmul]. f_equal. ring.
Qed.

(** A not-a-number observation in the trailing window makes the normalised
    value not-a-number. *)
Lemma spec_normalized_nan_in_window (base w : Z) (f : nat -> xreal) (t : nat) :
  w - 1 <= Z.of_nat t ->
  (exists k, (S t - Z.to_nat w <= k <= t)%nat /\ f k = NaN) ->
  spec_normalized base w f t = NaN.
Proof.
  intros Ht (k & Hk & Hnan). unfold spec_normalized, spec_rolling_mean.
  destruct (Z.ltb_spec (Z.of_nat t) (w - 1)); [lia|].
  rewrite xsum_nan.
  - cbn [xdiv]. now rewrite xsub_nan_r.
  - unfold spec_window. apply in_map_iff. exists k.
    split; [assumption|]. apply in_seq. lia.
Qed.

(** Over a window of equal finite values the normalised value is [0/0]. *)
Lemma spec_normalized_constant (base w : Z) (f : nat -> xreal) (t : nat)
      (c : R) :
  1 <= w -> w - 1 <= Z.of_nat t ->
  (forall k, (S t - Z.to_nat w <= k <= t)%nat -> f k = Fin c) ->
  spec_normalized base w f t = NaN.
Proof.
  intros Hw Ht Hf.
  destruct (constant_window w f t c Hw Ht Hf) as [Hmean Hstd].
  apply (spec_normalized_by_zero base) in Hstd. apply Hstd.
  rewrite Hmean. apply Hf. lia.
Qed.






(* ===================================================================== *)
(** ** Contract errors of the Metrics Engine (claim C8) *)
(* ===================================================================== *)

Lemma ts_eqb_eq (a b : Timestamp) : ts_eqb a b = true -> a = b.
Proof.
  destruct a as [y m d n], b as [y' m' d' n']. unfold ts_eqb. cbn.
  rewrite !andb_true_iff, !Z.eqb_eq. intros [[[-> ->] ->] ->]. reflexivity.
Qed.

Lemma index_eqb_eq (a b : list Timestamp) : index_eqb a b = true -> a = b.
Proof.
  revert b. induction a as [|p a IH]; intros [|q b]; simpl;
    try discriminate; [reflexivity|].
  rewrite andb_true_iff. intros [Hpq Hab].
  now rewrite (ts_eqb_eq _ _ Hpq), (IH _ Hab).
Qed.

Lemma in_insert_ts (t u : Timestamp) (l : list Timestamp) :
  In u (insert_ts t l) <-> u = t \/ In u l.
Proof.
  induction l as [|h l IH]; simpl.
  - intuition.
  - destruct (ts_ltb t h); [simpl; intuition|].
    destruct (ts_eqb t h) eqn:E.
    + apply ts_eqb_eq in E. subst. simpl. intuition.
    + simpl. rewrite IH. intuition.
Qed.

(** The union holds the labels of both indices and no other. *)
Lemma in_index_union (a b : list Timestamp) (u : Timestamp) :
  In u (index_union a b) <-> In u a \/ In u b.
Proof.
  unfold index_union. rewrite <- in_app_iff.
  induction (a ++ b) as [|t l IH]; simpl; [tauto|].
  rewrite in_insert_ts, IH. intuition.
Qed.




(* ===================================================================== *)
(** ** Which offsets the Frame Builder keeps *)
(* ===================================================================== *)

Lemma range_down_cons (tf : Z) :
  0 <= tf -> range_down tf = tf :: range_down (tf - 1).
Proof.
  intros H. unfold range_down.
  replace (Z.to_nat (tf + 1)) with (S (Z.to_nat (tf - 1 + 1))) by lia.
  cbn [seq map]. f_equal; [lia|].
  rewrite <- seq_shift, map_map. apply map_ext. intros k. lia.
Qed.

Lemma range_down_negative (tf : Z) : tf < 0 -> range_down tf = [].
Proof.
  intros H. unfold range_down.
  now replace (Z.to_nat (tf + 1)) with 0%nat by lia.
Qed.

(** With a tail of at least one point, an offset is skipped exactly when it
    reaches past the first row. *)
Lemma skipped_iff_past_start (L n i : Z) :
  1 <= n -> 0 <= i -> (skipped L n i = true <-> L <= i).
Proof.
  intros Hn Hi. rewrite skipped_spec. lia.
Qed.

Lemma skipped_without_tail (L n i : Z) : n <= 0 -> skipped L n i = true.
Proof.
  intros Hn. apply skipped_spec. lia.
Qed.

Lemma kept_range_down rs_data (n tf : Z) :
  1 <= n ->
  kept rs_data n (range_down tf) = range_down (Z.min tf (len rs_data - 1)).
Proof.
  intros Hn. remember (Z.to_nat (tf + 1)) as k eqn:Hk.
  revert tf Hk. induction k as [|k IH]; intros tf Hk.
  - rewrite !range_down_negative by lia. reflexivity.
  - rewrite (range_down_cons tf) by lia. unfold kept. cbn [filter].
    fold (kept rs_data n (range_down (tf - 1))).
    rewrite (IH (tf - 1)) by lia.
    destruct (skipped (len rs_data) n tf) eqn:Hs; cbn [negb].
    + apply skipped_iff_past_start in Hs; [|lia|lia]. f_equal. lia.
    + assert (~ len rs_data <= tf) as Hlt.
      { intros Hle. apply (skipped_iff_past_start _ n) in Hle; [|lia|lia].
        congruence. }
      rewrite !Z.min_l by lia. now rewrite <- range_down_cons by lia.
Qed.

Lemma kept_without_tail rs_data (n : Z) (offsets : list Z) :
  n <= 0 -> kept rs_data n offsets = [].
Proof.
  intros Hn. unfold kept. induction offsets as [|i offsets IH]; simpl;
    [reflexivity|]. now rewrite skipped_without_tail.
Qed.

Lemma build_frames_total rs_data rsm_data n total_frames :
  same_shape rs_data rsm_data ->
  exists frames steps,
    build_frames rs_data rsm_data n total_frames = Ok (frames, steps).
Proof.
  intros Hshape. destruct (Z.lt_ge_cases (len rs_data) 2) as [HL|HL].
  - destruct Hshape as (_ & _ & _ & Hincl).
    destruct (build_frames_single rs_data rsm_data n total_frames HL Hincl)
      as (sd & _ & Hrun). eauto.
  - destruct (build_frames_general rs_data rsm_data n total_frames HL Hshape)
      as (new & Hrun & _). eauto.
Qed.

Lemma Forall2_impl_in (A B : Type) (P Q : A -> B -> Prop) xs ys :
  Forall2 P xs ys -> (forall a b, In a xs -> P a b -> Q a b) ->
  Forall2 Q xs ys.
Proof.
  induction 1 as [|a b xs ys Hab Hrest IH]; intros H; constructor.
  - apply H; [now left | assumption].
  - apply IH. intros a' b' Ha'. apply H. now right.
Qed.

(* ===================================================================== *)
(** ** Further properties of the Frame Builder *)
(* ===================================================================== *)

(** X1: for a table of [L >= 2] rows and a tail of at least one point, the
    builder emits a frame for the offsets [min(frameCount, L - 1), ..., 1, 0]
    and for no other, in this order; the window of offset [i] is
    [max(0, L - tail - i), L - i), so each frame ends one row after the one
    before it, and there are [min(frameCount + 1, L)] frames (none for a
    negative frame count). *)
Theorem frames_of_consecutive_windows
        (rs_data rsm_data : DataFrame) (tail_points total_frames : Z) :
  2 <= len rs_data -> 1 <= tail_points -> same_shape rs_data rsm_data ->
  let L := len rs_data in
  exists frames steps,
    build_frames rs_data rsm_data tail_points total_frames
    = Ok (frames, steps)
    /\ Z.of_nat (length frames) = Z.max 0 (Z.min (total_frames + 1) L)
    /\ Forall2
         (fun i fs =>
            window_frame rs_data rsm_data
              (Z.max 0 (L - tail_points - i)) (L - i) = Ok fs)
         (range_down (Z.min total_frames (L - 1)))
         (combine frames steps).
Proof.
  intros HL Hn Hshape L.
  destruct (build_frames_general rs_data rsm_data tail_points total_frames
              HL Hshape) as (new & Hrun & Hnew).
  rewrite kept_range_down in Hnew by assumption. fold L in Hnew.
  exists (map fst new), (map snd new). split; [exact Hrun|].
  split.
  - rewrite length_map, <- (Forall2_length Hnew), length_range_down. lia.
  - rewrite combine_fst_snd.
    eapply Forall2_impl_in; [exact Hnew|].
    intros i fs Hi Hfs. apply in_range_down in Hi.
    unfold emitted in Hfs. rewrite window_bounds_closed in Hfs.
    cbn [fst snd] in Hfs. fold L in Hfs.
    now replace (Z.min L (L - tail_points - i + tail_points)) with (L - i)
      in Hfs by lia.
Qed.

Lemma frames_of_consecutive_windows_witness :
  exists frames steps,
    build_frames five_rows five_rows 3 10 = Ok (frames, steps)
    /\ Z.of_nat (length frames) = 5.
Proof.
  destruct (frames_of_consecutive_windows five_rows five_rows 3 10)
    as (frames & steps & Hrun & Hcount & _).
  - vm_compute. discriminate.
  - lia.
  - exact same_shape_five_rows.
  - exists frames, steps. split; [exact Hrun | exact Hcount].
Defined.

(** X2: with a tail of 0 or less, a table of two or more rows gives no frame
    and no step, and no error, whatever the momentum table is. *)
Theorem no_frames_without_tail
        (rs_data rsm_data : DataFrame) (tail_points total_frames : Z) :
  2 <= len rs_data -> tail_points <= 0 ->
  build_frames rs_data rsm_data tail_points total_frames = Ok ([], []).
Proof.
  intros HL Hn. unfold build_frames.
  destruct (Z.ltb_spec (len rs_data) 2); [lia|].
  rewrite (frame_loop_total rs_data rsm_data tail_points
             (range_down total_frames) [] [] []); [reflexivity|].
  rewrite kept_without_tail by assumption. constructor.
Qed.

Lemma no_frames_without_tail_witness :
  build_frames five_rows empty_table 0 10 = Ok ([], []).
Proof.
  apply no_frames_without_tail; [vm_compute; discriminate | lia].
Defined.

Lemma range_down_last (m : Z) :
  0 <= m -> exists l, range_down m = l ++ [0].
Proof.
  intros Hm. unfold range_down.
  replace (Z.to_nat (m + 1)) with (S (Z.to_nat m)) by lia.
  rewrite seq_S, map_app. cbn [map Nat.add].
  eexists. f_equal. f_equal. lia.
Qed.

Lemma slice_to_end (s : Z) (l : list xreal) :
  0 <= s <= Z.of_nat (length l) ->
  slice s (Z.of_nat (length l)) l = skipn (Z.to_nat s) l.
Proof.
  intros Hs. rewrite slice_inside by lia.
  apply firstn_all2. rewrite length_skipn. lia.
Qed.

(** X3: with a tail of at least one point and a frame count of at least 0,
    the last frame of a table of [L >= 2] rows is the most recent window: it
    is keyed by the dates of rows [max(0, L - tail)] and [L - 1], and every
    trace holds the last [min(tail, L)] rows of its ratio and momentum
    columns. *)
Theorem last_frame_is_most_recent
        (rs_data rsm_data : DataFrame) (tail_points total_frames : Z) :
  2 <= len rs_data -> 1 <= tail_points -> 0 <= total_frames ->
  same_shape rs_data rsm_data ->
  let L := len rs_data in
  let recent := Z.to_nat (Z.min tail_points L) in
  exists earlier last steps d0 d1,
    build_frames rs_data rsm_data tail_points total_frames
    = Ok (earlier ++ [last], steps)
    /\ iloc (index rs_data) (Z.max 0 (L - tail_points)) = Ok d0
    /\ iloc (index rs_data) (L - 1) = Ok d1
    /\ frame_name last
       = (strftime_Ymd d0 ++ " - " ++ strftime_Ymd d1)%string
    /\ Forall2
         (fun t sc =>
            exists xs ys,
              getitem rs_data t = Ok xs /\ getitem rsm_data t = Ok ys
              /\ x sc = skipn (length xs - recent) xs
              /\ y sc = skipn (length ys - recent) ys)
         (column_labels rs_data) (data last).
Proof.
  intros HL Hn Htf Hshape L recent.
  destruct (build_frames_general rs_data rsm_data tail_points total_frames
              HL Hshape) as (new & Hrun & Hnew).
  rewrite kept_range_down in Hnew by assumption. fold L in Hnew.
  destruct (range_down_last (Z.min total_frames (L - 1))) as [l Hl]; [lia|].
  rewrite Hl in Hnew. apply Forall2_app_inv_l in Hnew.
  destruct Hnew as (new1 & new2 & _ & Hlast & ->).
  inversion Hlast as [|i fs l0 l0' Hfs Hnil]; subst. inversion Hnil; subst.
  unfold emitted in Hfs. rewrite window_bounds_closed in Hfs.
  cbn [fst snd] in Hfs. fold L in Hfs.
  replace (L - tail_points - 0) with (L - tail_points) in Hfs by lia.
  replace (Z.min L (L - tail_points + tail_points)) with L in Hfs by lia.
  apply window_frame_inv in Hfs.
  destruct Hfs as (d0 & d1 & fd & H0 & H1 & Hfd & ->).
  exists (map fst new1), (mkFrame fd
            (strftime_Ymd d0 ++ " - " ++ strftime_Ymd d1)%string).
  eexists _, d0, d1.
  split; [rewrite Hrun, !map_app; reflexivity|].
  split; [exact H0|]. split; [exact H1|]. split; [reflexivity|].
  cbn [data]. eapply Forall2_impl; [|exact Hfd].
  intros t sc Hsc. apply window_trace_inv in Hsc.
  destruct Hsc as (xs & ys & a & Hx & Hy & _ & ->).
  destruct Hshape as (Hr & Hrm & Hrows & _).
  pose proof (getitem_length _ _ _ Hr Hx) as Lx.
  pose proof (getitem_length _ _ _ Hrm Hy) as Ly.
  exists xs, ys. cbn [x y]. split; [exact Hx|]. split; [exact Hy|].
  unfold L, len in *.
  assert (Z.of_nat (length (index rs_data)) = Z.of_nat (length xs)) as Ex
      by lia.
  assert (Z.of_nat (length (index rs_data)) = Z.of_nat (length ys)) as Ey
      by lia.
  split.
  - rewrite Ex at 2. rewrite slice_to_end by lia. f_equal. lia.
  - rewrite Ey at 2. rewrite slice_to_end by lia. f_equal. lia.
Qed.

Lemma last_frame_is_most_recent_witness :
  exists earlier last steps,
    build_frames five_rows five_rows 3 10 = Ok (earlier ++ [last], steps)
    /\ frame_name last = "2024-01-03 - 2024-01-05"
    /\ map (fun sc => x sc) (data last) = [[Fin 3; Fin 4; Fin 5]].
Proof.
  destruct (last_frame_is_most_recent five_rows five_rows 3 10)
    as (earlier & last & steps & d0 & d1 & Hrun & H0 & H1 & Hkey & Hdata).
  - vm_compute. discriminate.
  - lia.
  - lia.
  - exact same_shape_five_rows.
  - exists earlier, last, steps. split; [exact Hrun|].
    vm_compute in H0. vm_compute in H1.
    inversion H0; subst. inversion H1; subst.
    split; [exact Hkey|].
    remember (data last) as traces_ eqn:E. clear E.
    inversion Hdata as [|t sc ts scs Hsc Hrest]; subst.
    inversion Hrest; subst.
    destruct Hsc as (xs & ys & Hx & _ & Hxs & _).
    cbn [map]. rewrite Hxs.
    vm_compute in Hx. inversion Hx; subst. reflexivity.
Defined.

(** X4: every emitted frame, in both cases, has exactly one trace per
    column of the ratio table, in the order of the columns, each named after
    its column. *)
Theorem one_trace_per_column
        (rs_data rsm_data : DataFrame) (tail_points total_frames : Z)
        (frames : list Frame) (steps : list Step) :
  build_frames rs_data rsm_data tail_points total_frames
  = Ok (frames, steps) ->
  Forall (fun fr => map name (data fr) = column_labels rs_data) frames.
Proof.
  intros Hrun.
  assert (forall (trace : string -> result Scatter) ts l,
             (forall t sc, trace t = Ok sc -> name sc = t) ->
             Forall2 (fun t sc => trace t = Ok sc) ts l ->
             map name l = ts) as Hnames.
  { intros trace ts l Hname H. induction H; simpl; [reflexivity|].
    f_equal; [now apply Hname | assumption]. }
  destruct (Z.lt_ge_cases (len rs_data) 2) as [HL|HL].
  - apply build_frames_single_inv in Hrun; [|assumption].
    destruct Hrun as (sd & Hsd & -> & _).
    constructor; [|constructor]. cbn [data].
    apply (Hnames _ _ _ (fun t sc H =>
             match single_trace_inv _ _ _ _ H with
             | ex_intro _ xs (ex_intro _ ys (conj _ (conj _ E))) =>
                 f_equal name E
             end) Hsd).
  - apply build_frames_general_inv in Hrun; [|assumption].
    destruct Hrun as (new & -> & _ & Hnew).
    apply Forall_map. eapply Forall2_Forall_r; [exact Hnew|].
    intros i fs Hfs. apply window_frame_inv in Hfs.
    destruct Hfs as (d0 & d1 & fd & _ & _ & Hfd & ->). cbn [fst data].
    refine (Hnames _ _ _ _ Hfd).
    intros t sc Hsc. apply window_trace_inv in Hsc.
    now destruct Hsc as (xs & ys & a & _ & _ & _ & ->).
Qed.

Lemma one_trace_per_column_witness :
  Forall (fun fr => map name (data fr) = ["A"; "B"])
         [mkFrame
            [mkScatter [Fin 1] [Fin 1] "lines+markers+text" "A" [Some "A"]
               "middle right" false (mkMarker ["triangle-up"] [14] 1);
             mkScatter [Fin 2] [Fin 2] "lines+markers+text" "B" [Some "B"]
               "middle right" false (mkMarker ["triangle-up"] [14] 1)]
            "SingleFrame"].
Proof.
  apply (one_trace_per_column one_row one_row 3 10 _
           [mkStep ["SingleFrame"] None "SingleFrame" "animate"]).
  vm_compute. reflexivity.
Defined.

Lemma arrow_symbol_range (xs ys : list xreal) (a : string) :
  arrow_symbol xs ys = Ok a ->
  In a ["triangle-right"; "triangle-left"; "triangle-up"; "triangle-down"].
Proof.
  unfold arrow_symbol. destruct (1 <? length xs)%nat.
  - destruct (iloc xs (-1)) as [x1|]; [|discriminate].
    destruct (iloc xs (-2)) as [x2|]; [|discriminate].
    destruct (iloc ys (-1)) as [y1|]; [|discriminate].
    destruct (iloc ys (-2)) as [y2|]; [|discriminate]. cbn [bind].
    destruct (xgt (xabs (xsub x1 x2)) (xabs (xsub y1 y2)));
      [destruct (xgt (xsub x1 x2) (Fin 0))
      | destruct (xgt (xsub y1 y2) (Fin 0))];
      intros H; inversion H; simpl; tauto.
  - intros H; inversion H; simpl; tauto.
Qed.

(** X5: in every frame of the general case, every trace labels its last
    point only, with the name of its instrument, draws the last point with
    one of the four triangles at size 14 and every earlier point as a circle
    of size 8, at full opacity. *)
Theorem only_last_point_is_marked
        (rs_data rsm_data : DataFrame) (tail_points total_frames : Z)
        (frames : list Frame) (steps : list Step) :
  2 <= len rs_data ->
  build_frames rs_data rsm_data tail_points total_frames
  = Ok (frames, steps) ->
  Forall
    (fun fr =>
       Forall
         (fun sc =>
            let k := (length (x sc) - 1)%nat in
            text sc = repeat None k ++ [Some (name sc)]
            /\ size (marker sc) = repeat 8 k ++ [14]
            /\ opacity (marker sc) = 1
            /\ exists arrow,
                 In arrow ["triangle-right"; "triangle-left";
                           "triangle-up"; "triangle-down"]
                 /\ symbol (marker sc) = repeat "circle" k ++ [arrow])
         (data fr))
    frames.
Proof.
  intros HL Hrun.
  apply build_frames_general_inv in Hrun; [|assumption].
  destruct Hrun as (new & -> & _ & Hnew).
  apply Forall_map. eapply Forall2_Forall_r; [exact Hnew|].
  intros i fs Hfs. apply window_frame_inv in Hfs.
  destruct Hfs as (d0 & d1 & fd & _ & _ & Hfd & ->). cbn [fst data].
  eapply Forall2_Forall_r; [exact Hfd|].
  intros t sc Hsc. apply window_trace_inv in Hsc.
  destruct Hsc as (xs & ys & a & _ & _ & Ha & ->).
  cbn [x text name marker size opacity symbol].
  repeat (split; [reflexivity|]).
  exists a. split; [exact (arrow_symbol_range _ _ _ Ha) | reflexivity].
Qed.

Lemma only_last_point_is_marked_witness :
  Forall
    (fun fr =>
       Forall
         (fun sc =>
            let k := (length (x sc) - 1)%nat in
            text sc = repeat None k ++ [Some (name sc)]
            /\ size (marker sc) = repeat 8 k ++ [14]
            /\ opacity (marker sc) = 1
            /\ exists arrow,
                 In arrow ["triangle-right"; "triangle-left";
                           "triangle-up"; "triangle-down"]
                 /\ symbol (marker sc) = repeat "circle" k ++ [arrow])
         (data fr))
    [mkFrame
       [mkScatter [Fin 0; Fin 2] [Fin 0; Fin 1] "lines+markers+text" "A"
          [None; Some "A"] "middle right" false
          (mkMarker ["circle"; "triangle-right"] [8; 14] 1)]
       "2024-01-01 - 2024-01-02"].
Proof.
  eapply (only_last_point_is_marked two_rows two_rows_momentum 2 0).
  - vm_compute. discriminate.
  - exact two_rows_run.
Defined.

(* ===================================================================== *)
(** ** A momentum table that lacks a column *)
(* ===================================================================== *)

Lemma getitem_missing (df : DataFrame) (t : string) :
  ~ In t (column_labels df) -> getitem df t = Raise KeyError.
Proof.
  intros H. unfold getitem.
  destruct (find _ (columns df)) as [c|] eqn:E; [|reflexivity].
  exfalso. apply H. apply find_some in E. destruct E as [Hin He].
  apply String.eqb_eq in He. subst. now apply in_map.
Qed.

Lemma for_each_append_raise (A B : Type) (trace : A -> result B) (e : exn) :
  forall pre a post acc,
    Forall (fun p => exists b, trace p = Ok b) pre ->
    trace a = Raise e ->
    for_each (pre ++ a :: post) acc
             (fun acc t => s <- trace t ;; Ok (acc ++ [s])) = Raise e.
Proof.
  induction pre as [|p pre IH]; intros a post acc Hpre Ha.
  - cbn [app for_each]. now rewrite Ha.
  - inversion Hpre as [|? ? [b Hb] Hrest]; subst.
    cbn [app for_each]. rewrite Hb. cbn [bind]. now apply IH.
Qed.

(** The first label of a list that a table lacks. *)
Lemma first_missing_label (df : DataFrame) (ts : list string) :
  (exists t, In t ts /\ ~ In t (column_labels df)) ->
  exists pre t post,
    ts = pre ++ t :: post
    /\ Forall (fun p => In p (column_labels df)) pre
    /\ ~ In t (column_labels df).
Proof.
  induction ts as [|h ts IH]; intros (t & Hin & Hmiss); [contradiction|].
  destruct (in_dec string_dec h (column_labels df)) as [Hh|Hh].
  - destruct IH as (pre & t' & post & -> & Hpre & Ht').
    { exists t. split; [|assumption].
      destruct Hin as [<-|Hin]; [contradiction | assumption]. }
    exists (h :: pre), t', post. repeat split; [constructor|]; assumption.
  - exists [], h, ts. repeat split; [constructor | assumption].
Qed.

Lemma window_trace_of_label rs_data rsm_data (s e : Z) (t : string) :
  rectangular rs_data -> rectangular rsm_data ->
  length (index rsm_data) = length (index rs_data) ->
  0 <= s <= e -> e <= len rs_data ->
  In t (column_labels rs_data) -> In t (column_labels rsm_data) ->
  exists sc, window_trace rs_data rsm_data s e t = Ok sc.
Proof.
  intros Hr Hrm Hlen Hs He Ht Htm. unfold window_trace, len in *.
  destruct (getitem_label _ _ Ht) as [xs Hx].
  destruct (getitem_label _ _ Htm) as [ys Hy].
  rewrite Hx, Hy. cbn [bind].
  pose proof (getitem_length _ _ _ Hr Hx) as Lx.
  pose proof (getitem_length _ _ _ Hrm Hy) as Ly.
  destruct (arrow_symbol_total (slice s e xs) (slice s e ys)) as [a Ha].
  { rewrite !slice_length; lia. }
  rewrite Ha. cbn [bind]. eauto.
Qed.

Lemma frame_loop_raise rs_data rsm_data n (e : exn) :
  forall offsets acc,
    (exists i, In i offsets /\ skipped (len rs_data) n i = false) ->
    (forall i, In i offsets -> skipped (len rs_data) n i = false ->
               window_frame rs_data rsm_data
                 (fst (window_bounds (len rs_data) n i))
                 (snd (window_bounds (len rs_data) n i)) = Raise e) ->
    for_each offsets acc (frame_step rs_data rsm_data n) = Raise e.
Proof.
  induction offsets as [|i offsets IH]; intros [F S] (j & Hj & Hkj) Hraise;
    [contradiction|].
  rewrite for_each_cons, frame_step_eq.
  destruct (skipped (len rs_data) n i) eqn:Hs.
  - cbn [bind]. apply IH.
    + exists j. split; [|assumption].
      destruct Hj as [<-|Hj]; [congruence | assumption].
    + intros k Hk. apply Hraise. now right.
  - rewrite (Hraise i (or_introl eq_refl) Hs). reflexivity.
Qed.

(** X6: when the momentum table has the rows of the ratio table but lacks
    one of its columns, the builder raises [KeyError] and returns nothing:
    always for a table of fewer than two rows, and for a longer one as soon
    as a window is built (tail of at least one point, frame count of at
    least 0). *)
Theorem missing_momentum_column
        (rs_data rsm_data : DataFrame) (tail_points total_frames : Z) :
  rectangular rs_data -> rectangular rsm_data ->
  length (index rsm_data) = length (index rs_data) ->
  (exists t, In t (column_labels rs_data)
             /\ ~ In t (column_labels rsm_data)) ->
  len rs_data < 2 \/ (1 <= tail_points /\ 0 <= total_frames) ->
  build_frames rs_data rsm_data tail_points total_frames = Raise KeyError.
Proof.
  intros Hr Hrm Hrows Hmiss Hcase.
  destruct (first_missing_label rsm_data _ Hmiss)
    as (pre & t & post & Hsplit & Hpre & Ht).
  assert (forall p, In p (pre ++ [t]) -> In p (column_labels rs_data)) as Hin.
  { intros p Hp. rewrite Hsplit. apply in_app_iff in Hp. apply in_app_iff.
    destruct Hp as [Hp|[<-|[]]]; [now left | right; now left]. }
  unfold build_frames.
  destruct (Z.ltb_spec (len rs_data) 2) as [HL|HL].
  - unfold traces. rewrite Hsplit.
    rewrite (for_each_append_raise _ _ (single_trace rs_data rsm_data)
               KeyError); [reflexivity| |].
    + rewrite Forall_forall in *. intros p Hp. unfold single_trace.
      destruct (getitem_label rs_data p) as [xs ->];
        [apply Hin, in_app_iff; now left|].
      destruct (getitem_label rsm_data p (Hpre p Hp)) as [ys ->].
      cbn [bind]. eauto.
    + unfold single_trace.
      destruct (getitem_label rs_data t) as [xs ->];
        [apply Hin, in_app_iff; right; now left|].
      cbn [bind]. now rewrite (getitem_missing _ _ Ht).
  - destruct Hcase as [Hlt|[Hn Htf]]; [lia|].
    apply frame_loop_raise.
    + exists 0. split; [apply in_range_down; lia|].
      destruct (skipped (len rs_data) tail_points 0) eqn:Hs; [|reflexivity].
      apply skipped_iff_past_start in Hs; lia.
    + intros i Hi Hs. pose proof (kept_window _ _ _ Hs) as Hw.
      destruct (window_bounds (len rs_data) tail_points i) as [s e].
      cbn [fst snd] in *. unfold window_frame.
      destruct (iloc_inside _ (index rs_data) s) as (d0 & -> & _);
        [unfold len in Hw; lia|].
      destruct (iloc_inside _ (index rs_data) (e - 1)) as (d1 & -> & _);
        [unfold len in Hw; lia|].
      cbn [bind]. unfold traces. rewrite Hsplit.
      rewrite (for_each_append_raise _ _
                 (window_trace rs_data rsm_data s e) KeyError);
        [reflexivity| |].
      * rewrite Forall_forall in *. intros p Hp.
        apply window_trace_of_label; try assumption; try lia.
        -- apply Hin, in_app_iff. now left.
        -- now apply Hpre.
      * unfold window_trace.
        destruct (getitem_label rs_data t) as [xs ->];
          [apply Hin, in_app_iff; right; now left|].
        cbn [bind]. now rewrite (getitem_missing _ _ Ht).
Qed.

Lemma missing_momentum_column_witness :
  build_frames one_row (mkDataFrame [jan 1] [("A", [Fin 1])]) 3 10
  = Raise KeyError.
Proof.
  apply missing_momentum_column.
  - repeat constructor.
  - repeat constructor.
  - reflexivity.
  - exists "B". split; [simpl; tauto|].
    simpl. intros [H|[]]. discriminate H.
  - left. vm_compute. reflexivity.
Defined.

(* ===================================================================== *)
(** ** Further properties of the Metrics Engine *)
(* ===================================================================== *)

Lemma at_row_overflow (s : list xreal) (t : nat) :
  (length s <= t)%nat -> at_row s t = NaN.
Proof. intros H. unfold at_row. now apply nth_overflow. Qed.

Lemma normalize_column_prefix (base w : Z) (s : list xreal) (t : nat) :
  1 <= w -> Z.of_nat t < w - 1 -> at_row (normalize_column base w s) t = NaN.
Proof.
  intros Hw Ht. destruct (Nat.lt_ge_cases t (length s)) as [Hlen|Hlen].
  - rewrite at_row_normalize_column by assumption.
    now apply spec_normalized_prefix.
  - apply at_row_overflow. now rewrite length_normalize_column.
Qed.

Lemma padded_all_nan (f : nat -> xreal) (t : nat) :
  (forall j, (j <= t)%nat -> f j = NaN) -> padded f t = NaN.
Proof.
  induction t as [|t IH]; intros H; [apply H; lia|].
  change (padded f (S t))
    with (if is_nan (f (S t)) then padded f t else f (S t)).
  rewrite (H (S t)) by lia. cbn [is_nan]. apply IH. intros j Hj. apply H. lia.
Qed.

(** The rate of change of a normalised column is not-a-number on its first
    [window + 4] rows. *)
Lemma roc_column_prefix (w : Z) (s : list xreal) (k : nat) :
  1 <= w -> Z.of_nat k < w + 4 ->
  at_row (roc_column (normalize_column 100 w s)) k = NaN.
Proof.
  intros Hw Hk.
  destruct (Nat.lt_ge_cases k (length (normalize_column 100 w s)))
    as [Hlen|Hlen].
  - rewrite at_row_roc_column by assumption. unfold spec_roc.
    destruct (Nat.ltb_spec k 5); [reflexivity|].
    rewrite (padded_all_nan _ (k - 5)).
    + now rewrite xdiv_nan_r.
    + intros j Hj. apply normalize_column_prefix; lia.
  - apply at_row_overflow. now rewrite length_roc_column.
Qed.

Lemma momentum_column_prefix (w : Z) (s : list xreal) (t : nat) :
  1 <= w -> Z.of_nat t < 2 * w + 3 ->
  at_row (normalize_column 101 w (roc_column (normalize_column 100 w s))) t
  = NaN.
Proof.
  intros Hw Ht.
  set (roc := roc_column (normalize_column 100 w s)).
  destruct (Nat.lt_ge_cases t (length roc)) as [Hlen|Hlen].
  - rewrite at_row_normalize_column by assumption.
    destruct (Z.lt_ge_cases (Z.of_nat t) (w - 1)) as [Hs|Hs].
    + now apply spec_normalized_prefix.
    + apply spec_normalized_nan_in_window; [assumption|].
      exists (S t - Z.to_nat w)%nat. split; [lia|].
      apply roc_column_prefix; lia.
  - apply at_row_overflow. now rewrite length_normalize_column.
Qed.

(** X7: for a window of at least 1, the first [2 * window + 3] rows of
    every momentum column are not-a-number (the first [window - 1] rows of
    the ratio, 5 more for the rate of change, and [window - 1] more for its
    rolling statistics), whatever the prices are. *)
Theorem momentum_warm_up
        (benchmark_series : Series) (tickers_df : DataFrame) (window : Z) :
  1 <= window ->
  exists ratio momentum,
    calculate benchmark_series tickers_df window = Ok (ratio, momentum)
    /\ Forall
         (fun m => forall t, Z.of_nat t < 2 * window + 3 ->
                             at_row (snd m) t = NaN)
         (columns momentum).
Proof.
  intros Hw. eexists _, _. split; [apply calculate_columns; lia|].
  cbn [map_columns columns]. apply Forall_map, Forall_forall.
  intros c _ t Ht. cbn [snd]. now apply momentum_column_prefix.
Qed.

Lemma momentum_warm_up_witness :
  exists ratio momentum,
    calculate benchmark_gap eight_prices 2 = Ok (ratio, momentum)
    /\ Forall (fun m => forall t, Z.of_nat t < 7 -> at_row (snd m) t = NaN)
              (columns momentum).
Proof.
  apply (momentum_warm_up benchmark_gap eight_prices 2). lia.
Defined.

(** X8: with aligned inputs and a window of at least 1, a missing quote of
    the instrument or of the benchmark on row [t0] makes the ratio
    not-a-number on the rows [t0, ..., t0 + window - 1]. *)
Theorem missing_quote_voids_window
        (benchmark_series : Series) (tickers_df : DataFrame) (window : Z) :
  1 <= window ->
  index tickers_df = s_index benchmark_series ->
  rectangular tickers_df ->
  length (s_values benchmark_series) = length (s_index benchmark_series) ->
  exists ratio momentum,
    calculate benchmark_series tickers_df window = Ok (ratio, momentum)
    /\ Forall2
         (fun c r =>
            forall t0 t,
              at_row (snd c) t0 = NaN
              \/ at_row (s_values benchmark_series) t0 = NaN ->
              (t0 <= t)%nat -> Z.of_nat t < Z.of_nat t0 + window ->
              at_row (snd r) t = NaN)
         (columns tickers_df) (columns ratio).
Proof.
  intros Hw Hidx Hrect Hlen.
  eexists _, _. split; [apply calculate_columns; lia|].
  rewrite div_aligned by assumption.
  rewrite map_columns_compose. cbn [map_columns columns].
  apply Forall2_map_right. intros c Hc. cbn [fst snd].
  unfold rectangular in Hrect. rewrite Forall_forall in Hrect.
  pose proof (Hrect c Hc) as Hcl. rewrite Hidx in *.
  intros t0 t Hnan Hle Hlt.
  set (raw := map2 xdiv (snd c) (s_values benchmark_series)).
  assert (length raw = length (s_index benchmark_series)) as Hraw
      by (unfold raw; rewrite length_map2; lia).
  destruct (Nat.lt_ge_cases t (length raw)) as [Ht|Ht].
  - rewrite at_row_normalize_column by assumption.
    destruct (Z.lt_ge_cases (Z.of_nat t) (window - 1)) as [Hs|Hs].
    + now apply spec_normalized_prefix.
    + apply spec_normalized_nan_in_window; [assumption|].
      exists t0. split; [lia|].
      unfold raw. rewrite at_row_map2 by lia.
      destruct Hnan as [-> | ->]; [reflexivity | apply xdiv_nan_r].
  - apply at_row_overflow. now rewrite length_normalize_column.
Qed.

Lemma missing_quote_voids_window_witness :
  exists ratio momentum,
    calculate benchmark_gap eight_prices 2 = Ok (ratio, momentum)
    /\ exists r, map snd (columns ratio) = [r]
                 /\ at_row r 2 = NaN /\ at_row r 3 = NaN.
Proof.
  destruct (missing_quote_voids_window benchmark_gap eight_prices 2)
    as (ratio & momentum & Hrun & Hcols).
  - lia.
  - reflexivity.
  - repeat constructor.
  - reflexivity.
  - exists ratio, momentum. split; [exact Hrun|].
    remember (columns ratio) as cols eqn:Hc. clear Hc.
    inversion Hcols as [|c r cs rs Hr Hrest]; subst.
    inversion Hrest; subst.
    exists (snd r). split; [reflexivity|].
    split; apply (Hr 2%nat); try (right; reflexivity); lia.
Defined.

(** With a window of one observation, the normalised value is always
    not-a-number: a finite value equals its own mean (0/0), an infinite one
    gives [inf - inf]. *)
Lemma spec_normalized_window_one (base : Z) (f : nat -> xreal) (t : nat) :
  spec_normalized base 1 f t = NaN.
Proof.
  destruct (f t) as [p| | |] eqn:E.
  - apply (spec_normalized_constant base 1 f t p); [lia | lia |].
    intros k Hk. replace k with t by lia. exact E.
  - unfold spec_normalized, spec_rolling_mean, spec_window.
    destruct (Z.ltb_spec (Z.of_nat t) (1 - 1)); [lia|].
    change (Z.to_nat 1) with 1%nat. replace (S t - 1)%nat with t by lia.
    cbn [seq map]. rewrite E. cbn [xsum fold_right xadd xof_Z xdiv].
    destruct (Rlt_dec 1 0); [exfalso; lra|]. reflexivity.
  - unfold spec_normalized, spec_rolling_mean, spec_window.
    destruct (Z.ltb_spec (Z.of_nat t) (1 - 1)); [lia|].
    change (Z.to_nat 1) with 1%nat. replace (S t - 1)%nat with t by lia.
    cbn [seq map]. rewrite E. cbn [xsum fold_right xadd xof_Z xdiv].
    destruct (Rlt_dec 1 0); [exfalso; lra|]. reflexivity.
  - now apply spec_normalized_nan_row.
Qed.

Lemma normalize_column_window_one (base : Z) (s : list xreal) (t : nat) :
  at_row (normalize_column base 1 s) t = NaN.
Proof.
  destruct (Nat.lt_ge_cases t (length s)) as [Hlen|Hlen].
  - rewrite at_row_normalize_column by (assumption || lia).
    apply spec_normalized_window_one.
  - apply at_row_overflow. now rewrite length_normalize_column.
Qed.

(** X9: with a window of 1 the engine raises nothing and returns a ratio
    table and a momentum table whose entries are all not-a-number, whatever
    the prices are. *)
Theorem window_of_one_is_all_nan
        (benchmark_series : Series) (tickers_df : DataFrame) :
  exists ratio momentum,
    calculate benchmark_series tickers_df 1 = Ok (ratio, momentum)
    /\ all_nan ratio /\ all_nan momentum
    /\ column_labels ratio = column_labels tickers_df
    /\ column_labels momentum = column_labels tickers_df.
Proof.
  eexists _, _. split; [apply calculate_columns; lia|].
  assert (column_labels (div tickers_df benchmark_series)
          = column_labels tickers_df) as Hlab.
  { unfold div, column_labels, map_columns.
    destruct (index_eqb _ _); cbn [columns]; rewrite map_map;
      apply map_ext; reflexivity. }
  unfold all_nan, column_labels in *. cbn [map_columns columns].
  rewrite !map_map. cbn [fst].
  repeat split; try exact Hlab.
  - apply Forall_map, Forall_forall. intros c _ t. cbn [snd].
    apply normalize_column_window_one.
  - apply Forall_map, Forall_forall. intros c _ t. cbn [snd].
    apply normalize_column_window_one.
Qed.

Lemma rectangular_map_columns (f : list xreal -> list xreal) (df : DataFrame) :
  (forall s, length (f s) = length s) -> rectangular df ->
  rectangular (map_columns f df).
Proof.
  intros Hf Hr. unfold rectangular, map_columns in *. cbn [index columns].
  apply Forall_map. eapply Forall_impl; [|exact Hr].
  intros c Hc. cbn [snd]. now rewrite Hf.
Qed.

Lemma length_reindex (new_index old_index : list Timestamp) vals :
  length (reindex new_index old_index vals) = length new_index.
Proof. unfold reindex. apply length_map. Qed.

(** The table of raw ratios has one value per row of its index. *)
Lemma rectangular_div (tickers_df : DataFrame) (benchmark_series : Series) :
  rectangular tickers_df ->
  length (s_values benchmark_series) = length (s_index benchmark_series) ->
  rectangular (div tickers_df benchmark_series).
Proof.
  intros Hr Hlen. unfold div.
  destruct (index_eqb (index tickers_df) (s_index benchmark_series)) eqn:E.
  - apply index_eqb_eq in E. unfold rectangular, map_columns in *.
    cbn [index columns]. apply Forall_map. eapply Forall_impl; [|exact Hr].
    intros c Hc. cbn [snd]. rewrite length_map2. rewrite E in *. lia.
  - unfold rectangular. cbn [index columns]. apply Forall_map, Forall_forall.
    intros c _. cbn [snd]. rewrite length_map2, !length_reindex. lia.
Qed.

(** X10: the two tables [calculate] returns always have one shape, so the
    Frame Builder accepts them: for well-formed prices and any window of at
    least 0, tail and frame count, [build_frames] on the result of
    [calculate] returns frames and steps and raises nothing. *)
Theorem frames_from_metrics
        (benchmark_series : Series) (tickers_df : DataFrame)
        (window tail_points total_frames : Z) :
  0 <= window ->
  rectangular tickers_df ->
  length (s_values benchmark_series) = length (s_index benchmark_series) ->
  exists ratio momentum frames steps,
    calculate benchmark_series tickers_df window = Ok (ratio, momentum)
    /\ same_shape ratio momentum
    /\ build_frames ratio momentum tail_points total_frames
       = Ok (frames, steps).
Proof.
  intros Hw Hr Hlen.
  pose proof (rectangular_div _ _ Hr Hlen) as Hd.
  assert (same_shape
            (map_columns (normalize_column 100 window)
                         (div tickers_df benchmark_series))
            (map_columns (fun s => normalize_column 101 window
                                     (roc_column (normalize_column 100 window s)))
                         (div tickers_df benchmark_series))) as Hshape.
  { repeat split.
    - apply rectangular_map_columns; [|assumption].
      intros s. apply length_normalize_column.
    - apply rectangular_map_columns; [|assumption].
      intros s. now rewrite length_normalize_column, length_roc_column,
                  length_normalize_column.
    - unfold column_labels, map_columns. cbn [columns].
      rewrite !map_map. cbn [fst]. apply incl_refl. }
  destruct (build_frames_total _ _ tail_points total_frames Hshape)
    as (frames & steps & Hrun).
  eexists _, _, frames, steps.
  split; [apply calculate_columns; assumption|].
  split; assumption.
Qed.

Lemma frames_from_metrics_witness :
  exists ratio momentum frames steps,
    calculate benchmark_gap eight_prices 2 = Ok (ratio, momentum)
    /\ same_shape ratio momentum
    /\ build_frames ratio momentum 3 10 = Ok (frames, steps).
Proof.
  apply (frames_from_metrics benchmark_gap eight_prices 2 3 10).
  - lia.
  - repeat constructor.
  - reflexivity.
Defined.

(** X11: the figures of an instrument do not depend on the other
    instruments of the table: computed on a table that holds this column
    alone, its ratio and momentum columns are the ones computed on the whole
    table. *)
Theorem instrument_on_its_own
        (benchmark_series : Series) (tickers_df : DataFrame) (window : Z)
        (c : string * list xreal) :
  0 <= window -> In c (columns tickers_df) ->
  exists ratio momentum r m,
    calculate benchmark_series tickers_df window = Ok (ratio, momentum)
    /\ In (fst c, r) (columns ratio)
    /\ In (fst c, m) (columns momentum)
    /\ calculate benchmark_series (mkDataFrame (index tickers_df) [c]) window
       = Ok (mkDataFrame (index ratio) [(fst c, r)],
             mkDataFrame (index momentum) [(fst c, m)]).
Proof.
  intros Hw Hc.
  rewrite !calculate_columns by assumption.
  unfold div. cbn [index columns].
  destruct (index_eqb (index tickers_df) (s_index benchmark_series)).
  - eexists _, _, _, _. split; [reflexivity|].
    cbn [map_columns columns index map fst snd]. rewrite !map_map.
    split; [|split; [|reflexivity]].
    + apply in_map_iff. exists c. split; [reflexivity | assumption].
    + apply in_map_iff. exists c. split; [reflexivity | assumption].
  - eexists _, _, _, _. split; [reflexivity|].
    cbn [map_columns columns index map fst snd]. rewrite !map_map.
    split; [|split; [|reflexivity]].
    + apply in_map_iff. exists c. split; [reflexivity | assumption].
    + apply in_map_iff. exists c. split; [reflexivity | assumption].
Qed.

Lemma instrument_on_its_own_witness :
  exists ratio momentum r m,
    calculate benchmark_late one_row 2 = Ok (ratio, momentum)
    /\ In ("B", r) (columns ratio)
    /\ In ("B", m) (columns momentum)
    /\ calculate benchmark_late (mkDataFrame [jan 1] [("B", [Fin 2])]) 2
       = Ok (mkDataFrame (index ratio) [("B", r)],
             mkDataFrame (index momentum) [("B", m)]).
Proof.
  apply (instrument_on_its_own benchmark_late one_row 2 ("B", [Fin 2])).
  - lia.
  - simpl. tauto.
Defined.

(* ===================================================================== *)
(** ** No look-ahead *)
(* ===================================================================== *)

Lemma at_row_firstn (k : nat) (s : list xreal) (t : nat) :
  (t < k)%nat -> at_row (firstn k s) t = at_row s t.
Proof.
  intros Ht. unfold at_row. rewrite nth_firstn.
  destruct (Nat.ltb_spec t k); [reflexivity | lia].
Qed.

Lemma column_ext (a b : list xreal) :
  length a = length b ->
  (forall t, (t < length a)%nat -> at_row a t = at_row b t) -> a = b.
Proof.
  intros Hlen H. apply (nth_ext a b NaN NaN Hlen). exact H.
Qed.

Lemma padded_ext (f g : nat -> xreal) (t : nat) :
  (forall j, (j <= t)%nat -> f j = g j) -> padded f t = padded g t.
Proof.
  induction t as [|t IH]; intros H; cbn [padded].
  - apply H. lia.
  - rewrite (H (S t)) by lia. rewrite IH; [reflexivity|].
    intros j Hj. apply H. lia.
Qed.

Lemma spec_roc_ext (f g : nat -> xreal) (t : nat) :
  (forall j, (j <= t)%nat -> f j = g j) -> spec_roc f t = spec_roc g t.
Proof.
  intros H. unfold spec_roc. destruct (Nat.ltb_spec t 5); [reflexivity|].
  now rewrite (H t), (H (t - 5)%nat) by lia.
Qed.

Lemma map2_firstn f (k : nat) (a b : list xreal) :
  map2 f (firstn k a) (firstn k b) = firstn k (map2 f a b).
Proof.
  unfold map2. now rewrite <- combine_firstn, firstn_map.
Qed.

(** Normalising the first [k] rows gives the first [k] normalised rows. *)
Lemma normalize_column_firstn (base w : Z) (k : nat) (s : list xreal) :
  1 <= w ->
  normalize_column base w (firstn k s) = firstn k (normalize_column base w s).
Proof.
  intros Hw. apply column_ext.
  - rewrite length_firstn, !length_normalize_column, length_firstn.
    reflexivity.
  - intros t Ht. rewrite length_normalize_column, length_firstn in Ht.
    rewrite at_row_firstn by lia.
    rewrite !at_row_normalize_column by (rewrite ?length_firstn; lia).
    apply spec_normalized_ext. intros j Hj. apply at_row_firstn. lia.
Qed.

Lemma roc_column_firstn (k : nat) (s : list xreal) :
  roc_column (firstn k s) = firstn k (roc_column s).
Proof.
  apply column_ext.
  - rewrite length_firstn, !length_roc_column, length_firstn. reflexivity.
  - intros t Ht. rewrite length_roc_column, length_firstn in Ht.
    rewrite at_row_firstn by lia.
    rewrite !at_row_roc_column by (rewrite ?length_firstn; lia).
    apply spec_roc_ext. intros j Hj. apply padded_ext.
    intros i Hi. apply at_row_firstn. lia.
Qed.

(** X12: the engine never looks ahead.  For aligned inputs and a window of
    at least 1, running it on the first [k] rows of the prices gives exactly
    the first [k] rows of the ratio and momentum tables computed on all the
    rows: no figure of a row depends on a later row. *)
Theorem no_look_ahead
        (benchmark_series : Series) (tickers_df : DataFrame) (window : Z)
        (k : nat) :
  1 <= window ->
  index tickers_df = s_index benchmark_series ->
  exists ratio momentum,
    calculate benchmark_series tickers_df window = Ok (ratio, momentum)
    /\ calculate (first_values k benchmark_series) (first_rows k tickers_df)
                 window
       = Ok (first_rows k ratio, first_rows k momentum).
Proof.
  intros Hw Hidx. eexists _, _.
  split; [apply calculate_columns; lia|].
  rewrite calculate_columns by lia.
  rewrite !div_aligned
    by (assumption || (cbn [first_rows first_values index s_index];
                       now rewrite Hidx)).
  rewrite !map_columns_compose.
  unfold first_rows, first_values, map_columns.
  cbn [index columns s_values]. rewrite !map_map. cbn [fst snd].
  f_equal. f_equal.
  - f_equal. apply map_ext. intros c. f_equal.
    now rewrite map2_firstn, normalize_column_firstn.
  - f_equal. apply map_ext. intros c. f_equal.
    now rewrite map2_firstn, normalize_column_firstn, roc_column_firstn,
      normalize_column_firstn.
Qed.

Lemma no_look_ahead_witness :
  exists ratio momentum,
    calculate benchmark_gap eight_prices 2 = Ok (ratio, momentum)
    /\ calculate (first_values 4 benchmark_gap) (first_rows 4 eight_prices) 2
       = Ok (first_rows 4 ratio, first_rows 4 momentum).
Proof.
  apply (no_look_ahead benchmark_gap eight_prices 2 4).
  - lia.
  - reflexivity.
Defined.

(* ===================================================================== *)
(** ** Dictionaries and comprehensions *)
(* ===================================================================== *)

Lemma dict_get_set (V : Type) (d : list (string * V)) (k k' : string) (v : V) :
  dict_get (dict_set d k v) k'
  = if String.eqb k k' then Ok v else dict_get d k'.
Proof.
  induction d as [|[k0 v0] d IH]; cbn [dict_set dict_get].
  - reflexivity.
  - destruct (String.eqb_spec k0 k) as [->|Hne]; cbn [dict_get].
    + destruct (String.eqb k k'); reflexivity.
    + destruct (String.eqb_spec k0 k') as [->|Hne'].
      * destruct (String.eqb_spec k k'); [congruence | reflexivity].
      * exact IH.
Qed.

Lemma dict_get_raise (V : Type) (d : list (string * V)) (k : string) e :
  dict_get d k = Raise e -> e = KeyError /\ ~ In k (map fst d).
Proof.
  induction d as [|[k0 v0] d IH]; cbn [dict_get map fst In].
  - intros H. split; [congruence | tauto].
  - destruct (String.eqb_spec k0 k) as [->|Hne]; [discriminate|].
    intros H. destruct (IH H) as [-> Hnot]. split; [reflexivity | tauto].
Qed.

Lemma dict_get_in_keys (V : Type) (d : list (string * V)) (k : string) v :
  dict_get d k = Ok v -> In k (map fst d).
Proof.
  induction d as [|[k0 v0] d IH]; cbn [dict_get map fst In].
  - discriminate.
  - destruct (String.eqb_spec k0 k) as [->|Hne]; [now left|].
    intros H. right. now apply IH.
Qed.

Lemma dict_get_present (V : Type) (d : list (string * V)) (k : string) :
  In k (map fst d) -> exists v, dict_get d k = Ok v.
Proof.
  intros Hin. destruct (dict_get d k) as [v|e] eqn:E; [eauto|].
  apply dict_get_raise in E. tauto.
Qed.

Lemma dict_get_missing (V : Type) (d : list (string * V)) (k : string) :
  ~ In k (map fst d) -> dict_get d k = Raise KeyError.
Proof.
  intros Hnot. destruct (dict_get d k) as [v|e] eqn:E.
  - apply dict_get_in_keys in E. tauto.
  - apply dict_get_raise in E. now destruct E as [-> _].
Qed.

Lemma comprehension_inv (A B : Type) (f : A -> result B) xs l :
  comprehension xs f = Ok l -> Forall2 (fun a b => f a = Ok b) xs l.
Proof.
  intros H. apply for_each_append_inv in H. now destruct H as (l' & -> & Hl).
Qed.

Lemma comprehension_total (A B : Type) (f : A -> result B) xs l :
  Forall2 (fun a b => f a = Ok b) xs l -> comprehension xs f = Ok l.
Proof.
  intros H. unfold comprehension.
  now rewrite (for_each_append_total _ _ _ _ [] _ H).
Qed.

(** A comprehension raises the exception of the first element that raises. *)
Lemma comprehension_raise (A B : Type) (f : A -> result B) (e : exn) xs :
  Forall (fun a => (exists b, f a = Ok b) \/ f a = Raise e) xs ->
  Exists (fun a => f a = Raise e) xs ->
  comprehension xs f = Raise e.
Proof.
  unfold comprehension. intros Hall Hex.
  enough (forall acc,
             for_each xs acc (fun acc a => b <- f a ;; Ok (acc ++ [b]))
             = Raise e) as H by apply H.
  induction xs as [|a xs IH]; intros acc.
  - inversion Hex.
  - inversion Hall as [|? ? Ha Hrest]; subst. cbn [for_each].
    destruct Ha as [[b Hb]|Ha].
    + rewrite Hb. cbn [bind]. apply IH; [assumption|].
      inversion Hex as [? ? Hhere|? ? Hlater]; subst; [congruence|assumption].
    + now rewrite Ha.
Qed.

Lemma Forall2_eq_map (A B : Type) (g : A -> B) xs l :
  Forall2 (fun a b => b = g a) xs l -> l = map g xs.
Proof.
  induction 1 as [|a b xs l Hab Hrest IH]; cbn [map]; [reflexivity|].
  now rewrite Hab, IH.
Qed.

(* ===================================================================== *)
(** ** The loop of [plot] over the frequencies *)
(* ===================================================================== *)

Lemma frames_for_inv freq_rs freq_rsm tail frame k d :
  frames_for freq_rs freq_rsm tail frame k = Ok d ->
  exists rs_data rsm_data,
    dict_get freq_rs k = Ok rs_data /\ dict_get freq_rsm k = Ok rsm_data
    /\ build_frames rs_data rsm_data tail frame = Ok d.
Proof.
  unfold frames_for. intros H.
  destruct (dict_get freq_rs k) as [a|] eqn:Ea; [|discriminate].
  destruct (dict_get freq_rsm k) as [b|] eqn:Eb; [|discriminate].
  cbn [bind] in H. eauto.
Qed.

Lemma frames_for_ready freq_rs freq_rsm tail frame k :
  frequencies_ready freq_rs freq_rsm -> In k (map fst freq_rs) ->
  exists rs_data rsm_data d,
    dict_get freq_rs k = Ok rs_data /\ dict_get freq_rsm k = Ok rsm_data
    /\ same_shape rs_data rsm_data
    /\ build_frames rs_data rsm_data tail frame = Ok d
    /\ frames_for freq_rs freq_rsm tail frame k = Ok d.
Proof.
  intros Hready Hin.
  destruct (dict_get_present _ _ _ Hin) as [rs_data Ha].
  destruct (Hready _ _ Ha) as (rsm_data & Hb & Hshape).
  destruct (build_frames_total _ _ tail frame Hshape) as (F & S & Hrun).
  exists rs_data, rsm_data, (F, S). unfold frames_for.
  rewrite Ha, Hb. cbn [bind]. tauto.
Qed.

Section PlotLoop.

Variables freq_rs freq_rsm : list (string * DataFrame).
Variables tail frame : Z.

Lemma plot_step_eq ff ts k :
  plot_step freq_rs freq_rsm tail frame (ff, ts) k =
  fs <- frames_for freq_rs freq_rsm tail frame k ;;
  Ok (dict_set ff k fs, dict_set ts k (time_slider (snd fs))).
Proof.
  unfold plot_step, frames_for.
  destruct (dict_get freq_rs k) as [a|]; [|reflexivity].
  destruct (dict_get freq_rsm k) as [b|]; [|reflexivity].
  cbn [bind]. destruct (build_frames a b tail frame) as [[F S]|]; reflexivity.
Qed.

Lemma stored_empty : stored freq_rs freq_rsm tail frame [] [].
Proof. intros k d H. discriminate. Qed.

Lemma stored_set ff ts k fs :
  stored freq_rs freq_rsm tail frame ff ts ->
  frames_for freq_rs freq_rsm tail frame k = Ok fs ->
  stored freq_rs freq_rsm tail frame
         (dict_set ff k fs) (dict_set ts k (time_slider (snd fs))).
Proof.
  intros Hst Hfs k' d. rewrite !dict_get_set.
  destruct (String.eqb_spec k k') as [->|Hne].
  - intros H. inversion H; subst. tauto.
  - apply Hst.
Qed.

(** What the loop leaves in [freq_frames] and [time_sliders]. *)
Lemma plot_loop_inv :
  forall keys ff0 ts0 ff ts,
    for_each keys (ff0, ts0) (plot_step freq_rs freq_rsm tail frame)
    = Ok (ff, ts) ->
    stored freq_rs freq_rsm tail frame ff0 ts0 ->
    stored freq_rs freq_rsm tail frame ff ts
    /\ (forall k, In k keys \/ (exists d, dict_get ff0 k = Ok d) ->
                  exists d, dict_get ff k = Ok d)
    /\ (forall k d, dict_get ff k = Ok d ->
                    In k keys \/ exists d0, dict_get ff0 k = Ok d0).
Proof.
  induction keys as [|k0 keys IH]; intros ff0 ts0 ff ts Hrun Hst.
  - cbn [for_each] in Hrun. inversion Hrun; subst.
    split; [assumption|]. split.
    + intros k [[]|H]. exact H.
    + intros k d H. right. eauto.
  - rewrite for_each_cons, plot_step_eq in Hrun.
    destruct (frames_for freq_rs freq_rsm tail frame k0) as [fs|] eqn:Efs;
      [|discriminate].
    cbn [bind] in Hrun.
    destruct (IH _ _ _ _ Hrun (stored_set _ _ _ _ Hst Efs))
      as (Hst' & Hdom & Hkeys).
    split; [assumption|]. split.
    + intros k Hk. apply Hdom. rewrite dict_get_set.
      destruct (String.eqb_spec k0 k) as [->|Hne]; [right; eauto|].
      destruct Hk as [[Heq|Hin]|Hold]; [congruence | now left | now right].
    + intros k d Hd. destruct (Hkeys _ _ Hd) as [Hin|[d0 Hd0]].
      * left. now right.
      * rewrite dict_get_set in Hd0.
        destruct (String.eqb_spec k0 k) as [->|Hne];
          [left; now left | right; eauto].
Qed.

Lemma plot_loop_total :
  forall keys ff0 ts0,
    Forall (fun k => exists fs, frames_for freq_rs freq_rsm tail frame k = Ok fs)
           keys ->
    exists ff ts,
      for_each keys (ff0, ts0) (plot_step freq_rs freq_rsm tail frame)
      = Ok (ff, ts).
Proof.
  induction keys as [|k0 keys IH]; intros ff0 ts0 Hall.
  - exists ff0, ts0. reflexivity.
  - inversion Hall as [|? ? [fs Hfs] Hrest]; subst.
    rewrite for_each_cons, plot_step_eq, Hfs. cbn [bind]. now apply IH.
Qed.

(** The loop over the keys of [freq_rs], from the two empty dictionaries. *)
Lemma plot_loop_keys ff ts :
  for_each (map fst freq_rs) ([], []) (plot_step freq_rs freq_rsm tail frame)
  = Ok (ff, ts) ->
  stored freq_rs freq_rsm tail frame ff ts
  /\ (forall k, In k (map fst freq_rs) <-> exists d, dict_get ff k = Ok d).
Proof.
  intros Hrun.
  destruct (plot_loop_inv _ _ _ _ _ Hrun stored_empty) as (Hst & Hdom & Hkeys).
  split; [assumption|]. intros k. split.
  - intros Hin. apply Hdom. now left.
  - intros [d Hd]. destruct (Hkeys _ _ Hd) as [Hin|[d0 Hd0]];
      [assumption | discriminate].
Qed.

Lemma plot_loop_ready :
  frequencies_ready freq_rs freq_rsm ->
  exists ff ts,
    for_each (map fst freq_rs) ([], []) (plot_step freq_rs freq_rsm tail frame)
    = Ok (ff, ts).
Proof.
  intros Hready. apply plot_loop_total. apply Forall_forall. intros k Hin.
  destruct (frames_for_ready _ _ tail frame _ Hready Hin)
    as (a & b & d & _ & _ & _ & _ & Hd). eauto.
Qed.

End PlotLoop.

(* ===================================================================== *)
(** ** The last frame of a frequency *)
(* ===================================================================== *)

Lemma last_frame_data_app frames fr :
  last_frame_data (frames ++ [fr]) = Ok (data fr).
Proof.
  unfold last_frame_data.
  destruct (iloc_from_end _ (frames ++ [fr]) 1) as (a & Ha & Hnth).
  { rewrite length_app. cbn [length]. lia. }
  change (- (1)) with (-1) in Ha. rewrite Ha. cbn [bind].
  rewrite length_app in Hnth. cbn [length] in Hnth.
  replace (length frames + 1 - Z.to_nat 1)%nat with (length frames) in Hnth
    by lia.
  rewrite nth_error_app2, Nat.sub_diag in Hnth by lia.
  cbn in Hnth. congruence.
Qed.

Lemma last_frame_data_inv frames dat :
  last_frame_data frames = Ok dat ->
  exists front fr, frames = front ++ [fr] /\ dat = data fr.
Proof.
  destruct frames as [|f0 frames] using rev_ind.
  - discriminate.
  - rewrite last_frame_data_app. intros H. inversion H; subst. eauto.
Qed.

Lemma initial_data_of_app frames fr :
  initial_data_of (frames ++ [fr]) = Ok (data fr).
Proof.
  unfold initial_data_of. rewrite <- (last_frame_data_app frames fr).
  destruct frames; reflexivity.
Qed.

Lemma tail_step_eq ff frames fr steps tval :
  dict_get ff default_freq = Ok (frames ++ [fr], steps) ->
  tail_step ff tval = Ok (UpdateStep (str tval) (frames ++ [fr]) (data fr)).
Proof.
  intros H. unfold tail_step. rewrite H. cbn [bind fst].
  now rewrite last_frame_data_app.
Qed.

Lemma tail_step_empty ff steps tval :
  dict_get ff default_freq = Ok ([], steps) ->
  tail_step ff tval = Raise IndexError.
Proof. intros H. unfold tail_step. now rewrite H. Qed.

Lemma freq_button_eq ff ts tail_slider k frames fr steps s :
  dict_get ff k = Ok (frames ++ [fr], steps) ->
  dict_get ts k = Ok s ->
  freq_button ff ts tail_slider k
  = Ok (UpdateButton k (frames ++ [fr]) (data fr) [tail_slider; s]).
Proof.
  intros H Hs. unfold freq_button. rewrite H. cbn [bind fst].
  rewrite last_frame_data_app. cbn [bind]. now rewrite Hs.
Qed.

Lemma freq_button_empty ff ts tail_slider k steps :
  dict_get ff k = Ok ([], steps) ->
  freq_button ff ts tail_slider k = Raise IndexError.
Proof. intros H. unfold freq_button. now rewrite H. Qed.

Lemma freq_button_inv ff ts tail_slider k b :
  freq_button ff ts tail_slider k = Ok b ->
  exists frames fr steps s,
    dict_get ff k = Ok (frames ++ [fr], steps)
    /\ dict_get ts k = Ok s
    /\ b = UpdateButton k (frames ++ [fr]) (data fr) [tail_slider; s].
Proof.
  unfold freq_button. intros H.
  destruct (dict_get ff k) as [[F S]|] eqn:Ed; [|discriminate].
  cbn [bind fst] in H.
  destruct (last_frame_data F) as [dat|] eqn:El; [|discriminate].
  cbn [bind] in H.
  destruct (dict_get ts k) as [s|] eqn:Es; [|discriminate].
  cbn [bind] in H. inversion H; subst.
  apply last_frame_data_inv in El. destruct El as (front & fr & -> & ->).
  eauto 10.
Qed.

(** With two or more rows, a tail of 0 or less or a negative frame count
    leaves no frame. *)
Lemma build_frames_empty rs_data rsm_data n total_frames :
  2 <= len rs_data -> n <= 0 \/ total_frames < 0 ->
  build_frames rs_data rsm_data n total_frames = Ok ([], []).
Proof.
  intros HL Hn. unfold build_frames.
  destruct (Z.ltb_spec (len rs_data) 2); [lia|].
  rewrite (frame_loop_total rs_data rsm_data n
             (range_down total_frames) [] [] []); [reflexivity|].
  destruct Hn as [Hn|Hn].
  - rewrite kept_without_tail by assumption. constructor.
  - rewrite range_down_negative by assumption. constructor.
Qed.

(** Otherwise the last frame and the last step belong together. *)
Lemma build_frames_nonempty rs_data rsm_data n total_frames :
  same_shape rs_data rsm_data ->
  len rs_data < 2 \/ (1 <= n /\ 0 <= total_frames) ->
  exists frames fr steps st,
    build_frames rs_data rsm_data n total_frames
    = Ok (frames ++ [fr], steps ++ [st])
    /\ length steps = length frames
    /\ args_frames st = [frame_name fr].
Proof.
  intros Hshape Hcase.
  destruct (Z.lt_ge_cases (len rs_data) 2) as [HL|HL].
  - destruct Hshape as (_ & _ & _ & Hincl).
    destruct (build_frames_single rs_data rsm_data n total_frames HL Hincl)
      as (sd & _ & Hrun).
    exists [], (mkFrame sd "SingleFrame"), [],
      (mkStep ["SingleFrame"] None "SingleFrame" "animate").
    now rewrite Hrun.
  - destruct Hcase as [Hlt|[Hn Htf]]; [lia|].
    destruct (build_frames_general rs_data rsm_data n total_frames HL Hshape)
      as (new & Hrun & Hnew).
    rewrite (kept_range_down _ _ _ Hn) in Hnew.
    destruct (range_down_last (Z.min total_frames (len rs_data - 1)))
      as [l Hl]; [lia|].
    rewrite Hl in Hnew. apply Forall2_app_inv_l in Hnew.
    destruct Hnew as (new1 & new2 & _ & Hlast & ->).
    inversion Hlast as [|? fs ? ? Hfs Hnil]; subst.
    inversion Hnil; subst.
    exists (map fst new1), (fst fs), (map snd new1), (snd fs).
    rewrite Hrun, !map_app. cbn [map]. split; [reflexivity|].
    split; [now rewrite !length_map|].
    now rewrite (emitted_step _ _ _ _ _ Hfs).
Qed.

Lemma time_slider_last steps st :
  active (time_slider (steps ++ [st])) = Z.of_nat (length steps)
  /\ iloc (step_list (time_slider (steps ++ [st])))
          (active (time_slider (steps ++ [st]))) = Ok (AnimateStep st).
Proof.
  assert (active (time_slider (steps ++ [st])) = Z.of_nat (length steps))
    as Hact.
  { unfold time_slider. cbn [active].
    destruct (steps ++ [st]) eqn:E.
    - now destruct steps.
    - rewrite <- E, length_app. cbn [length]. lia. }
  split; [assumption|]. rewrite Hact. unfold time_slider. cbn [step_list].
  rewrite map_app. cbn [map]. unfold iloc.
  rewrite length_app, length_map. cbn [length].
  destruct (Z.ltb_spec (Z.of_nat (length steps)) 0); [lia|].
  destruct (Z.ltb_spec (Z.of_nat (length steps)) 0); [lia|].
  destruct (Z.leb_spec (Z.of_nat (length steps + 1)) (Z.of_nat (length steps)));
    [lia|].
  cbn [orb]. rewrite Nat2Z.id, nth_error_app2 by (rewrite length_map; lia).
  now rewrite length_map, Nat.sub_diag.
Qed.

Lemma Forall2_in_l (A B : Type) (P : A -> B -> Prop) xs ys a :
  Forall2 P xs ys -> In a xs -> exists b, In b ys /\ P a b.
Proof.
  induction 1 as [|a' b' xs ys Hab Hrest IH]; intros Hin; [destruct Hin|].
  destruct Hin as [->|Hin].
  - exists b'. split; [now left | assumption].
  - destruct (IH Hin) as (b & Hb & HP). exists b. split; [now right | assumption].
Qed.

(* ===================================================================== *)
(** ** The figure *)
(* ===================================================================== *)

(** The ten steps of the tail slider, when the default frequency has a
    frame. *)
Lemma tail_steps_eq ff frames fr steps :
  dict_get ff default_freq = Ok (frames ++ [fr], steps) ->
  comprehension (map Z.of_nat (seq 1 10)) (tail_step ff)
  = Ok (map (fun l => UpdateStep l (frames ++ [fr]) (data fr))
            ["1"; "2"; "3"; "4"; "5"; "6"; "7"; "8"; "9"; "10"]).
Proof.
  intros Hd. apply comprehension_total.
  change ["1"; "2"; "3"; "4"; "5"; "6"; "7"; "8"; "9"; "10"]
    with (map str (map Z.of_nat (seq 1 10))).
  rewrite map_map. apply Forall2_map_right. intros tval _.
  now apply tail_step_eq with steps.
Qed.

(** Every step of [plot], when it returns a figure. *)
Lemma plot_inv rs_input rsm_input tail frame fig :
  plot rs_input rsm_input tail frame = Ok fig ->
  exists freq_rs freq_rsm ff ts frames fr steps tail_steps default_slider
         freq_buttons,
    rs_input = PyDict freq_rs /\ rsm_input = PyDict freq_rsm
    /\ for_each (map fst freq_rs) ([], [])
                (plot_step freq_rs freq_rsm tail frame) = Ok (ff, ts)
    /\ dict_get ff default_freq = Ok (frames ++ [fr], steps)
    /\ tail_steps
       = map (fun l => UpdateStep l (frames ++ [fr]) (data fr))
             ["1"; "2"; "3"; "4"; "5"; "6"; "7"; "8"; "9"; "10"]
    /\ dict_get ts default_freq = Ok default_slider
    /\ Forall2 (fun k b =>
                  freq_button ff ts (tail_slider_of tail tail_steps) k = Ok b)
               (map fst freq_rs) freq_buttons
    /\ fig = mkFigDict (data fr)
               (layout_of (tail_slider_of tail tail_steps) default_slider
                          freq_buttons)
               (frames ++ [fr]).
Proof.
  unfold plot. intros H.
  destruct rs_input as [freq_rs|]; [|discriminate].
  destruct rsm_input as [freq_rsm|]; [|discriminate].
  destruct (for_each _ _ _) as [[ff ts]|] eqn:Eloop; [|discriminate].
  cbn [bind] in H.
  destruct (dict_get ff default_freq) as [[F S]|] eqn:Ed; [|discriminate].
  cbn [bind] in H.
  destruct (initial_data_of F) as [idata|] eqn:Ei; [|discriminate].
  cbn [bind] in H.
  destruct (comprehension _ (tail_step ff)) as [tail_steps|] eqn:Et;
    [|discriminate].
  cbn [bind] in H.
  destruct (dict_get ts default_freq) as [ds|] eqn:Es; [|discriminate].
  cbn [bind] in H.
  destruct (comprehension _ (freq_button _ _ _)) as [fb|] eqn:Eb;
    [|discriminate].
  cbn [bind] in H. inversion H; subst fig. clear H.
  assert (exists front fr, F = front ++ [fr]) as (front & fr & ->).
  { destruct F as [|f0 F _] using rev_ind; [|eauto].
    exfalso. apply comprehension_inv in Et. cbn [seq map] in Et.
    inversion Et as [|? s1 ? ? Hs1 _]; subst.
    now rewrite (tail_step_empty _ _ _ Ed) in Hs1. }
  rewrite initial_data_of_app in Ei. inversion Ei; subst idata.
  rewrite (tail_steps_eq _ _ _ _ Ed) in Et. inversion Et; subst tail_steps.
  apply comprehension_inv in Eb.
  exists freq_rs, freq_rsm, ff, ts, front, fr, S. eexists _, ds, fb.
  repeat (split; [reflexivity || eassumption|]). reflexivity.
Qed.

(** The run of [plot] once the loop has filled the two dictionaries. *)
Lemma plot_run freq_rs freq_rsm tail frame ff ts frames fr steps ds fb :
  for_each (map fst freq_rs) ([], [])
           (plot_step freq_rs freq_rsm tail frame) = Ok (ff, ts) ->
  dict_get ff default_freq = Ok (frames ++ [fr], steps) ->
  dict_get ts default_freq = Ok ds ->
  comprehension (map fst freq_rs)
    (freq_button ff ts
       (tail_slider_of tail
          (map (fun l => UpdateStep l (frames ++ [fr]) (data fr))
               ["1"; "2"; "3"; "4"; "5"; "6"; "7"; "8"; "9"; "10"]))) = fb ->
  plot (PyDict freq_rs) (PyDict freq_rsm) tail frame =
  freq_buttons <- fb ;;
  Ok (mkFigDict (data fr)
        (layout_of
           (tail_slider_of tail
              (map (fun l => UpdateStep l (frames ++ [fr]) (data fr))
                   ["1"; "2"; "3"; "4"; "5"; "6"; "7"; "8"; "9"; "10"]))
           ds freq_buttons)
        (frames ++ [fr])).
Proof.
  intros Hloop Hd Hs <-. unfold plot. rewrite Hloop. cbn [bind].
  rewrite Hd. cbn [bind]. rewrite initial_data_of_app. cbn [bind].
  rewrite (tail_steps_eq _ _ _ _ Hd). cbn [bind]. rewrite Hs. cbn [bind].
  reflexivity.
Qed.

(** With ready tables, a tail of at least 1 and a frame count of at least 0,
    every frequency has a last frame and a last step, which belong
    together. *)
Lemma ready_frames_stored freq_rs freq_rsm tail frame ff ts k d :
  frequencies_ready freq_rs freq_rsm -> 1 <= tail -> 0 <= frame ->
  stored freq_rs freq_rsm tail frame ff ts ->
  dict_get ff k = Ok d ->
  exists frames fr steps st,
    d = (frames ++ [fr], steps ++ [st])
    /\ dict_get ts k = Ok (time_slider (steps ++ [st]))
    /\ args_frames st = [frame_name fr].
Proof.
  intros Hready Htail Hframe Hst Hd.
  destruct (Hst _ _ Hd) as [Hfor Hts].
  apply frames_for_inv in Hfor. destruct Hfor as (a & b & Ha & Hb & Hrun).
  destruct (Hready _ _ Ha) as (b' & Hb' & Hshape).
  rewrite Hb in Hb'. inversion Hb'; subst b'.
  destruct (build_frames_nonempty a b tail frame Hshape)
    as (F & fr & S & st & Hrun' & _ & Hargs).
  { destruct (Z.lt_ge_cases (len a) 2); [now left | right; lia]. }
  rewrite Hrun in Hrun'. inversion Hrun'; subst d. cbn [snd] in Hts.
  eauto 10.
Qed.

Lemma plot_total freq_rs freq_rsm tail frame :
  frequencies_ready freq_rs freq_rsm ->
  In default_freq (map fst freq_rs) ->
  1 <= tail -> 0 <= frame ->
  exists fig, plot (PyDict freq_rs) (PyDict freq_rsm) tail frame = Ok fig.
Proof.
  intros Hready Hdaily Htail Hframe.
  destruct (plot_loop_ready _ _ tail frame Hready) as (ff & ts & Hloop).
  destruct (plot_loop_keys _ _ _ _ _ _ Hloop) as [Hst Hdom].
  destruct (proj1 (Hdom _) Hdaily) as [d Hd].
  destruct (ready_frames_stored _ _ _ _ _ _ _ _ Hready Htail Hframe Hst Hd)
    as (frames & fr & steps & st & -> & Hts & _).
  rewrite (plot_run _ _ _ _ _ _ _ _ _ _ _ Hloop Hd Hts eq_refl).
  match goal with
  | |- context [comprehension ?xs ?f] =>
      destruct (Forall2_total _ _ (fun k b => f k = Ok b) xs) as [fb Hfb]
  end.
  { intros k Hin. destruct (proj1 (Hdom _) Hin) as [dk Hdk].
    destruct (ready_frames_stored _ _ _ _ _ _ _ _ Hready Htail Hframe Hst Hdk)
      as (F & f & S & s & -> & Hs & _).
    rewrite (freq_button_eq _ _ _ _ _ _ _ _ Hdk Hs). eauto. }
  rewrite (comprehension_total _ _ _ _ _ Hfb). cbn [bind]. eauto.
Qed.

Lemma three_frequencies_ready :
  frequencies_ready three_frequencies three_momentum.
Proof.
  intros k rs_data H. unfold three_frequencies in H. cbn [dict_get] in H.
  destruct (String.eqb_spec "Daily" k) as [<-|_].
  { inversion H; subst. exists five_rows.
    split; [reflexivity | apply same_shape_five_rows]. }
  destruct (String.eqb_spec "Weekly" k) as [<-|_].
  { inversion H; subst. exists two_rows_momentum.
    split; [reflexivity | apply same_shape_two_rows]. }
  destruct (String.eqb_spec "Monthly" k) as [<-|_]; [|discriminate].
  inversion H; subst. exists one_row.
  split; [reflexivity | apply same_shape_one_row].
Qed.

Lemma weekly_only_ready : frequencies_ready weekly_only three_momentum.
Proof.
  intros k rs_data H. unfold weekly_only in H. cbn [dict_get] in H.
  destruct (String.eqb_spec "Weekly" k) as [<-|_]; [|discriminate].
  inversion H; subst. exists two_rows_momentum.
  split; [reflexivity | apply same_shape_two_rows].
Qed.

(** X13: with a momentum table of the same shape for every frequency, a
    "Daily" frequency, a tail of at least 1 and a frame count of at least 0,
    [plot] returns a figure that opens on the most recent Daily window: its
    frames are the Daily frames of the Frame Builder, its traces are those of
    the last Daily frame, and the active step of the time slider is the last
    step, the one addressed by the key of that frame. *)
Theorem plot_opens_on_latest_window
        (freq_rs freq_rsm : list (string * DataFrame)) (tail frame : Z)
        (rs_daily rsm_daily : DataFrame) :
  frequencies_ready freq_rs freq_rsm ->
  dict_get freq_rs "Daily" = Ok rs_daily ->
  dict_get freq_rsm "Daily" = Ok rsm_daily ->
  1 <= tail -> 0 <= frame ->
  exists fig frames fr steps st tail_slider,
    plot (PyDict freq_rs) (PyDict freq_rsm) tail frame = Ok fig
    /\ build_frames rs_daily rsm_daily tail frame
       = Ok (frames ++ [fr], steps ++ [st])
    /\ fig_frames fig = frames ++ [fr]
    /\ fig_data fig = data fr
    /\ sliders (fig_layout fig) = [tail_slider; time_slider (steps ++ [st])]
    /\ iloc (step_list (time_slider (steps ++ [st])))
            (active (time_slider (steps ++ [st]))) = Ok (AnimateStep st)
    /\ args_frames st = [frame_name fr].
Proof.
  intros Hready Hrs Hrsm Htail Hframe.
  destruct (plot_total _ _ tail frame Hready
              (dict_get_in_keys _ _ _ _ Hrs) Htail Hframe) as [fig Hfig].
  destruct (plot_inv _ _ _ _ _ Hfig)
    as (rs' & rsm' & ff & ts & frames & fr & steps & tsteps & ds & fb
        & Ers & Ersm & Hloop & Hd & _ & Hds & _ & ->).
  inversion Ers; subst rs'. inversion Ersm; subst rsm'.
  destruct (plot_loop_keys _ _ _ _ _ _ Hloop) as [Hst _].
  destruct (ready_frames_stored _ _ _ _ _ _ _ _ Hready Htail Hframe Hst Hd)
    as (F & f & S & st & Heq & Hts & Hargs).
  inversion Heq as [[HF HS]]. apply app_inj_tail in HF.
  destruct HF as [<- <-]. subst steps.
  rewrite Hts in Hds. inversion Hds; subst ds.
  destruct (Hst _ _ Hd) as [Hfor _]. unfold frames_for in Hfor.
  change default_freq with "Daily" in Hfor.
  rewrite Hrs, Hrsm in Hfor. cbn [bind] in Hfor.
  exists (mkFigDict (data fr)
            (layout_of (tail_slider_of tail tsteps)
                       (time_slider (S ++ [st])) fb)
            (frames ++ [fr])),
    frames, fr, S, st, (tail_slider_of tail tsteps).
  split; [assumption|]. split; [assumption|].
  split; [reflexivity|]. split; [reflexivity|]. split; [reflexivity|].
  split; [apply time_slider_last | assumption].
Qed.

Lemma plot_opens_on_latest_window_witness :
  exists fig frames fr steps st tail_slider,
    plot (PyDict three_frequencies) (PyDict three_momentum) 3 10 = Ok fig
    /\ build_frames five_rows five_rows 3 10
       = Ok (frames ++ [fr], steps ++ [st])
    /\ fig_frames fig = frames ++ [fr]
    /\ fig_data fig = data fr
    /\ sliders (fig_layout fig) = [tail_slider; time_slider (steps ++ [st])]
    /\ iloc (step_list (time_slider (steps ++ [st])))
            (active (time_slider (steps ++ [st]))) = Ok (AnimateStep st)
    /\ args_frames st = [frame_name fr].
Proof.
  apply (plot_opens_on_latest_window three_frequencies three_momentum 3 10);
    [apply three_frequencies_ready | reflexivity | reflexivity | lia | lia].
Defined.

(** X14: whatever figure [plot] returns, its first slider is the tail slider
    with the ten steps labelled "1" to "10", and every one of these steps
    carries the frames and the traces the figure starts with: none of them
    depends on its tail value.  The active step is [tail - 1] for a tail
    between 1 and 10 and the third step otherwise. *)
Theorem tail_slider_is_inert
        (rs_input rsm_input : pyobj) (tail frame : Z) (fig : FigDict) :
  plot rs_input rsm_input tail frame = Ok fig ->
  exists tail_slider default_slider,
    sliders (fig_layout fig) = [tail_slider; default_slider]
    /\ step_list tail_slider
       = map (fun l => UpdateStep l (fig_frames fig) (fig_data fig))
             ["1"; "2"; "3"; "4"; "5"; "6"; "7"; "8"; "9"; "10"]
    /\ active tail_slider
       = (if (1 <=? tail) && (tail <=? 10) then tail - 1 else 2)
    /\ 0 <= active tail_slider <= 9.
Proof.
  intros Hfig.
  destruct (plot_inv _ _ _ _ _ Hfig)
    as (freq_rs & freq_rsm & ff & ts & frames & fr & steps & tsteps & ds & fb
        & _ & _ & _ & _ & Hsteps & _ & _ & ->).
  exists (tail_slider_of tail tsteps), ds.
  split; [reflexivity|]. split; [exact Hsteps|].
  split; [reflexivity|]. cbn [tail_slider_of active].
  destruct (Z.leb_spec 1 tail); destruct (Z.leb_spec tail 10);
    cbn [andb]; lia.
Qed.

Lemma tail_slider_is_inert_witness :
  exists fig,
    plot (PyDict short_frequencies) (PyDict short_frequencies) 3 10 = Ok fig
    /\ exists tail_slider default_slider,
         sliders (fig_layout fig) = [tail_slider; default_slider]
         /\ step_list tail_slider
            = map (fun l => UpdateStep l (fig_frames fig) (fig_data fig))
                  ["1"; "2"; "3"; "4"; "5"; "6"; "7"; "8"; "9"; "10"]
         /\ active tail_slider = (if (1 <=? 3) && (3 <=? 10) then 3 - 1 else 2)
         /\ 0 <= active tail_slider <= 9.
Proof.
  eexists. split; [vm_compute; reflexivity|].
  apply (tail_slider_is_inert (PyDict short_frequencies)
                              (PyDict short_frequencies) 3 10).
  vm_compute. reflexivity.
Defined.

(** X15: whatever figure [plot] returns, its frequency menu has one button
    per key of the ratio dictionary, in the order of the keys; the button of
    a key is labelled with the key and carries the frames the Frame Builder
    returns for the tables of that key, the traces of the last of these
    frames, the tail slider of the figure and the time slider made of the
    steps of that key.  The second menu is the Play / Pause menu. *)
Theorem frequency_buttons
        (freq_rs freq_rsm : list (string * DataFrame)) (tail frame : Z)
        (fig : FigDict) :
  plot (PyDict freq_rs) (PyDict freq_rsm) tail frame = Ok fig ->
  exists tail_slider default_slider freq_menu,
    sliders (fig_layout fig) = [tail_slider; default_slider]
    /\ updatemenus (fig_layout fig) = [freq_menu; play_pause_menu]
    /\ Forall2
         (fun k b =>
            exists rs_data rsm_data frames fr steps,
              dict_get freq_rs k = Ok rs_data
              /\ dict_get freq_rsm k = Ok rsm_data
              /\ build_frames rs_data rsm_data tail frame
                 = Ok (frames ++ [fr], steps)
              /\ b = UpdateButton k (frames ++ [fr]) (data fr)
                                  [tail_slider; time_slider steps])
         (map fst freq_rs) (buttons freq_menu).
Proof.
  intros Hfig.
  destruct (plot_inv _ _ _ _ _ Hfig)
    as (rs' & rsm' & ff & ts & frames & fr & steps & tsteps & ds & fb
        & Ers & Ersm & Hloop & _ & _ & _ & Hfb & ->).
  inversion Ers; subst rs'. inversion Ersm; subst rsm'.
  destruct (plot_loop_keys _ _ _ _ _ _ Hloop) as [Hst _].
  eexists (tail_slider_of tail tsteps), ds, _.
  split; [reflexivity|]. split; [reflexivity|]. cbn [buttons].
  apply (Forall2_impl_in _ _ _ _ _ _ Hfb). intros k b _ Hb.
  apply freq_button_inv in Hb.
  destruct Hb as (F & f & S & s & Hd & Hs & ->).
  destruct (Hst _ _ Hd) as [Hfor Hts]. cbn [snd] in Hts.
  rewrite Hts in Hs. inversion Hs; subst s.
  apply frames_for_inv in Hfor. destruct Hfor as (a & b & Ha & Hb & Hrun).
  exists a, b, F, f, S. tauto.
Qed.

Lemma frequency_buttons_witness :
  exists fig,
    plot (PyDict short_frequencies) (PyDict short_frequencies) 3 10 = Ok fig
    /\ exists tail_slider default_slider freq_menu,
         sliders (fig_layout fig) = [tail_slider; default_slider]
         /\ updatemenus (fig_layout fig) = [freq_menu; play_pause_menu]
         /\ Forall2
              (fun k b =>
                 exists rs_data rsm_data frames fr steps,
                   dict_get short_frequencies k = Ok rs_data
                   /\ dict_get short_frequencies k = Ok rsm_data
                   /\ build_frames rs_data rsm_data 3 10
                      = Ok (frames ++ [fr], steps)
                   /\ b = UpdateButton k (frames ++ [fr]) (data fr)
                                       [tail_slider; time_slider steps])
              (map fst short_frequencies) (buttons freq_menu).
Proof.
  eexists. split; [vm_compute; reflexivity|].
  apply (frequency_buttons short_frequencies short_frequencies 3 10).
  vm_compute. reflexivity.
Defined.

(** X16: [plot] returns a figure only if both arguments are dictionaries,
    "Daily" is a key of the ratio dictionary and every key of the ratio
    dictionary is a key of the momentum dictionary; the figure then has at
    least one frame, and unless every ratio table has fewer than two rows the
    tail is at least 1 and the frame count at least 0. *)
Theorem plot_requirements
        (rs_input rsm_input : pyobj) (tail frame : Z) (fig : FigDict) :
  plot rs_input rsm_input tail frame = Ok fig ->
  exists freq_rs freq_rsm,
    rs_input = PyDict freq_rs /\ rsm_input = PyDict freq_rsm
    /\ In "Daily" (map fst freq_rs)
    /\ incl (map fst freq_rs) (map fst freq_rsm)
    /\ fig_frames fig <> []
    /\ (forall k rs_data,
           dict_get freq_rs k = Ok rs_data -> 2 <= len rs_data ->
           1 <= tail /\ 0 <= frame).
Proof.
  intros Hfig.
  destruct (plot_inv _ _ _ _ _ Hfig)
    as (freq_rs & freq_rsm & ff & ts & frames & fr & steps & tsteps & ds & fb
        & -> & -> & Hloop & Hd & _ & _ & Hfb & ->).
  destruct (plot_loop_keys _ _ _ _ _ _ Hloop) as [Hst Hdom].
  exists freq_rs, freq_rsm.
  split; [reflexivity|]. split; [reflexivity|].
  split; [apply Hdom; eauto|]. split.
  { intros k Hin. destruct (proj1 (Hdom _) Hin) as [d Hdk].
    destruct (Hst _ _ Hdk) as [Hfor _]. apply frames_for_inv in Hfor.
    destruct Hfor as (a & b & _ & Hb & _).
    now apply dict_get_in_keys in Hb. }
  split; [cbn [fig_frames]; now destruct frames|].
  intros k rs_data Hk HL.
  destruct (Forall2_in_l _ _ _ _ _ k Hfb (dict_get_in_keys _ _ _ _ Hk))
    as (b & _ & Hb).
  apply freq_button_inv in Hb. destruct Hb as (F & f & S & s & Hdk & _ & _).
  destruct (Hst _ _ Hdk) as [Hfor _]. unfold frames_for in Hfor.
  rewrite Hk in Hfor. cbn [bind] in Hfor.
  destruct (dict_get freq_rsm k) as [rsm_data|]; [|discriminate].
  cbn [bind] in Hfor.
  destruct (Z.le_gt_cases 1 tail) as [Ht|Ht];
    [destruct (Z.le_gt_cases 0 frame) as [Hf|Hf]; [tauto|]|].
  - rewrite (build_frames_empty rs_data rsm_data tail frame HL) in Hfor
      by (right; lia).
    inversion Hfor as [[HF HS]]. now destruct F.
  - rewrite (build_frames_empty rs_data rsm_data tail frame HL) in Hfor
      by (left; lia).
    inversion Hfor as [[HF HS]]. now destruct F.
Qed.

Lemma plot_requirements_witness :
  exists fig,
    plot (PyDict short_frequencies) (PyDict short_frequencies) 3 10 = Ok fig
    /\ exists freq_rs freq_rsm,
         PyDict short_frequencies = PyDict freq_rs
         /\ PyDict short_frequencies = PyDict freq_rsm
         /\ In "Daily" (map fst freq_rs)
         /\ incl (map fst freq_rs) (map fst freq_rsm)
         /\ fig_frames fig <> []
         /\ (forall k rs_data,
                dict_get freq_rs k = Ok rs_data -> 2 <= len rs_data ->
                1 <= 3 /\ 0 <= 10).
Proof.
  eexists. split; [vm_compute; reflexivity|].
  apply (plot_requirements (PyDict short_frequencies)
                           (PyDict short_frequencies) 3 10).
  vm_compute. reflexivity.
Defined.

(** X17: without a "Daily" key in the ratio dictionary [plot] raises
    [KeyError], after the frames of every frequency have been built, however
    well-formed the tables are. *)
Theorem plot_without_daily
        (freq_rs freq_rsm : list (string * DataFrame)) (tail frame : Z) :
  frequencies_ready freq_rs freq_rsm ->
  ~ In "Daily" (map fst freq_rs) ->
  exists ff ts,
    for_each (map fst freq_rs) ([], [])
             (plot_step freq_rs freq_rsm tail frame) = Ok (ff, ts)
    /\ plot (PyDict freq_rs) (PyDict freq_rsm) tail frame = Raise KeyError.
Proof.
  intros Hready Hnot.
  destruct (plot_loop_ready _ _ tail frame Hready) as (ff & ts & Hloop).
  destruct (plot_loop_keys _ _ _ _ _ _ Hloop) as [_ Hdom].
  exists ff, ts. split; [assumption|].
  unfold plot. rewrite Hloop. cbn [bind].
  destruct (dict_get ff default_freq) as [d|e] eqn:Ed.
  - exfalso. apply Hnot. apply Hdom. eauto.
  - apply dict_get_raise in Ed. now destruct Ed as [-> _].
Qed.

Lemma plot_without_daily_witness :
  exists ff ts,
    for_each (map fst weekly_only) ([], [])
             (plot_step weekly_only three_momentum 3 10) = Ok (ff, ts)
    /\ plot (PyDict weekly_only) (PyDict three_momentum) 3 10 = Raise KeyError.
Proof.
  apply (plot_without_daily weekly_only three_momentum 3 10).
  - apply weekly_only_ready.
  - cbn. intros [H|[]]. discriminate.
Defined.

(** X18: the guard of line 148 does not protect the tail slider and the
    frequency buttons.  With ready tables and a "Daily" frequency, a tail of 0
    or less or a negative frame count makes [plot] raise [IndexError] as soon
    as one of the ratio tables has two or more rows. *)
Theorem plot_without_frames
        (freq_rs freq_rsm : list (string * DataFrame)) (tail frame : Z)
        (k : string) (rs_data : DataFrame) :
  frequencies_ready freq_rs freq_rsm ->
  In "Daily" (map fst freq_rs) ->
  dict_get freq_rs k = Ok rs_data -> 2 <= len rs_data ->
  tail <= 0 \/ frame < 0 ->
  plot (PyDict freq_rs) (PyDict freq_rsm) tail frame = Raise IndexError.
Proof.
  intros Hready Hdaily Hk HL Hbad.
  destruct (plot_loop_ready _ _ tail frame Hready) as (ff & ts & Hloop).
  destruct (plot_loop_keys _ _ _ _ _ _ Hloop) as [Hst Hdom].
  destruct (proj1 (Hdom _) Hdaily) as [[F S] Hd].
  change "Daily" with default_freq in Hd.
  destruct F as [|f0 F _] using rev_ind.
  - unfold plot. rewrite Hloop. cbn [bind]. rewrite Hd.
    cbn [bind initial_data_of].
    rewrite (comprehension_raise _ _ (tail_step ff) IndexError);
      [reflexivity| |].
    + apply Forall_forall. intros tval _. right.
      now apply tail_step_empty with S.
    + cbn [seq map]. apply Exists_cons_hd. now apply tail_step_empty with S.
  - destruct (Hst _ _ Hd) as [_ Hts]. cbn [snd] in Hts.
    rewrite (plot_run _ _ _ _ _ _ _ _ _ _ _ Hloop Hd Hts eq_refl).
    rewrite (comprehension_raise _ _ _ IndexError); [reflexivity| |].
    + apply Forall_forall. intros k' Hin.
      destruct (proj1 (Hdom _) Hin) as [[F' S'] Hd'].
      destruct (Hst _ _ Hd') as [_ Hts']. cbn [snd] in Hts'.
      destruct F' as [|f' F' _] using rev_ind.
      * right. now apply freq_button_empty with S'.
      * left. rewrite (freq_button_eq _ _ _ _ _ _ _ _ Hd' Hts'). eauto.
    + apply Exists_exists. exists k.
      split; [now apply dict_get_in_keys in Hk|].
      destruct (proj1 (Hdom k)) as [[Fk Sk] Hdk];
        [now apply dict_get_in_keys in Hk|].
      destruct (Hst _ _ Hdk) as [Hfor _]. unfold frames_for in Hfor.
      rewrite Hk in Hfor. cbn [bind] in Hfor.
      destruct (dict_get freq_rsm k) as [rsm_data|]; [|discriminate].
      cbn [bind] in Hfor.
      rewrite (build_frames_empty rs_data rsm_data tail frame HL Hbad)
        in Hfor.
      inversion Hfor; subst. now apply freq_button_empty with [].
Qed.

Lemma plot_without_frames_witness :
  plot (PyDict three_frequencies) (PyDict three_momentum) 0 10
  = Raise IndexError.
Proof.
  apply (plot_without_frames three_frequencies three_momentum 0 10
                             "Weekly" two_rows).
  - apply three_frequencies_ready.
  - now left.
  - reflexivity.
  - vm_compute. discriminate.
  - left. lia.
Defined.

Lemma calculate_same_shape
      (benchmark_series : Series) (tickers_df : DataFrame) (window : Z) :
  0 <= window ->
  rectangular tickers_df ->
  length (s_values benchmark_series) = length (s_index benchmark_series) ->
  exists ratio momentum,
    calculate benchmark_series tickers_df window = Ok (ratio, momentum)
    /\ same_shape ratio momentum.
Proof.
  intros Hw Hr Hlen.
  pose proof (rectangular_div _ _ Hr Hlen) as Hd.
  eexists _, _. split; [apply calculate_columns; assumption|].
  repeat split.
  - apply rectangular_map_columns; [|assumption].
    intros s. apply length_normalize_column.
  - apply rectangular_map_columns; [|assumption].
    intros s. now rewrite length_normalize_column, length_roc_column,
                length_normalize_column.
  - unfold column_labels, map_columns. cbn [columns].
    rewrite !map_map. cbn [fst]. apply incl_refl.
Qed.

(** X19: the pipeline of main.py never fails on well-formed prices.  For
    three price tables with one value per row in every column and benchmark
    series with one value per label, a window of at least 0, a tail of at
    least 1 and a frame count of at least 0, [calculate] returns the ratio and
    momentum tables of each frequency and [plot], called on the dictionaries
    of these tables under the keys "Daily", "Weekly" and "Monthly", returns a
    figure. *)
Theorem figure_from_metrics
        (bench_daily bench_weekly bench_monthly : Series)
        (tickers_daily tickers_weekly tickers_monthly : DataFrame)
        (window tail frame : Z) :
  0 <= window -> 1 <= tail -> 0 <= frame ->
  rectangular tickers_daily ->
  length (s_values bench_daily) = length (s_index bench_daily) ->
  rectangular tickers_weekly ->
  length (s_values bench_weekly) = length (s_index bench_weekly) ->
  rectangular tickers_monthly ->
  length (s_values bench_monthly) = length (s_index bench_monthly) ->
  exists rs_daily rsm_daily rs_weekly rsm_weekly rs_monthly rsm_monthly fig,
    calculate bench_daily tickers_daily window = Ok (rs_daily, rsm_daily)
    /\ calculate bench_weekly tickers_weekly window
       = Ok (rs_weekly, rsm_weekly)
    /\ calculate bench_monthly tickers_monthly window
       = Ok (rs_monthly, rsm_monthly)
    /\ plot (PyDict [("Daily", rs_daily); ("Weekly", rs_weekly);
                     ("Monthly", rs_monthly)])
            (PyDict [("Daily", rsm_daily); ("Weekly", rsm_weekly);
                     ("Monthly", rsm_monthly)])
            tail frame = Ok fig.
Proof.
  intros Hw Htail Hframe Hd Hbd Hwk Hbw Hm Hbm.
  destruct (calculate_same_shape _ _ _ Hw Hd Hbd) as (rd & md & Hcd & Hsd).
  destruct (calculate_same_shape _ _ _ Hw Hwk Hbw) as (rw & mw & Hcw & Hsw).
  destruct (calculate_same_shape _ _ _ Hw Hm Hbm) as (rm & mm & Hcm & Hsm).
  destruct (plot_total [("Daily", rd); ("Weekly", rw); ("Monthly", rm)]
              [("Daily", md); ("Weekly", mw); ("Monthly", mm)] tail frame)
    as [fig Hfig]; [|now left|assumption|assumption|].
  { intros k rs_data H. cbn [dict_get] in H. cbn [dict_get].
    destruct (String.eqb "Daily" k);
      [inversion H; subst; eauto|].
    destruct (String.eqb "Weekly" k);
      [inversion H; subst; eauto|].
    destruct (String.eqb "Monthly" k); [|discriminate].
    inversion H; subst; eauto. }
  exists rd, md, rw, mw, rm, mm, fig. tauto.
Qed.

Lemma figure_from_metrics_witness :
  exists rs_daily rsm_daily rs_weekly rsm_weekly rs_monthly rsm_monthly fig,
    calculate benchmark_gap eight_prices 15 = Ok (rs_daily, rsm_daily)
    /\ calculate benchmark_three copy_of_benchmark 15
       = Ok (rs_weekly, rsm_weekly)
    /\ calculate benchmark_holes same_as_benchmark 15
       = Ok (rs_monthly, rsm_monthly)
    /\ plot (PyDict [("Daily", rs_daily); ("Weekly", rs_weekly);
                     ("Monthly", rs_monthly)])
            (PyDict [("Daily", rsm_daily); ("Weekly", rsm_weekly);
                     ("Monthly", rsm_monthly)])
            3 10 = Ok fig.
Proof.
  apply (figure_from_metrics benchmark_gap benchmark_three benchmark_holes
           eight_prices copy_of_benchmark same_as_benchmark 15 3 10);
    try lia; try reflexivity; repeat constructor.
Defined.
